(** * Cached HZ font engine (src/font_hz_file.c): a shallow embedding

    The glyph cache [_font_cache_get], the glyph rasterizer
    [_rtgui_hz_file_font_draw_text], the run splitter of
    [rtgui_hz_file_font_draw_text] and [rtgui_hz_file_font_get_metrics]
    are transcribed as functions over [Z], lists of bytes and explicit
    state.  Operating-system services (allocation, open, lseek, read) are
    answers of an [os_model]; every call is recorded in a trace. *)

From Stdlib Require Import ZArith List Bool Lia String.
Import ListNotations.
Local Open Scope Z_scope.

(** ** Machine integers *)

(** Conversion to [rt_uint16_t], [rt_uint32_t] and [rt_int16_t]. *)
Definition to_uint16 (z : Z) : Z := z mod 2 ^ 16.
Definition to_uint32 (z : Z) : Z := z mod 2 ^ 32.
Definition to_int16 (z : Z) : Z := (z + 2 ^ 15) mod 2 ^ 16 - 2 ^ 15.

(** ** Results of code that can dereference an invalid pointer or loop *)

Inductive outcome (A : Type) : Type :=
| Done (a : A)      (* normal return *)
| Fault             (* access outside an object: undefined behaviour *)
| OutOfFuel.        (* the model's iteration budget ran out *)
Arguments Done {A} a.
Arguments Fault {A}.
Arguments OutOfFuel {A}.

Definition obind {A B} (m : outcome A) (k : A -> outcome B) : outcome B :=
  match m with
  | Done a => k a
  | Fault => Fault
  | OutOfFuel => OutOfFuel
  end.

Notation "x <- m ;; k" := (obind m (fun x => k))
  (at level 61, m at next level, right associativity).

(** ** The cache tree *)

Definition HZ_CACHE_MAX : Z := 64.

(** [struct hz_cache]: the key, and the bitmap stored right after the
    header (the C code returns [cache + 1]). *)
Record hz_cache : Type := mk_hz_cache {
  hz_id : Z;
  hz_bitmap : list Z
}.

Definition _font_cache_compare (cache_1 cache_2 : hz_cache) : Z :=
  if hz_id cache_1 >? hz_id cache_2 then 1
  else if hz_id cache_1 <? hz_id cache_2 then -1
  else 0.

(** Modelled from the spec: the key-ordered tree behind [cache_root].
    The macros SPLAY_FIND, SPLAY_INSERT and SPLAY_REMOVE come from
    rtgui/tree.h, which is not among the sources; the spec describes them
    as an ordered map keyed by glyph code in which a duplicate insert is a
    no-op.  They are modelled on a binary search tree with left and right
    links, ordered by [_font_cache_compare]; rebalancing is left out. *)
Inductive cache_tree : Type :=
| SPLAY_NIL
| SPLAY_NODE (l : cache_tree) (elm : hz_cache) (r : cache_tree).

Fixpoint SPLAY_FIND (head : cache_tree) (elm : hz_cache) : option hz_cache :=
  match head with
  | SPLAY_NIL => None
  | SPLAY_NODE l e r =>
      let c := _font_cache_compare elm e in
      if c <? 0 then SPLAY_FIND l elm
      else if c >? 0 then SPLAY_FIND r elm
      else Some e
  end.

Fixpoint SPLAY_INSERT (head : cache_tree) (elm : hz_cache) : cache_tree :=
  match head with
  | SPLAY_NIL => SPLAY_NODE SPLAY_NIL elm SPLAY_NIL
  | SPLAY_NODE l e r =>
      let c := _font_cache_compare elm e in
      if c <? 0 then SPLAY_NODE (SPLAY_INSERT l elm) e r
      else if c >? 0 then SPLAY_NODE l e (SPLAY_INSERT r elm)
      else head
  end.

(** Hangs [r] below the rightmost node of [l]. *)
Fixpoint splay_join (l r : cache_tree) : cache_tree :=
  match l with
  | SPLAY_NIL => r
  | SPLAY_NODE a e b => SPLAY_NODE a e (splay_join b r)
  end.

Fixpoint SPLAY_REMOVE (head : cache_tree) (elm : hz_cache) : cache_tree :=
  match head with
  | SPLAY_NIL => SPLAY_NIL
  | SPLAY_NODE l e r =>
      let c := _font_cache_compare elm e in
      if c <? 0 then SPLAY_NODE (SPLAY_REMOVE l elm) e r
      else if c >? 0 then SPLAY_NODE l e (SPLAY_REMOVE r elm)
      else splay_join l r
  end.

(** [left = root; while (SPLAY_LEFT(left) != NULL) left = SPLAY_LEFT(left);]
    [None] stands for the dereference of a null root. *)
Fixpoint leftmost (head : cache_tree) : option hz_cache :=
  match head with
  | SPLAY_NIL => None
  | SPLAY_NODE SPLAY_NIL e _ => Some e
  | SPLAY_NODE l _ _ => leftmost l
  end.

Fixpoint tree_size (t : cache_tree) : nat :=
  match t with
  | SPLAY_NIL => O
  | SPLAY_NODE l _ r => S (tree_size l + tree_size r)
  end.

Fixpoint all_keys (p : Z -> bool) (t : cache_tree) : bool :=
  match t with
  | SPLAY_NIL => true
  | SPLAY_NODE l e r => p (hz_id e) && all_keys p l && all_keys p r
  end.

(** The search-tree order: smaller keys to the left, larger to the right. *)
Fixpoint ordered (t : cache_tree) : bool :=
  match t with
  | SPLAY_NIL => true
  | SPLAY_NODE l e r =>
      all_keys (fun k => k <? hz_id e) l && all_keys (fun k => hz_id e <? k) r
      && ordered l && ordered r
  end.

(** ** The font descriptor *)

(** Modelled from the spec: the Font Descriptor of section 3
    ([struct rtgui_hz_file_font]; its declaration is in rtgui/font.h,
    which is not among the sources).  [cache_size] is kept as a 16-bit
    counter. *)
Record rtgui_hz_file_font : Type := mk_font {
  cache_root : cache_tree;
  cache_size : Z;
  font_size : Z;
  font_data_size : Z;
  fd : Z;
  font_fn : string
}.

Definition set_fd (font : rtgui_hz_file_font) (v : Z) : rtgui_hz_file_font :=
  mk_font (cache_root font) (cache_size font) (font_size font)
          (font_data_size font) v (font_fn font).

Definition set_cache (font : rtgui_hz_file_font) (root : cache_tree) (n : Z)
  : rtgui_hz_file_font :=
  mk_font root n (font_size font) (font_data_size font) (fd font) (font_fn font).

(** ** Operating-system services *)

Inductive os_event : Type :=
| ev_malloc (payload : Z)
| ev_free
| ev_open (fn : string)
| ev_lseek (fd offset : Z)
| ev_read (fd count : Z).

(** The most recent event is at the head. *)
Definition trace : Type := list os_event.

(** What the services answer, given everything that happened so far.
    [os_read] gives the bytes the file holds at the current position
    ([None]: the read fails with -1); [read] delivers at most [count] of
    them. *)
Record os_model : Type := mk_os {
  os_malloc : trace -> Z -> bool;
  os_open : trace -> string -> Z;
  os_lseek : trace -> Z -> Z -> Z;
  os_read : trace -> Z -> Z -> option (list Z)
}.

Definition is_file_io (e : os_event) : bool :=
  match e with
  | ev_open _ | ev_lseek _ _ | ev_read _ _ => true
  | _ => false
  end.

(** Number of open, lseek and read calls recorded in a trace. *)
Definition io_calls (tr : trace) : nat := List.length (filter is_file_io tr).

Section Cache.

Variable os : os_model.

(** [read(fd, buf, count)]: the return value and the bytes stored. *)
Definition read (tr : trace) (fd count : Z) : Z * list Z :=
  match os_read os tr fd count with
  | None => (-1, [])
  | Some data =>
      let got := firstn (Z.to_nat count) data in
      (Z.of_nat (List.length got), got)
  end.

(** The record offset computed at lines 103-104. *)
Definition glyph_index (hz_id : Z) : Z :=
  94 * (((Z.land hz_id 0xff) - 0xA0) - 1) + ((Z.shiftr hz_id 8) - 0xA0) - 1.

Definition glyph_seek (font : rtgui_hz_file_font) (hz_id : Z) : Z :=
  let seek := to_uint32 (glyph_index hz_id) in
  to_uint32 (seek * font_data_size font).

(** Lines 125-148: eviction of the leftmost node, insertion. *)
Definition cache_insert (font : rtgui_hz_file_font) (tr : trace)
    (cache : hz_cache) : outcome (rtgui_hz_file_font * trace) :=
  ft <- (if cache_size font >=? HZ_CACHE_MAX then
           match leftmost (cache_root font) with
           | None => Fault
           | Some lft =>
               Done (set_cache font (SPLAY_REMOVE (cache_root font) lft)
                               (to_uint16 (cache_size font - 1)),
                     ev_free :: tr)
           end
         else Done (font, tr)) ;;
  let font := fst ft in
  Done (set_cache font (SPLAY_INSERT (cache_root font) cache)
                  (to_uint16 (cache_size font + 1)),
        snd ft).

Definition _font_cache_get (font : rtgui_hz_file_font) (tr : trace) (hz_id : Z)
  : outcome (option (list Z) * rtgui_hz_file_font * trace) :=
  let search := mk_hz_cache hz_id [] in
  match SPLAY_FIND (cache_root font) search with
  | Some cache => Done (Some (hz_bitmap cache), font, tr)
  | None =>
      (* can not find it, load to cache *)
      let ok := os_malloc os tr (font_data_size font) in
      let tr := ev_malloc (font_data_size font) :: tr in
      if negb ok then Done (None, font, tr)
      else
        let seek := glyph_seek font hz_id in
        let opened :=
          if fd font <? 0 then
            (set_fd font (os_open os tr (font_fn font)),
             ev_open (font_fn font) :: tr)
          else (font, tr) in
        let font := fst opened in
        let tr := snd opened in
        if fd font <? 0 then Done (None, font, ev_free :: tr)
        else
          let sk := os_lseek os tr (fd font) seek in
          let tr := ev_lseek (fd font) seek :: tr in
          if sk <? 0 then Done (None, font, ev_free :: tr)
          else
            let rd := read tr (fd font) (font_data_size font) in
            let tr := ev_read (fd font) (font_data_size font) :: tr in
            if negb (fst rd =? font_data_size font)
            then Done (None, font, ev_free :: tr)
            else
              let cache := mk_hz_cache hz_id (snd rd) in
              ft <- cache_insert font tr cache ;;
              Done (Some (hz_bitmap cache), fst ft, snd ft)
  end.

(** A sequence of lookups; the result lists the descriptor after each. *)
Fixpoint get_sequence (font : rtgui_hz_file_font) (tr : trace) (codes : list Z)
  : outcome (list rtgui_hz_file_font) :=
  match codes with
  | [] => Done []
  | c :: rest =>
      r <- _font_cache_get font tr c ;;
      fonts <- get_sequence (snd (fst r)) (snd r) rest ;;
      Done (snd (fst r) :: fonts)
  end.


(** ** Drawing surface *)

(** [struct rtgui_rect]: four [rt_int16_t] coordinates. *)
Record rtgui_rect : Type := mk_rect {
  x1 : Z;
  y1 : Z;
  x2 : Z;
  y2 : Z
}.

Definition set_x1 (rect : rtgui_rect) (v : Z) : rtgui_rect :=
  mk_rect v (y1 rect) (x2 rect) (y2 rect).

(** The graphic context fields read by the rasterizer. *)
Record rtgui_gc : Type := mk_gc {
  textstyle : Z;
  background : Z
}.

(** Calls made on the drawing surface and the ASCII font engine. *)
Inductive dc_op : Type :=
| dc_draw_point (x y : Z)
| dc_draw_color_point (x y : Z) (color : Z)
| dc_font_draw (text : list Z) (rect : rtgui_rect).

Definition is_foreground (o : dc_op) : bool :=
  match o with dc_draw_point _ _ => true | _ => false end.


(** ** Memory reads *)

(** [p[0]] for a pointer [p] given as an offset into the object [mem]. *)
Definition read_byte (mem : list Z) (p : Z) : outcome Z :=
  if p <? 0 then Fault
  else match nth_error mem (Z.to_nat p) with
       | Some b => Done b
       | None => Fault
       end.

(** [strlen]: [Fault] when no terminator lies inside the object. *)
Fixpoint strlen (mem : list Z) : outcome Z :=
  match mem with
  | [] => Fault
  | b :: rest => if b =? 0 then Done 0 else n <- strlen rest ;; Done (n + 1)
  end.

Definition sub_bytes (mem : list Z) (str len : Z) : list Z :=
  firstn (Z.to_nat len) (skipn (Z.to_nat str) mem).

(** [for (i = 0; i < n; i++)]: the values [i] takes. *)
Definition for_range (n : Z) : list Z := map Z.of_nat (seq 0 (Z.to_nat n)).

(** Runs [body] on each index in turn and concatenates what it draws. *)
Fixpoint for_each (idx : list Z) (body : Z -> outcome (list dc_op))
  : outcome (list dc_op) :=
  match idx with
  | [] => Done []
  | i :: rest =>
      a <- body i ;;
      b <- for_each rest body ;;
      Done (a ++ b)
  end.

(** ** The glyph rasterizer *)

Record draw_state : Type := mk_draw_state {
  ds_font : rtgui_hz_file_font;
  ds_trace : trace;
  ds_ops : list dc_op;       (* in the order the calls were made *)
  ds_rect : rtgui_rect
}.

(** Conversion to [rt_ubase_t], the type of the rasterizer's [len]
    (an unsigned machine word, taken as 32 bits). *)
Definition to_ubase (z : Z) : Z := z mod 2 ^ 32.

Section Draw.

(** The text-style flag tested at line 202; its value is defined in a
    header that is not among the sources. *)
Variable RTGUI_TEXTSTYLE_DRAW_BACKGROUND : Z.

Variable gc : rtgui_gc.

(** Lines 197-205 for one bit [k] of the byte [b] read from
    [font_ptr[i * word_bytes + j]]. *)
Definition draw_bit (rect : rtgui_rect) (b i j k : Z) : list dc_op :=
  if negb (Z.land (Z.shiftr b (7 - k)) 0x01 =? 0)
     && (x1 rect + 8 * j + k <? x2 rect)
  then [dc_draw_point (x1 rect + 8 * j + k) (y1 rect + i)]
  else if negb (Z.land (textstyle gc) RTGUI_TEXTSTYLE_DRAW_BACKGROUND =? 0)
  then [dc_draw_color_point (x1 rect + 8 * j + k) (y1 rect + i) (background gc)]
  else [].

(** Lines 192-207: the three nested loops over one glyph. *)
Definition draw_word (font_ptr : list Z) (rect : rtgui_rect)
    (h word_bytes : Z) : outcome (list dc_op) :=
  for_each (for_range h) (fun i =>
    for_each (for_range word_bytes) (fun j =>
      for_each (for_range 8) (fun k =>
        b <- read_byte font_ptr (i * word_bytes + j) ;;
        Done (draw_bit rect b i j k)))).

(** Drawing height and bytes per bitmap row (lines 176-178). *)
Definition drawing_height (font : rtgui_hz_file_font) (rect : rtgui_rect) : Z :=
  if font_size font + y1 rect >? y2 rect then y2 rect - y1 rect
  else font_size font.

Definition row_bytes (font : rtgui_hz_file_font) : Z :=
  Z.quot (font_size font + 7) 8.

(** One pass through the body of the loop at line 182; the result is
    the state, [str] and [len] for the next test of the loop condition. *)
Definition hz_draw_glyph (mem : list Z) (h word_bytes : Z)
    (str len : Z) (st : draw_state) : outcome (Z * Z * draw_state) :=
  b0 <- read_byte mem str ;;
  b1 <- read_byte mem (str + 1) ;;
  r <- _font_cache_get (ds_font st) (ds_trace st)
         (to_uint16 (Z.lor b0 (Z.shiftl b1 8))) ;;
  let font := snd (fst r) in
  ops <- match fst (fst r) with
         | Some font_ptr => draw_word font_ptr (ds_rect st) h word_bytes
         | None => Done []
         end ;;
  let rect := set_x1 (ds_rect st)
                (to_int16 (x1 (ds_rect st) + font_size font)) in
  Done (str + 2, to_ubase (len - 2),
        mk_draw_state font (snd r) (ds_ops st ++ ops) rect).

Definition hz_loop_test (len : Z) (st : draw_state) : bool :=
  (len >? 0) && (x1 (ds_rect st) <? x2 (ds_rect st)).

Fixpoint hz_draw_loop (fuel : nat) (mem : list Z) (h word_bytes : Z)
    (str len : Z) (st : draw_state) : outcome draw_state :=
  if hz_loop_test len st then
    match fuel with
    | O => OutOfFuel
    | S fuel' =>
        n <- hz_draw_glyph mem h word_bytes str len st ;;
        hz_draw_loop fuel' mem h word_bytes (fst (fst n)) (snd (fst n)) (snd n)
    end
  else Done st.

(** [_rtgui_hz_file_font_draw_text]: [text] is the offset [str] into the
    object [mem]; [len] is its [rt_ubase_t] length. *)
Definition _rtgui_hz_file_font_draw_text (fuel : nat) (mem : list Z)
    (text len : Z) (st : draw_state) : outcome draw_state :=
  let h := drawing_height (ds_font st) (ds_rect st) in
  let word_bytes := row_bytes (ds_font st) in
  hz_draw_loop fuel mem h word_bytes text (to_ubase len) st.

End Draw.

End Cache.

(** ** Splitting the transcoded text into runs *)

Section Runs.

Variable St : Type.

(** What is done with an ASCII run (lines 254-255) and with a
    double-byte run (line 265), given the run's offset and length. *)
Variable on_ascii : Z -> Z -> St -> outcome St.
Variable on_hz : Z -> Z -> St -> outcome St.

Variable mem : list Z.

(** Line 250: [while (str[len] < 0x80 && str[len] && len < str_len) len++]. *)
Fixpoint scan_ascii (fuel : nat) (str str_len len : Z) : outcome Z :=
  b <- read_byte mem (str + len) ;;
  if (b <? 0x80) && negb (b =? 0) && (len <? str_len) then
    match fuel with
    | O => OutOfFuel
    | S fuel' => scan_ascii fuel' str str_len (to_uint32 (len + 1))
    end
  else Done len.

(** Line 262: [while (str[len] >= 0x80 && len < str_len) len++]. *)
Fixpoint scan_hz (fuel : nat) (str str_len len : Z) : outcome Z :=
  b <- read_byte mem (str + len) ;;
  if (b >=? 0x80) && (len <? str_len) then
    match fuel with
    | O => OutOfFuel
    | S fuel' => scan_hz fuel' str str_len (to_uint32 (len + 1))
    end
  else Done len.

(** Lines 247-270. *)
Fixpoint draw_text_loop (fuel : nat) (str str_len : Z) (st : St) : outcome St :=
  if str_len >? 0 then
    match fuel with
    | O => OutOfFuel
    | S fuel' =>
        len <- scan_ascii fuel str str_len 0 ;;
        st <- (if len >? 0 then on_ascii str len st else Done st) ;;
        let str := if len >? 0 then str + len else str in
        let str_len := if len >? 0 then to_uint32 (str_len - len) else str_len in
        len <- scan_hz fuel str str_len 0 ;;
        st <- (if len >? 0 then on_hz str len st else Done st) ;;
        let str := if len >? 0 then str + len else str in
        let str_len := if len >? 0 then to_uint32 (str_len - len) else str_len in
        draw_text_loop fuel' str str_len st
    end
  else Done st.

End Runs.

Inductive run_kind : Type := ASCII | DOUBLE.

Definition run_kind_eqb (a b : run_kind) : bool :=
  match a, b with
  | ASCII, ASCII | DOUBLE, DOUBLE => true
  | _, _ => false
  end.

(** The runs handed to the ASCII font and to the glyph rasterizer, in
    order: [str] is the buffer filled by the transcoder. *)
Definition text_runs (str : list Z) : outcome (list (run_kind * list Z)) :=
  str_len <- strlen str ;;
  draw_text_loop (list (run_kind * list Z))
    (fun p n acc => Done (acc ++ [(ASCII, sub_bytes str p n)]))
    (fun p n acc => Done (acc ++ [(DOUBLE, sub_bytes str p n)]))
    str (S (List.length str)) 0 (to_uint32 str_len) [].

Definition byte_kind (b : Z) : run_kind := if b <? 0x80 then ASCII else DOUBLE.

(** Every byte of a run is of the run's kind and the run is not empty. *)
Definition run_ok (r : run_kind * list Z) : bool :=
  negb (Nat.eqb (List.length (snd r)) 0)
  && forallb (fun b => run_kind_eqb (byte_kind b) (fst r)) (snd r).

Fixpoint alternating (rs : list (run_kind * list Z)) : bool :=
  match rs with
  | a :: (b :: _) as rest => negb (run_kind_eqb (fst a) (fst b)) && alternating rest
  | _ => true
  end.

(** [true] when [b], if there is such a byte, is not of kind [k]. *)
Definition other_kind (k : run_kind) (b : option Z) : bool :=
  match b with
  | None => true
  | Some b => negb (run_kind_eqb (byte_kind b) k)
  end.

(** A run is maximal when the byte before it and the byte after it, where
    there is one, are of the other kind; [prev] is the byte before the
    first run. *)
Fixpoint maximal_from (prev : option Z) (rs : list (run_kind * list Z)) : bool :=
  match rs with
  | [] => true
  | r :: rest =>
      other_kind (fst r) prev
      && other_kind (fst r) (hd_error (List.concat (map snd rest)))
      && maximal_from (last (map Some (snd r)) prev) rest
  end.

(** ** The whole draw call *)

Section DrawText.

Variable os : os_model.
Variable RTGUI_TEXTSTYLE_DRAW_BACKGROUND : Z.
Variable gc : rtgui_gc.

(** Lines 254-255: the ASCII font draws the run, then the cursor moves
    by half a glyph per byte. *)
Definition draw_ascii_run (mem : list Z) (str len : Z) (st : draw_state)
  : outcome draw_state :=
  let rect := ds_rect st in
  Done (mk_draw_state (ds_font st) (ds_trace st)
          (ds_ops st ++ [dc_font_draw (sub_bytes mem str len) rect])
          (set_x1 rect (to_int16 (x1 rect + Z.quot (font_size (ds_font st)) 2 * len)))).

(** [rtgui_hz_file_font_draw_text] from line 235 on: [str] is what the
    transcoder left in the allocated buffer ([None]: the allocation
    failed), [st] carries the aligned [text_rect]. *)
Definition rtgui_hz_file_font_draw_text (fuel : nat) (str : option (list Z))
    (st : draw_state) : outcome draw_state :=
  match str with
  | None => Done st
  | Some mem =>
      str_len <- strlen mem ;;
      draw_text_loop draw_state
        (draw_ascii_run mem)
        (fun p n s =>
           _rtgui_hz_file_font_draw_text os RTGUI_TEXTSTYLE_DRAW_BACKGROUND gc
             fuel mem p n s)
        mem (S (List.length mem)) 0 (to_uint32 str_len) st
  end.

End DrawText.

(** ** Metrics *)

(** Lines 284-300: [str] is the transcoded buffer, [None] when its
    allocation failed (the rectangle is then left as it was). *)
Definition rtgui_hz_file_font_get_metrics (font : rtgui_hz_file_font)
    (str : option (list Z)) (rect : rtgui_rect) : outcome rtgui_rect :=
  match str with
  | None => Done rect
  | Some mem =>
      n <- strlen mem ;;
      let x2 := to_uint32 (Z.quot (font_size font) 2 * n) in
      Done (mk_rect 0 0
              (to_int16 (if x2 >=? 0x7FFF then 0x7FFF else x2))
              (to_int16 (font_size font)))
  end.

(** ** A concrete operating system, for examples *)

(** Allocation succeeds, the font file opens as descriptor 3, [lseek]
    returns the offset and [read] delivers the bytes of [file] from the
    offset of the [lseek] just before it. *)
Definition file_os (file : list Z) : os_model :=
  mk_os (fun _ _ => true)
        (fun _ _ => 3)
        (fun _ _ off => off)
        (fun tr _ _ =>
           match tr with
           | ev_lseek _ off :: _ =>
               if off <? Z.of_nat (List.length file)
               then Some (skipn (Z.to_nat off) file)
               else Some []
           | _ => None
           end).

(** An operating system on which the font file cannot be opened. *)
Definition no_file_os : os_model :=
  mk_os (fun _ _ => true) (fun _ _ => -1) (fun _ _ _ => -1) (fun _ _ _ => None).

(** A font of pixel size [s] with an empty cache and the file not yet
    open. *)
Definition new_font (s : Z) : rtgui_hz_file_font :=
  mk_font SPLAY_NIL 0 s (s * Z.quot (s + 7) 8) (-1) "hz.fnt".


(** ** Statements about the cache *)

(** The descriptor's invariant: the tree is ordered, the counter is the
    number of entries, and it is within the capacity. *)
Definition cache_inv (font : rtgui_hz_file_font) : Prop :=
  ordered (cache_root font) = true
  /\ cache_size font = Z.of_nat (tree_size (cache_root font))
  /\ cache_size font <= HZ_CACHE_MAX.

(** Going from [font] to [font'], the entry with the smallest key left
    the cache, [(code, bitmap)] entered it, and nothing else changed. *)
Definition evicts_smallest (font font' : rtgui_hz_file_font)
    (code : Z) (bitmap : list Z) : Prop :=
  exists lft,
    leftmost (cache_root font) = Some lft
    /\ SPLAY_FIND (cache_root font) lft = Some lft
    /\ (forall x e, SPLAY_FIND (cache_root font) x = Some e ->
                    hz_id lft <= hz_id e)
    /\ (forall x, SPLAY_FIND (cache_root font') x =
                  if hz_id x =? code then Some (mk_hz_cache code bitmap)
                  else if hz_id x =? hz_id lft then None
                  else SPLAY_FIND (cache_root font) x)
    /\ tree_size (cache_root font') = tree_size (cache_root font)
    /\ cache_size font' = HZ_CACHE_MAX.

Section LoadFailures.

Variable os : os_model.
Variable font : rtgui_hz_file_font.
Variable tr : trace.
Variable code : Z.

(** The ways a load can fail, as answers of the operating system at the
    moment [_font_cache_get] asks. *)
Definition tr_alloc : trace := ev_malloc (font_data_size font) :: tr.

Definition alloc_fails : Prop :=
  os_malloc os tr (font_data_size font) = false.

Definition fd_used : Z :=
  if fd font <? 0 then os_open os tr_alloc (font_fn font) else fd font.

Definition tr_open : trace :=
  if fd font <? 0 then ev_open (font_fn font) :: tr_alloc else tr_alloc.

(** The file is not open yet and [open] fails. *)
Definition open_fails : Prop := fd_used < 0.

Definition seek_fails : Prop :=
  os_lseek os tr_open fd_used (glyph_seek font code) < 0.

(** [read] returns fewer than [font_data_size] bytes (or -1). *)
Definition short_read : Prop :=
  fst (read os (ev_lseek fd_used (glyph_seek font code) :: tr_open)
            fd_used (font_data_size font)) < font_data_size font.

Definition cache_miss : Prop :=
  SPLAY_FIND (cache_root font) (mk_hz_cache code []) = None.

End LoadFailures.

(** Sixty-four glyph codes with increasing keys, and the descriptor
    obtained by loading them one after the other from a file of zero
    bytes. *)
Definition codes64 : list Z :=
  map (fun i => 0xA1A1 + 256 * Z.of_nat i) (seq 0 64).

Definition zero_file : list Z := repeat 0 1024.

Definition full_font : rtgui_hz_file_font :=
  match get_sequence (file_os zero_file) (new_font 8) [] codes64 with
  | Done fonts => last fonts (new_font 8)
  | _ => new_font 8
  end.

(** ** Statements about runs *)

(** The grouping of a byte string into maximal runs of one kind, as
    section 4.3 of the spec words it; [text_runs] is compared with it. *)
Fixpoint group_runs (s : list Z) : list (run_kind * list Z) :=
  match s with
  | [] => []
  | b :: s' =>
      match group_runs s' with
      | (k, r) :: rs =>
          if run_kind_eqb (byte_kind b) k then (k, b :: r) :: rs
          else (byte_kind b, [b]) :: (k, r) :: rs
      | [] => [(byte_kind b, [b])]
      end
  end.

(** A byte other than NUL. *)
Definition nonzero_byte (b : Z) : Prop := 0 < b < 256.

(** What one pass of the loop hands over for the bytes [run] it scanned:
    nothing when the scan did not advance. *)
Definition emit_run (k : run_kind) (run : list Z) : list (run_kind * list Z) :=
  match run with
  | [] => []
  | _ => [(k, run)]
  end.

(** ** Statements about the rasterizer *)

(** Bit [k] of byte-column [j] in row [i] of a bitmap, counting bits
    from the most significant one. *)
Definition glyph_bit (font_ptr : list Z) (word_bytes i j k : Z) : bool :=
  Z.testbit (nth (Z.to_nat (i * word_bytes + j)) font_ptr 0) (7 - k).

(** The bit positions visited for one glyph. *)
Definition visited (h word_bytes i j k : Z) : Prop :=
  0 <= i < h /\ 0 <= j < word_bytes /\ 0 <= k < 8.

(** The text style asks for the background to be filled. *)
Definition draws_background (flag : Z) (gc : rtgui_gc) : bool :=
  negb (Z.land (textstyle gc) flag =? 0).

(** An 8x8 glyph whose only set bit is the leftmost one of the first row. *)
Definition corner_glyph : list Z := [0x80; 0; 0; 0; 0; 0; 0; 0].

(** A font file of three 8x8 records, for examples: the record of code
    0xA2A1, at offset 8, is the glyph above; the other two are blank. *)
Definition corner_file : list Z := repeat 0 8 ++ corner_glyph ++ repeat 0 8.

(** What the three loops draw for the bit at row [i], byte-column [j],
    bit [k], and for the whole glyph, when every byte they read lies
    inside the bitmap. *)
Definition glyph_pixel (flag : Z) (gc : rtgui_gc) (font_ptr : list Z)
    (rect : rtgui_rect) (word_bytes i j k : Z) : list dc_op :=
  draw_bit flag gc rect (nth (Z.to_nat (i * word_bytes + j)) font_ptr 0) i j k.

Definition glyph_pixels (flag : Z) (gc : rtgui_gc) (font_ptr : list Z)
    (rect : rtgui_rect) (h word_bytes : Z) : list dc_op :=
  flat_map (fun i =>
    flat_map (fun j =>
      flat_map (fun k => glyph_pixel flag gc font_ptr rect word_bytes i j k)
               (for_range 8))
      (for_range word_bytes))
    (for_range h).

(** ** Statements about the glyph loop *)

Fixpoint all_entries (p : hz_cache -> bool) (t : cache_tree) : bool :=
  match t with
  | SPLAY_NIL => true
  | SPLAY_NODE l e r => p e && all_entries p l && all_entries p r
  end.

(** The bitmap of an entry has the record size of the font. *)
Definition record_sized (font : rtgui_hz_file_font) (e : hz_cache) : bool :=
  Z.of_nat (List.length (hz_bitmap e)) =? font_data_size font.

(** A descriptor as section 3 of the spec describes it: the cache
    invariant holds, every cached bitmap has [font_data_size] bytes, and
    [font_data_size] is [S * ceil(S/8)]. *)
Definition font_wf (font : rtgui_hz_file_font) : Prop :=
  cache_inv font
  /\ all_entries (record_sized font) (cache_root font) = true
  /\ 0 <= font_size font
  /\ font_data_size font = font_size font * row_bytes font.

(** The cursor [x1] after [k] glyphs: [rect->x1 += font_size], [k] times,
    in [rt_int16_t]. *)
Fixpoint cursor_after (s : Z) (k : nat) (x : Z) : Z :=
  match k with
  | O => x
  | S k' => cursor_after s k' (to_int16 (x + s))
  end.

(** The glyph code built at line 188 from the two bytes at [str]. *)
Definition glyph_code_at (mem : list Z) (str : Z) : Z :=
  to_uint16 (Z.lor (nth (Z.to_nat str) mem 0)
                   (Z.shiftl (nth (Z.to_nat (str + 1)) mem 0) 8)).

(** ** Statements about the metrics *)

(** A transcoded string of [n] letters 'A' and its terminator. *)
Definition long_text (n : nat) : list Z := repeat 0x41 n ++ [0].

From Stdlib Require Import Ascii.

(** ** Loading the font *)

Definition newline : string := String (ascii_of_nat 10) EmptyString.

(** [rtgui_hz_file_font_load] (lines 151-162): the file is opened and the
    descriptor stored; when that fails two lines go to the console. *)
Definition rtgui_hz_file_font_load (os : os_model) (font : rtgui_hz_file_font)
    (tr : trace) (console : list string)
  : rtgui_hz_file_font * trace * list string :=
  let font' := set_fd font (os_open os tr (font_fn font)) in
  let tr' := ev_open (font_fn font) :: tr in
  if fd font' <? 0 then
    (font', tr',
     console
       ++ [("RTGUI: could not open the font file:" ++ font_fn font ++ newline)%string;
           ("RTGUI: please mount the fs first and make sure the file is there"
              ++ newline)%string])
  else (font', tr', console).

(** A sequence of lookups; the result is the descriptor and the trace
    after the last one. *)
Fixpoint get_all (os : os_model) (font : rtgui_hz_file_font) (tr : trace)
    (codes : list Z) : outcome (rtgui_hz_file_font * trace) :=
  match codes with
  | [] => Done (font, tr)
  | c :: rest =>
      r <- _font_cache_get os font tr c ;;
      get_all os (snd (fst r)) (snd r) rest
  end.

(** ** Counting calls in a trace *)

Definition is_open (e : os_event) : bool :=
  match e with ev_open _ => true | _ => false end.

Definition is_malloc (e : os_event) : bool :=
  match e with ev_malloc _ => true | _ => false end.

Definition is_free (e : os_event) : bool :=
  match e with ev_free => true | _ => false end.

Definition opens (tr : trace) : nat := List.length (filter is_open tr).
Definition mallocs (tr : trace) : nat := List.length (filter is_malloc tr).
Definition frees (tr : trace) : nat := List.length (filter is_free tr).

(** [true] when the code is not in the cache. *)
Definition misses (font : rtgui_hz_file_font) (code : Z) : bool :=
  match SPLAY_FIND (cache_root font) (mk_hz_cache code []) with
  | Some _ => false
  | None => true
  end.

(** ** The font file *)

(** A file system on which a [read] that follows an [lseek] to [off]
    delivers the bytes of [file] from [off] on. *)
Definition reads_file (os : os_model) (file : list Z) : Prop :=
  forall tr fd off count,
    os_read os (ev_lseek fd off :: tr) fd count
    = Some (skipn (Z.to_nat off) file).

(** The record of a glyph code in the file. *)
Definition file_record (font : rtgui_hz_file_font) (file : list Z) (code : Z)
  : list Z :=
  firstn (Z.to_nat (font_data_size font))
         (skipn (Z.to_nat (glyph_seek font code)) file).

Definition holds_record (font : rtgui_hz_file_font) (file : list Z)
    (e : hz_cache) : bool :=
  if list_eq_dec Z.eq_dec (hz_bitmap e) (file_record font file (hz_id e))
  then true else false.

(** A byte of a GB2312 pair. *)
Definition gb2312_byte (b : Z) : Prop := 0xA1 <= b <= 0xFE.

(** The descriptor once the file has been opened on demand (lines
    106-114). *)
Definition font_opened (os : os_model) (font : rtgui_hz_file_font) (tr : trace)
  : rtgui_hz_file_font :=
  if fd font <? 0
  then set_fd font (os_open os (tr_alloc font tr) (font_fn font))
  else font.

(** The trace once the record has been sought and read. *)
Definition tr_read (os : os_model) (font : rtgui_hz_file_font) (tr : trace)
    (code : Z) : trace :=
  ev_read (fd_used os font tr) (font_data_size font)
    :: ev_lseek (fd_used os font tr) (glyph_seek font code)
    :: tr_open font tr.

(** The bytes a load of [code] gets from [read]. *)
Definition record_read (os : os_model) (font : rtgui_hz_file_font) (tr : trace)
    (code : Z) : list Z :=
  snd (read os (ev_lseek (fd_used os font tr) (glyph_seek font code)
                  :: tr_open font tr)
            (fd_used os font tr) (font_data_size font)).

(** ** Runs handed over one after the other *)

Section Dispatch.

Variable St : Type.
Variable on_ascii : Z -> Z -> St -> outcome St.
Variable on_hz : Z -> Z -> St -> outcome St.

(** Hands each run, with its offset and length, to the ASCII font or to
    the rasterizer, in order; stops at the first that does not return. *)
Fixpoint dispatch_runs (p : Z) (runs : list (run_kind * list Z)) (st : St)
  : outcome St :=
  match runs with
  | [] => Done st
  | (k, run) :: rest =>
      let n := Z.of_nat (List.length run) in
      st' <- (match k with
              | ASCII => on_ascii p n st
              | DOUBLE => on_hz p n st
              end) ;;
      dispatch_runs (p + n) rest st'
  end.

End Dispatch.
(** * Properties *)

(** ** The cache tree as an ordered map *)

Lemma compare_cases (a b : hz_cache) :
  (hz_id a < hz_id b /\ _font_cache_compare a b = -1)
  \/ (hz_id a > hz_id b /\ _font_cache_compare a b = 1)
  \/ (hz_id a = hz_id b /\ _font_cache_compare a b = 0).
Proof.
  unfold _font_cache_compare.
  destruct (hz_id a >? hz_id b) eqn:G; [right; left; lia|].
  destruct (hz_id a <? hz_id b) eqn:L; [left; lia | right; right; lia].
Qed.

(** Splits on the result of a comparison and simplifies the two tests
    the tree operations make on it. *)
Ltac cmp a b :=
  let H := fresh "Hcmp" in
  let E := fresh "Ecmp" in
  destruct (compare_cases a b) as [[H E] | [[H E] | [H E]]];
  rewrite ?E in *; cbn [Z.ltb Z.gtb Z.compare] in *.

Lemma all_keys_weaken (p q : Z -> bool) (t : cache_tree) :
  (forall k, p k = true -> q k = true) ->
  all_keys p t = true -> all_keys q t = true.
Proof.
  intros Hpq. induction t as [|l IHl e r IHr]; cbn; auto.
  rewrite !andb_true_iff. intros [[? ?] ?]. auto.
Qed.

Lemma all_keys_find (p : Z -> bool) (t : cache_tree) (x e : hz_cache) :
  all_keys p t = true -> SPLAY_FIND t x = Some e ->
  p (hz_id e) = true /\ hz_id e = hz_id x.
Proof.
  induction t as [|l IHl n r IHr]; cbn; [discriminate|].
  rewrite !andb_true_iff. intros [[Hn Hl] Hr].
  cmp x n; intros F; auto.
  injection F as <-. auto.
Qed.

Lemma find_outside (p : Z -> bool) (t : cache_tree) (x : hz_cache) :
  all_keys p t = true -> p (hz_id x) = false -> SPLAY_FIND t x = None.
Proof.
  intros Ha Hx. destruct (SPLAY_FIND t x) as [e|] eqn:F; [|reflexivity].
  destruct (all_keys_find p t x e Ha F) as [Hp He].
  rewrite He in Hp. congruence.
Qed.

Lemma all_keys_insert (p : Z -> bool) (t : cache_tree) (e : hz_cache) :
  all_keys p t = true -> p (hz_id e) = true ->
  all_keys p (SPLAY_INSERT t e) = true.
Proof.
  induction t as [|l IHl n r IHr]; cbn; intros Ha He.
  - now rewrite He.
  - rewrite !andb_true_iff in Ha. destruct Ha as [[Hn Hl] Hr].
    cmp e n; cbn; rewrite ?andb_true_iff; auto.
Qed.

Lemma all_keys_join (p : Z -> bool) (l r : cache_tree) :
  all_keys p l = true -> all_keys p r = true ->
  all_keys p (splay_join l r) = true.
Proof.
  induction l as [|a IHa n b IHb]; cbn; auto.
  rewrite !andb_true_iff. intros [[Hn Ha] Hb] Hr. auto.
Qed.

Lemma all_keys_remove (p : Z -> bool) (t : cache_tree) (e : hz_cache) :
  all_keys p t = true -> all_keys p (SPLAY_REMOVE t e) = true.
Proof.
  induction t as [|l IHl n r IHr]; cbn; auto.
  rewrite !andb_true_iff. intros [[Hn Hl] Hr].
  cmp e n; cbn; rewrite ?andb_true_iff; auto using all_keys_join.
Qed.

Lemma ordered_insert (t : cache_tree) (e : hz_cache) :
  ordered t = true -> ordered (SPLAY_INSERT t e) = true.
Proof.
  induction t as [|l IHl n r IHr]; cbn; auto.
  rewrite !andb_true_iff. intros [[[Hl Hr] Ol] Or].
  cmp e n; cbn; rewrite ?andb_true_iff; repeat split; auto;
    apply all_keys_insert; auto; lia.
Qed.

Lemma ordered_join (k : Z) (l r : cache_tree) :
  all_keys (fun x => x <? k) l = true -> all_keys (fun x => k <? x) r = true ->
  ordered l = true -> ordered r = true ->
  ordered (splay_join l r) = true.
Proof.
  induction l as [|a IHa n b IHb]; cbn; auto.
  rewrite !andb_true_iff. intros [[Hn Ha] Hb] Hr [[[La Lb] Oa] Ob] Or.
  repeat split; auto.
  apply all_keys_join; auto.
  apply (all_keys_weaken (fun x => k <? x)); auto. intros; lia.
Qed.

Lemma ordered_remove (t : cache_tree) (e : hz_cache) :
  ordered t = true -> ordered (SPLAY_REMOVE t e) = true.
Proof.
  induction t as [|l IHl n r IHr]; cbn; auto.
  rewrite !andb_true_iff. intros [[[Hl Hr] Ol] Or].
  cmp e n; cbn; rewrite ?andb_true_iff; repeat split;
    eauto using all_keys_remove, ordered_join.
Qed.

(** Lookup after an insertion: no order is needed, the insertion follows
    the path of the search. *)
Lemma find_insert (t : cache_tree) (e x : hz_cache) :
  SPLAY_FIND (SPLAY_INSERT t e) x =
  if hz_id x =? hz_id e then
    match SPLAY_FIND t e with Some o => Some o | None => Some e end
  else SPLAY_FIND t x.
Proof.
  induction t as [|l IHl n r IHr]; cbn.
  - cmp x e; destruct (Z.eqb_spec (hz_id x) (hz_id e)); try lia; reflexivity.
  - cmp e n; cbn.
    + cmp x n; rewrite ?IHl; auto;
        destruct (Z.eqb_spec (hz_id x) (hz_id e)); try lia; reflexivity.
    + cmp x n; rewrite ?IHr; auto;
        destruct (Z.eqb_spec (hz_id x) (hz_id e)); try lia; reflexivity.
    + cmp x n; destruct (Z.eqb_spec (hz_id x) (hz_id e)); try lia; reflexivity.
Qed.

Lemma find_join (k : Z) (l r : cache_tree) (x : hz_cache) :
  all_keys (fun y => y <? k) l = true -> all_keys (fun y => k <? y) r = true ->
  SPLAY_FIND (splay_join l r) x =
  if hz_id x <? k then SPLAY_FIND l x
  else if k <? hz_id x then SPLAY_FIND r x
  else None.
Proof.
  intros Hl Hr. induction l as [|a IHa n b IHb]; cbn.
  - destruct (hz_id x <? k) eqn:L.
    + apply (find_outside _ _ _ Hr). lia.
    + destruct (k <? hz_id x) eqn:G; [reflexivity|].
      apply (find_outside _ _ _ Hr). lia.
  - cbn in Hl. rewrite !andb_true_iff in Hl. destruct Hl as [[Hn Ha] Hb].
    cmp x n.
    + replace (hz_id x <? k) with true by lia. reflexivity.
    + rewrite (IHb Hb). reflexivity.
    + replace (hz_id x <? k) with true by lia. reflexivity.
Qed.

Lemma find_remove (t : cache_tree) (e x : hz_cache) :
  ordered t = true ->
  SPLAY_FIND (SPLAY_REMOVE t e) x =
  if hz_id x =? hz_id e then None else SPLAY_FIND t x.
Proof.
  induction t as [|l IHl n r IHr]; cbn.
  - intros _. now destruct (hz_id x =? hz_id e).
  - rewrite !andb_true_iff. intros [[[Hl Hr] Ol] Or].
    cmp e n; cbn.
    + cmp x n; rewrite ?IHl; auto;
        destruct (Z.eqb_spec (hz_id x) (hz_id e)); try lia; try reflexivity.
      all: symmetry; apply (find_outside _ _ _ Hr); lia.
    + cmp x n; rewrite ?IHr; auto;
        destruct (Z.eqb_spec (hz_id x) (hz_id e)); try lia; try reflexivity.
      all: symmetry; apply (find_outside _ _ _ Hl); lia.
    + rewrite (find_join (hz_id n)); auto.
      cmp x n; destruct (Z.eqb_spec (hz_id x) (hz_id e)); try lia.
      * replace (hz_id x <? hz_id n) with true by lia. reflexivity.
      * replace (hz_id x <? hz_id n) with false by lia.
        replace (hz_id n <? hz_id x) with true by lia. reflexivity.
      * replace (hz_id x <? hz_id n) with false by lia.
        replace (hz_id n <? hz_id x) with false by lia. reflexivity.
Qed.

Lemma size_insert (t : cache_tree) (e : hz_cache) :
  SPLAY_FIND t e = None ->
  tree_size (SPLAY_INSERT t e) = S (tree_size t).
Proof.
  induction t as [|l IHl n r IHr]; cbn; auto.
  cmp e n; cbn; intros F; try discriminate.
  - now rewrite IHl.
  - rewrite IHr; auto.
Qed.

Lemma size_join (l r : cache_tree) :
  tree_size (splay_join l r) = (tree_size l + tree_size r)%nat.
Proof.
  induction l as [|a IHa n b IHb]; cbn; auto.
  rewrite IHb. lia.
Qed.

Lemma size_remove (t : cache_tree) (e o : hz_cache) :
  SPLAY_FIND t e = Some o ->
  S (tree_size (SPLAY_REMOVE t e)) = tree_size t.
Proof.
  induction t as [|l IHl n r IHr]; cbn; [discriminate|].
  cmp e n; cbn; intros F.
  - rewrite <- (IHl F). lia.
  - rewrite <- (IHr F). lia.
  - rewrite size_join. lia.
Qed.

Lemma leftmost_some (t : cache_tree) :
  t <> SPLAY_NIL -> exists m, leftmost t = Some m.
Proof.
  induction t as [|l IHl n r IHr]; [congruence|]. intros _.
  cbn. destruct l as [|a b c]; eauto. apply IHl. discriminate.
Qed.

Lemma leftmost_all_keys (p : Z -> bool) (t : cache_tree) (m : hz_cache) :
  all_keys p t = true -> leftmost t = Some m -> p (hz_id m) = true.
Proof.
  induction t as [|l IHl n r IHr]; cbn; [discriminate|].
  rewrite !andb_true_iff. intros [[Hn Hl] Hr].
  destruct l as [|a b c]; [intros [= <-]; auto | auto].
Qed.

(** In an ordered tree the walk along the left links ends on the entry
    with the smallest key, and a search for it finds that entry. *)
Lemma leftmost_min (t : cache_tree) (m : hz_cache) :
  ordered t = true -> leftmost t = Some m ->
  SPLAY_FIND t m = Some m /\ all_keys (fun k => hz_id m <=? k) t = true.
Proof.
  induction t as [|l IHl n r IHr]; [discriminate|].
  cbn [ordered]. rewrite !andb_true_iff. intros [[[Hl Hr] Ol] Or].
  destruct l as [|a b c].
  - cbn. intros [= <-]. cmp n n; try lia. split; [reflexivity|].
    replace (hz_id n <=? hz_id n) with true by lia. cbn.
    apply (all_keys_weaken (fun k => hz_id n <? k)); auto. intros; lia.
  - intros L. change (leftmost (SPLAY_NODE a b c) = Some m) in L.
    destruct (IHl Ol L) as [F A].
    pose proof (leftmost_all_keys _ _ _ Hl L) as Lt. cbn beta in Lt.
    split.
    + cbn [SPLAY_FIND]. cmp m n; try lia. exact F.
    + change (((hz_id m <=? hz_id n)
                && all_keys (fun k => hz_id m <=? k) (SPLAY_NODE a b c)
                && all_keys (fun k => hz_id m <=? k) r) = true).
      rewrite A.
      replace (hz_id m <=? hz_id n) with true by lia. cbn [andb].
      apply (all_keys_weaken (fun k => hz_id n <? k)); auto. intros; lia.
Qed.

Lemma find_same_key (t : cache_tree) (x y : hz_cache) :
  hz_id x = hz_id y -> SPLAY_FIND t x = SPLAY_FIND t y.
Proof.
  intros K. induction t as [|l IHl n r IHr]; cbn; auto.
  cmp x n; cmp y n; try lia; auto.
Qed.

Lemma to_uint16_small (z : Z) : 0 <= z < 2 ^ 16 -> to_uint16 z = z.
Proof. intros H. unfold to_uint16. now apply Z.mod_small. Qed.

(** ** The cache invariant *)

Lemma cache_inv_new (s : Z) : cache_inv (new_font s).
Proof. unfold cache_inv, HZ_CACHE_MAX. cbn. repeat split; lia. Qed.

(** Lines 125-148 keep the invariant, and at full capacity they trade
    the smallest key for the new one. *)
Lemma cache_insert_spec (font : rtgui_hz_file_font) (tr : trace) (cache : hz_cache) :
  cache_inv font ->
  SPLAY_FIND (cache_root font) cache = None ->
  exists font' tr',
    cache_insert font tr cache = Done (font', tr')
    /\ cache_inv font'
    /\ SPLAY_FIND (cache_root font') cache = Some cache
    /\ (cache_size font = HZ_CACHE_MAX ->
        evicts_smallest font font' (hz_id cache) (hz_bitmap cache)).
Proof.
  intros (Ord & Sz & Le) Miss. unfold cache_insert, HZ_CACHE_MAX in *.
  destruct (cache_size font >=? 64) eqn:Full.
  - assert (Sz64 : cache_size font = 64) by lia.
    destruct (leftmost_some (cache_root font)) as [lft L].
    { intros E. rewrite E in Sz. cbn in Sz. lia. }
    rewrite L. cbn.
    destruct (leftmost_min _ _ Ord L) as [Fl Min].
    pose proof (size_remove _ _ _ Fl) as SR.
    assert (Miss' : SPLAY_FIND (SPLAY_REMOVE (cache_root font) lft) cache = None).
    { rewrite find_remove by assumption. rewrite Miss. now destruct (_ =? _). }
    pose proof (size_insert _ _ Miss') as SI.
    replace (to_uint16 (cache_size font - 1)) with 63
      by (rewrite Sz64; reflexivity).
    change (to_uint16 (63 + 1)) with 64.
    do 2 eexists. split; [reflexivity|].
    unfold cache_inv, evicts_smallest, HZ_CACHE_MAX, set_cache.
    cbn [cache_root cache_size].
    split; [|split].
    + repeat split; auto using ordered_insert, ordered_remove; lia.
    + rewrite find_insert, Miss', Z.eqb_refl. reflexivity.
    + intros _. exists lft. unfold HZ_CACHE_MAX. repeat split; auto.
      * intros x e F.
        destruct (all_keys_find _ _ _ _ Min F) as [Hle _]. lia.
      * intros x. rewrite find_insert, Miss', find_remove by assumption.
        destruct cache as [k bm]. cbn. now destruct (hz_id x =? k).
      * lia.
  - cbn. pose proof (size_insert _ _ Miss) as SI.
    rewrite to_uint16_small by lia.
    do 2 eexists. split; [reflexivity|].
    unfold cache_inv, evicts_smallest, HZ_CACHE_MAX, set_cache.
    cbn [cache_root cache_size].
    split; [|split].
    + repeat split; auto using ordered_insert; lia.
    + rewrite find_insert, Miss, Z.eqb_refl. reflexivity.
    + intros E. lia.
Qed.

(** What a lookup returns and leaves behind, by cases. *)
Lemma font_cache_get_spec (os : os_model) (font : rtgui_hz_file_font)
    (tr : trace) (code : Z) :
  cache_inv font ->
  exists r font' tr',
    _font_cache_get os font tr code = Done (r, font', tr')
    /\ cache_inv font'
    /\ (forall b, r = Some b ->
          exists e, SPLAY_FIND (cache_root font') (mk_hz_cache code []) = Some e
                    /\ hz_bitmap e = b)
    /\ (cache_size font = HZ_CACHE_MAX -> cache_miss font code ->
        forall b, r = Some b -> evicts_smallest font font' code b).
Proof.
  intros Inv. unfold _font_cache_get, cache_miss.
  destruct (SPLAY_FIND (cache_root font) (mk_hz_cache code [])) as [e|] eqn:F.
  - do 3 eexists. split; [reflexivity|]. split; [assumption|]. split.
    + intros b [= <-]. rewrite F. eauto.
    + intros _ [=].
  - assert (InvFd : forall v, cache_inv (set_fd font v)) by (intros v; exact Inv).
    destruct (negb (os_malloc os tr (font_data_size font))).
    { do 3 eexists. split; [reflexivity|]. split; [exact Inv|]. split; intros; discriminate. }
    set (opened := if fd font <? 0 then _ else _).
    assert (InvO : cache_inv (fst opened)
                   /\ cache_root (fst opened) = cache_root font
                   /\ cache_size (fst opened) = cache_size font).
    { subst opened. destruct (fd font <? 0); cbn; auto. }
    destruct InvO as (InvO & RootO & SizeO).
    destruct (fd (fst opened) <? 0).
    { do 3 eexists. split; [reflexivity|]. split; [exact InvO|]. split; intros; discriminate. }
    destruct (os_lseek os (snd opened) (fd (fst opened)) (glyph_seek font code) <? 0).
    { do 3 eexists. split; [reflexivity|]. split; [exact InvO|]. split; intros; discriminate. }
    set (rd := read os _ _ _).
    destruct (negb (fst rd =? font_data_size (fst opened))).
    { do 3 eexists. split; [reflexivity|]. split; [exact InvO|]. split; intros; discriminate. }
    set (cache := mk_hz_cache code (snd rd)).
    assert (Miss : SPLAY_FIND (cache_root (fst opened)) cache = None).
    { rewrite RootO, <- F. now apply find_same_key. }
    destruct (cache_insert_spec (fst opened)
                (ev_read (fd (fst opened)) (font_data_size (fst opened))
                   :: ev_lseek (fd (fst opened)) (glyph_seek font code)
                   :: snd opened) cache InvO Miss)
      as (font' & tr' & Run & Inv' & Found & Ev).
    rewrite Run. cbn.
    do 3 eexists. split; [reflexivity|]. split; [assumption|]. split.
    + intros b [= <-]. exists cache. split; [|reflexivity].
      rewrite <- Found. now apply find_same_key.
    + intros Full _ b [= <-]. rewrite <- SizeO in Full.
      destruct (Ev Full) as (lft & L & Fl & Min & Look & TS & CS).
      exists lft. rewrite <- RootO. repeat split; auto.
Qed.

Lemma get_sequence_inv (os : os_model) (codes : list Z) :
  forall font tr, cache_inv font ->
  exists fonts,
    get_sequence os font tr codes = Done fonts
    /\ List.length fonts = List.length codes
    /\ Forall (fun f => cache_size f <= HZ_CACHE_MAX /\ cache_inv f) fonts.
Proof.
  induction codes as [|c rest IH]; intros font tr Inv; cbn.
  - exists []. auto.
  - destruct (font_cache_get_spec os font tr c Inv)
      as (r & font' & tr' & Run & Inv' & _).
    rewrite Run. cbn.
    destruct (IH font' tr' Inv') as (fonts & Runs & Len & All).
    rewrite Runs. cbn. exists (font' :: fonts).
    split; [reflexivity|]. split; [cbn; congruence|].
    constructor; [|assumption]. split; [apply Inv' | assumption].
Qed.

(** C1: from a descriptor that satisfies the cache invariant (such as a
    new one), every sequence of lookups runs to completion and leaves
    [cache_size <= 64] after each of them; and a lookup that misses and
    loads its glyph while [cache_size] is 64 removes exactly the entry
    with the smallest key, adds the new one and leaves the count at 64. *)
Theorem cache_size_never_exceeds_capacity
    (os : os_model) (font : rtgui_hz_file_font) (tr : trace) (codes : list Z) :
  cache_inv font ->
  (exists fonts,
      get_sequence os font tr codes = Done fonts
      /\ List.length fonts = List.length codes
      /\ Forall (fun f => cache_size f <= HZ_CACHE_MAX /\ cache_inv f) fonts)
  /\ (forall code bitmap font' tr',
         cache_size font = HZ_CACHE_MAX ->
         cache_miss font code ->
         _font_cache_get os font tr code = Done (Some bitmap, font', tr') ->
         evicts_smallest font font' code bitmap).
Proof.
  intros Inv. split; [now apply get_sequence_inv|].
  intros code bitmap font' tr' Full Miss Run.
  destruct (font_cache_get_spec os font tr code Inv)
    as (r & f & t & Run' & _ & _ & Ev).
  rewrite Run in Run'. injection Run' as <- <- <-.
  now apply Ev.
Qed.

Lemma full_font_inv : cache_inv full_font.
Proof. vm_compute. repeat split; discriminate. Qed.

Lemma cache_size_never_exceeds_capacity_witness :
  cache_inv full_font
  /\ cache_size full_font = HZ_CACHE_MAX
  /\ cache_miss full_font 0xE1A1
  /\ (exists fonts,
         get_sequence (file_os zero_file) full_font [] [0xE1A1; 0xA1A1] = Done fonts
         /\ List.length fonts = 2%nat
         /\ Forall (fun f => cache_size f <= HZ_CACHE_MAX /\ cache_inv f) fonts)
  /\ (forall bitmap font' tr',
         _font_cache_get (file_os zero_file) full_font [] 0xE1A1
           = Done (Some bitmap, font', tr') ->
         evicts_smallest full_font font' 0xE1A1 bitmap).
Proof.
  assert (Full : cache_size full_font = HZ_CACHE_MAX) by (vm_compute; reflexivity).
  assert (Miss : cache_miss full_font 0xE1A1) by (vm_compute; reflexivity).
  destruct (cache_size_never_exceeds_capacity (file_os zero_file) full_font []
              [0xE1A1; 0xA1A1] full_font_inv) as [Seq Ev].
  split; [exact full_font_inv|]. split; [exact Full|]. split; [exact Miss|].
  split; [exact Seq|].
  intros bitmap font' tr'. exact (Ev 0xE1A1 bitmap font' tr' Full Miss).
Defined.

(** C3: when a lookup of [c] returns a bitmap, the next lookup of [c]
    returns a bitmap with the same content, whatever the operating
    system would answer, and records no further open, lseek or read
    (nor any other call): it is served from the cache. *)
Theorem second_get_served_from_cache
    (os os' : os_model) (font : rtgui_hz_file_font) (tr : trace) (c : Z)
    (b : list Z) (font' : rtgui_hz_file_font) (tr' : trace) :
  cache_inv font ->
  _font_cache_get os font tr c = Done (Some b, font', tr') ->
  exists font'' tr'',
    _font_cache_get os' font' tr' c = Done (Some b, font'', tr'')
    /\ io_calls tr'' = io_calls tr'
    /\ tr'' = tr'
    /\ font'' = font'.
Proof.
  intros Inv Run.
  destruct (font_cache_get_spec os font tr c Inv)
    as (r & f & t & Run' & _ & Found & _).
  rewrite Run in Run'. injection Run' as <- <- <-.
  destruct (Found b eq_refl) as (e & F & <-).
  exists font', tr'. unfold _font_cache_get. rewrite F. auto.
Qed.

Lemma second_get_served_from_cache_witness :
  cache_inv (new_font 8)
  /\ exists b font' tr',
       _font_cache_get (file_os zero_file) (new_font 8) [] 0xA1A1
         = Done (Some b, font', tr')
       /\ io_calls tr' = 3%nat
       /\ exists font'' tr'',
            _font_cache_get no_file_os font' tr' 0xA1A1 = Done (Some b, font'', tr'')
            /\ io_calls tr'' = io_calls tr'
            /\ tr'' = tr'
            /\ font'' = font'.
Proof.
  split; [apply cache_inv_new|].
  do 3 eexists. split; [vm_compute; reflexivity|]. split; [reflexivity|].
  apply (second_get_served_from_cache (file_os zero_file) no_file_os
           (new_font 8) [] 0xA1A1).
  - apply cache_inv_new.
  - vm_compute. reflexivity.
Defined.

(** ** Loads that fail *)

Lemma read_at_most (os : os_model) (tr : trace) (fd count : Z) :
  0 <= count -> fst (read os tr fd count) <= count.
Proof.
  intros Hc. unfold read. destruct (os_read os tr fd count) as [data|]; cbn.
  - rewrite length_firstn. lia.
  - lia.
Qed.

Lemma obind_not_none {A} (m : outcome A) (b : list Z) (f : A -> rtgui_hz_file_font)
    (g : A -> trace) (font' : rtgui_hz_file_font) (tr' : trace) :
  (x <- m ;; Done (Some b, f x, g x)) <> Done (None, font', tr').
Proof. destruct m; cbn; congruence. Qed.

(** C4: a lookup returns none exactly when it misses the cache and the
    entry allocation fails, or the font file cannot be opened, or the
    seek fails, or the read returns fewer than [font_data_size] bytes;
    and then the cache tree and [cache_size] are as before, with no
    entry for the code. *)
Theorem get_none_iff_load_fails
    (os : os_model) (font : rtgui_hz_file_font) (tr : trace) (code : Z) :
  0 <= font_data_size font ->
  ((exists font' tr', _font_cache_get os font tr code = Done (None, font', tr'))
   <-> cache_miss font code
       /\ (alloc_fails os font tr \/ open_fails os font tr
           \/ seek_fails os font tr code \/ short_read os font tr code))
  /\ (forall font' tr',
         _font_cache_get os font tr code = Done (None, font', tr') ->
         cache_root font' = cache_root font
         /\ cache_size font' = cache_size font
         /\ SPLAY_FIND (cache_root font') (mk_hz_cache code []) = None).
Proof.
  intros HR.
  pose proof (read_at_most os
                (ev_lseek (fd_used os font tr) (glyph_seek font code)
                   :: tr_open font tr)
                (fd_used os font tr) (font_data_size font) HR) as Hrd.
  unfold _font_cache_get, cache_miss, alloc_fails, open_fails, seek_fails,
    short_read, fd_used, tr_open, tr_alloc in *.
  destruct (SPLAY_FIND (cache_root font) (mk_hz_cache code [])) as [e|] eqn:F.
  { split; [split|].
    - intros (f & t & [=]).
    - intros [[=] _].
    - intros f t [=]. }
  destruct (os_malloc os tr (font_data_size font)) eqn:Al; cbn [negb].
  2:{ split; [split|]; eauto.
      intros f t [= <- <-]. auto. }
  destruct (fd font <? 0) eqn:Closed; unfold set_fd;
    cbn [fst snd fd font_data_size font_fn cache_root cache_size].
  - destruct (os_open os _ (font_fn font) <? 0) eqn:Op.
    { split; [split|]; eauto.
      - intros _. split; [reflexivity|]. right; left. lia.
      - intros f t [= <- <-]. auto. }
    destruct (os_lseek os _ _ _ <? 0) eqn:Sk.
    { split; [split|]; eauto.
      - intros _. split; [reflexivity|]. right; right; left. lia.
      - intros f t [= <- <-]. auto. }
    match goal with |- context [negb (?x =? ?y)] =>
      destruct (x =? y) eqn:Rd; cbn [negb] end.
    + split; [split|].
      * intros (f & t & H). now apply obind_not_none in H.
      * intros [_ [? | [? | [? | ?]]]]; try congruence; lia.
      * intros f t H. now apply obind_not_none in H.
    + split; [split|]; eauto.
      * intros _. split; [reflexivity|]. right; right; right. lia.
      * intros f t [= <- <-]. auto.
  - rewrite Closed.
    destruct (os_lseek os _ _ _ <? 0) eqn:Sk.
    { split; [split|]; eauto.
      - intros _. split; [reflexivity|]. right; right; left. lia.
      - intros f t [= <- <-]. auto. }
    match goal with |- context [negb (?x =? ?y)] =>
      destruct (x =? y) eqn:Rd; cbn [negb] end.
    + split; [split|].
      * intros (f & t & H). now apply obind_not_none in H.
      * intros [_ [? | [? | [? | ?]]]]; try congruence; lia.
      * intros f t H. now apply obind_not_none in H.
    + split; [split|]; eauto.
      * intros _. split; [reflexivity|]. right; right; right. lia.
      * intros f t [= <- <-]. auto.
Qed.

Lemma get_none_iff_load_fails_witness :
  0 <= font_data_size (new_font 8)
  /\ cache_miss (new_font 8) 0xA1A1
  /\ open_fails no_file_os (new_font 8) []
  /\ exists font' tr',
       _font_cache_get no_file_os (new_font 8) [] 0xA1A1 = Done (None, font', tr')
       /\ cache_root font' = cache_root (new_font 8)
       /\ cache_size font' = cache_size (new_font 8)
       /\ SPLAY_FIND (cache_root font') (mk_hz_cache 0xA1A1 []) = None.
Proof.
  assert (R : 0 <= font_data_size (new_font 8)) by (vm_compute; discriminate).
  assert (M : cache_miss (new_font 8) 0xA1A1) by reflexivity.
  assert (O : open_fails no_file_os (new_font 8) []) by reflexivity.
  destruct (get_none_iff_load_fails no_file_os (new_font 8) [] 0xA1A1 R)
    as [[_ Back] Same].
  destruct (Back (conj M (or_intror (or_introl O)))) as (font' & tr' & Run).
  split; [exact R|]. split; [exact M|]. split; [exact O|].
  exists font', tr'. split; [exact Run|]. exact (Same font' tr' Run).
Defined.

(** ** The addressing formula *)

Lemma glyph_index_formula (code : Z) :
  glyph_index code = 94 * (Z.land code 0xFF - 0xA1) + (Z.shiftr code 8 - 0xA1).
Proof. unfold glyph_index. lia. Qed.

(** C2, as the code has it: the index is
    [94 * ((code & 0xFF) - 0xA1) + ((code >> 8) - 0xA1)] and the offset is
    the index times [font_data_size]; code 0xA1A1 gives index 0 and
    offset 0; code 0xA2A1 gives index 1 and offset [R]; index 94 and
    offset [94 * R] belong to code 0xA1A2, which is what the rasterizer
    builds from the byte pair A2 A1. *)
Theorem glyph_offsets (font : rtgui_hz_file_font) :
  0 <= font_data_size font < 2 ^ 16 ->
  (forall code,
      glyph_index code
      = 94 * (Z.land code 0xFF - 0xA1) + (Z.shiftr code 8 - 0xA1))
  /\ glyph_index 0xA1A1 = 0 /\ glyph_seek font 0xA1A1 = 0
  /\ glyph_index 0xA2A1 = 1 /\ glyph_seek font 0xA2A1 = font_data_size font
  /\ glyph_index 0xA1A2 = 94 /\ glyph_seek font 0xA1A2 = 94 * font_data_size font
  /\ to_uint16 (Z.lor 0xA2 (Z.shiftl 0xA1 8)) = 0xA1A2.
Proof.
  intros HR. split; [apply glyph_index_formula|].
  unfold glyph_seek.
  change (glyph_index 0xA1A1) with 0. change (glyph_index 0xA2A1) with 1.
  change (glyph_index 0xA1A2) with 94.
  change (to_uint32 0) with 0. change (to_uint32 1) with 1.
  change (to_uint32 94) with 94.
  unfold to_uint32.
  repeat split; try reflexivity; rewrite Z.mod_small; lia.
Qed.

Lemma glyph_offsets_witness :
  0 <= font_data_size (new_font 16) < 2 ^ 16
  /\ glyph_seek (new_font 16) 0xA2A1 = 32
  /\ glyph_seek (new_font 16) 0xA1A2 = 3008.
Proof.
  assert (R : 0 <= font_data_size (new_font 16) < 2 ^ 16)
    by (cbn; lia).
  destruct (glyph_offsets (new_font 16) R) as (_ & _ & _ & _ & A & _ & B & _).
  split; [exact R|]. split; [exact A | exact B].
Defined.

(** C2 as stated fails: code 0xA2A1 has index 1, not 94, and for a
    16-pixel font its offset is 32, not [94 * 32]. *)
Lemma glyph_offsets_counterexample :
  ~ (glyph_index 0xA2A1 = 94
     /\ glyph_seek (new_font 16) 0xA2A1 = 94 * font_data_size (new_font 16)).
Proof. vm_compute. intros [H _]. discriminate H. Qed.

(** ** Reading memory *)

Lemma read_byte_at (p : list Z) (b : Z) (tl : list Z) (i : Z) :
  i = Z.of_nat (List.length p) -> read_byte (p ++ b :: tl) i = Done b.
Proof.
  intros ->. unfold read_byte.
  rewrite (proj2 (Z.ltb_ge _ _)) by lia.
  rewrite Nat2Z.id, nth_error_app2 by lia.
  now rewrite Nat.sub_diag.
Qed.

Lemma sub_bytes_at (mem p run tl : list Z) (str len : Z) :
  mem = p ++ run ++ tl ->
  str = Z.of_nat (List.length p) -> len = Z.of_nat (List.length run) ->
  sub_bytes mem str len = run.
Proof.
  intros -> -> ->. unfold sub_bytes. rewrite !Nat2Z.id.
  rewrite skipn_app, skipn_all, Nat.sub_diag. cbn.
  rewrite firstn_app, firstn_all, Nat.sub_diag. cbn. apply app_nil_r.
Qed.

Lemma strlen_terminated (s rest : list Z) :
  Forall nonzero_byte s ->
  strlen (s ++ 0 :: rest) = Done (Z.of_nat (List.length s)).
Proof.
  induction 1 as [|b s Hb Hs IH]; [reflexivity|].
  cbn [app strlen]. unfold nonzero_byte in Hb.
  replace (b =? 0) with false by lia.
  rewrite IH. cbn. f_equal. lia.
Qed.

Lemma to_uint32_small (z : Z) : 0 <= z < 2 ^ 32 -> to_uint32 z = z.
Proof. intros H. unfold to_uint32. now apply Z.mod_small. Qed.

(** ** The two scans *)

Section Scans.

Variable mem : list Z.

Lemma scan_ascii_run (run : list Z) :
  forall (p : list Z) (stop : Z) (tl : list Z) (fuel : nat) (str str_len len : Z),
    mem = p ++ run ++ stop :: tl ->
    Z.of_nat (List.length p) = str + len ->
    Forall (fun b => b < 0x80 /\ b <> 0) run ->
    (stop >= 0x80 \/ stop = 0) ->
    0 <= len ->
    len + Z.of_nat (List.length run) <= str_len < 2 ^ 32 ->
    (List.length run <= fuel)%nat ->
    scan_ascii mem fuel str str_len len = Done (len + Z.of_nat (List.length run)).
Proof.
  induction run as [|b run IH]; intros p stop tl fuel str str_len len M P A St L B Fu.
  - cbn [app] in M. subst mem.
    destruct fuel; cbn [scan_ascii]; rewrite (read_byte_at p stop tl) by lia; cbn;
      replace ((stop <? 128) && negb (stop =? 0)) with false
        by (destruct St; [replace (stop <? 128) with false by lia
                         | replace (stop =? 0) with true by lia;
                           rewrite andb_false_r]; reflexivity);
      cbn; f_equal; lia.
  - inversion A as [|? ? [Hb1 Hb2] A']; subst.
    cbn [List.length] in *.
    destruct fuel as [|fuel]; [lia|].
    cbn [scan_ascii]. cbn [app].
    rewrite (read_byte_at p b (run ++ stop :: tl)) by lia. cbn [obind].
    replace (b <? 128) with true by lia.
    replace (b =? 0) with false by lia.
    replace (len <? str_len) with true by lia. cbn [andb negb].
    rewrite to_uint32_small by lia.
    rewrite (IH (p ++ [b]) stop tl); auto; try lia.
    + f_equal. lia.
    + now rewrite <- app_assoc.
    + rewrite length_app. cbn. lia.
Qed.

Lemma scan_hz_run (run : list Z) :
  forall (p : list Z) (stop : Z) (tl : list Z) (fuel : nat) (str str_len len : Z),
    mem = p ++ run ++ stop :: tl ->
    Z.of_nat (List.length p) = str + len ->
    Forall (fun b => b >= 0x80) run ->
    stop < 0x80 ->
    0 <= len ->
    len + Z.of_nat (List.length run) <= str_len < 2 ^ 32 ->
    (List.length run <= fuel)%nat ->
    scan_hz mem fuel str str_len len = Done (len + Z.of_nat (List.length run)).
Proof.
  induction run as [|b run IH]; intros p stop tl fuel str str_len len M P A St L B Fu.
  - cbn [app] in M. subst mem.
    destruct fuel; cbn [scan_hz]; rewrite (read_byte_at p stop tl) by lia; cbn;
      replace (stop >=? 128) with false by lia; cbn; f_equal; lia.
  - inversion A as [|? ? Hb A']; subst.
    cbn [List.length] in *.
    destruct fuel as [|fuel]; [lia|].
    cbn [scan_hz]. cbn [app].
    rewrite (read_byte_at p b (run ++ stop :: tl)) by lia. cbn [obind].
    replace (b >=? 128) with true by lia.
    replace (len <? str_len) with true by lia. cbn [andb].
    rewrite to_uint32_small by lia.
    rewrite (IH (p ++ [b]) stop tl); auto; try lia.
    + f_equal. lia.
    + now rewrite <- app_assoc.
    + rewrite length_app. cbn. lia.
Qed.

End Scans.

(** ** Grouping into runs *)

Lemma run_kind_eqb_eq (a b : run_kind) : run_kind_eqb a b = true <-> a = b.
Proof. destruct a, b; cbn; split; congruence. Qed.

Lemma run_kind_eqb_neq (a b : run_kind) : run_kind_eqb a b = false <-> a <> b.
Proof. destruct a, b; cbn; split; congruence. Qed.

Lemma group_runs_head (b : Z) (s : list Z) :
  exists r rs, group_runs (b :: s) = (byte_kind b, b :: r) :: rs.
Proof.
  cbn. destruct (group_runs s) as [|[k r] rs]; [eauto|].
  destruct (run_kind_eqb (byte_kind b) k) eqn:E; [|eauto].
  apply run_kind_eqb_eq in E. subst k. eauto.
Qed.

Lemma group_runs_prefix (k : run_kind) (run s : list Z) :
  Forall (fun b => byte_kind b = k) run ->
  (forall b, hd_error s = Some b -> byte_kind b <> k) ->
  group_runs (run ++ s) = emit_run k run ++ group_runs s.
Proof.
  intros A Stop. induction A as [|b run Hb A IH]; [reflexivity|].
  cbn [app group_runs]. rewrite IH. subst k.
  destruct run as [|c run].
  - cbn [emit_run app].
    destruct s as [|d s]; [reflexivity|].
    destruct (group_runs_head d s) as (r & rs & ->).
    specialize (Stop d eq_refl).
    apply not_eq_sym, run_kind_eqb_neq in Stop. now rewrite Stop.
  - cbn [emit_run app]. now destruct (byte_kind b).
Qed.

Lemma group_runs_concat (s : list Z) :
  List.concat (map snd (group_runs s)) = s.
Proof.
  induction s as [|b s IH]; [reflexivity|]. cbn [group_runs].
  destruct (group_runs s) as [|[k r] rs].
  - cbn in *. now rewrite <- IH.
  - destruct (run_kind_eqb (byte_kind b) k); cbn in *; now rewrite <- IH.
Qed.

Lemma group_runs_ok (s : list Z) : forallb run_ok (group_runs s) = true.
Proof.
  induction s as [|b s IH]; [reflexivity|]. cbn [group_runs].
  destruct (group_runs s) as [|[k r] rs].
  - cbn. now destruct (byte_kind b).
  - cbn [forallb] in IH. apply andb_true_iff in IH. destruct IH as [Hr Hrs].
    destruct (run_kind_eqb (byte_kind b) k) eqn:E; cbn [forallb].
    + rewrite Hrs, andb_true_r. unfold run_ok in *. cbn [fst snd] in *.
      apply andb_true_iff in Hr. destruct Hr as [_ Hr].
      cbn [List.length Nat.eqb negb forallb]. now rewrite E, Hr.
    + rewrite Hr, Hrs. cbn. now destruct (byte_kind b).
Qed.

Lemma group_runs_alternating (s : list Z) : alternating (group_runs s) = true.
Proof.
  induction s as [|b s IH]; [reflexivity|]. cbn [group_runs].
  destruct (group_runs s) as [|[k r] rs]; [reflexivity|].
  destruct (run_kind_eqb (byte_kind b) k) eqn:E.
  - exact IH.
  - change (negb (run_kind_eqb (byte_kind b) k) && alternating ((k, r) :: rs)
            = true).
    now rewrite E, IH.
Qed.

Lemma last_some_cons (b : Z) (r : list Z) (prev : option Z) :
  exists c, last (map Some (b :: r)) prev = Some c /\ In c (b :: r).
Proof.
  revert b. induction r as [|d r IH]; intros b.
  - exists b. cbn. auto.
  - destruct (IH d) as (c & L & I). exists c. split; [|now right].
    cbn [map last] in *. exact L.
Qed.

(** Non-empty runs of one kind each that alternate are maximal. *)
Lemma alternating_maximal (rs : list (run_kind * list Z)) :
  forall prev,
    forallb run_ok rs = true -> alternating rs = true ->
    (forall r, hd_error rs = Some r -> other_kind (fst r) prev = true) ->
    maximal_from prev rs = true.
Proof.
  induction rs as [|[k r] rs IH]; intros prev Ok Alt Prev; [reflexivity|].
  cbn [forallb] in Ok. apply andb_true_iff in Ok. destruct Ok as [Hr Ok].
  unfold run_ok in Hr. cbn [fst snd] in Hr.
  apply andb_true_iff in Hr. destruct Hr as [Hne Hk].
  destruct r as [|b r]; [discriminate|].
  pose proof (Prev _ eq_refl) as P0. cbn [fst] in P0.
  cbn [maximal_from fst snd]. rewrite P0. cbn [andb].
  destruct (last_some_cons b r prev) as (c & L & I). rewrite L.
  rewrite forallb_forall in Hk. specialize (Hk c I).
  apply run_kind_eqb_eq in Hk.
  destruct rs as [|[k2 r2] rs2]; [reflexivity|].
  change (negb (run_kind_eqb k k2) && alternating ((k2, r2) :: rs2) = true)
    in Alt.
  apply andb_true_iff in Alt.
  destruct Alt as [Hkk Alt]. apply negb_true_iff in Hkk.
  assert (Ok2 := Ok). cbn [forallb] in Ok2. apply andb_true_iff in Ok2.
  destruct Ok2 as [Hr2 _]. unfold run_ok in Hr2. cbn [fst snd] in Hr2.
  apply andb_true_iff in Hr2. destruct Hr2 as [Hne2 Hk2].
  destruct r2 as [|b2 r2]; [discriminate|].
  cbn [forallb] in Hk2. apply andb_true_iff in Hk2. destruct Hk2 as [Hb2 _].
  apply run_kind_eqb_eq in Hb2.
  rewrite IH; auto.
  - cbn [map snd List.concat app hd_error other_kind].
    rewrite Hb2. destruct k, k2; cbn in *; congruence.
  - intros r0 [= <-]. cbn [fst other_kind]. rewrite Hk.
    destruct k, k2; cbn in *; congruence.
Qed.

Lemma split_prefix (p : Z -> bool) (s : list Z) :
  exists a s1,
    s = a ++ s1
    /\ Forall (fun b => p b = true) a
    /\ (forall b, hd_error s1 = Some b -> p b = false).
Proof.
  induction s as [|b s (a & s1 & E & A & Stop)].
  - exists [], []. repeat split; [constructor | discriminate].
  - destruct (p b) eqn:Pb.
    + exists (b :: a), s1. subst s. repeat split; auto.
    + exists [], (b :: s). repeat split; [constructor|].
      intros c [= <-]. exact Pb.
Qed.

(** ** The loop of [rtgui_hz_file_font_draw_text] computes the grouping *)

Lemma stop_byte (P : Z -> Prop) (s1 rest : list Z) :
  (forall b, hd_error s1 = Some b -> P b) -> P 0 ->
  exists stop tl, s1 ++ 0 :: rest = stop :: tl /\ P stop.
Proof.
  intros H H0. destruct s1 as [|c s1]; cbn; eauto.
Qed.

Lemma emit_run_acc (k : run_kind) (run : list Z) (acc : list (run_kind * list Z)) :
  (if Z.of_nat (List.length run) >? 0
   then Done (acc ++ [(k, run)]) else Done acc)
  = Done (acc ++ emit_run k run).
Proof.
  destruct run; cbn [List.length emit_run].
  - cbn. now rewrite app_nil_r.
  - now rewrite (proj2 (Z.gtb_gt _ _)) by lia.
Qed.

Lemma draw_text_loop_groups (mem rest : list Z) :
  forall (fuel : nat) (s pre : list Z) (acc : list (run_kind * list Z)),
    mem = pre ++ s ++ 0 :: rest ->
    Forall nonzero_byte s ->
    (List.length s < fuel)%nat ->
    Z.of_nat (List.length s) < 2 ^ 32 ->
    draw_text_loop (list (run_kind * list Z))
      (fun p n acc => Done (acc ++ [(ASCII, sub_bytes mem p n)]))
      (fun p n acc => Done (acc ++ [(DOUBLE, sub_bytes mem p n)]))
      mem fuel (Z.of_nat (List.length pre)) (Z.of_nat (List.length s)) acc
    = Done (acc ++ group_runs s).
Proof.
  induction fuel as [|fuel IH]; intros s pre acc M NZ Fu Len; [lia|].
  cbn [draw_text_loop].
  destruct s as [|b0 s0].
  { cbn. now rewrite app_nil_r. }
  rewrite (proj2 (Z.gtb_gt _ _)) by (cbn [List.length]; lia).
  remember (b0 :: s0) as s eqn:Es.
  destruct (split_prefix (fun b => b <? 0x80) s) as (a & s1 & E1 & A & Stop1).
  destruct (split_prefix (fun b => b >=? 0x80) s1) as (h & s2 & E2 & H & Stop2).
  assert (NZa : Forall nonzero_byte a /\ Forall nonzero_byte s1).
  { rewrite E1 in NZ. now apply Forall_app in NZ. }
  destruct NZa as [NZa NZ1].
  assert (NZh : Forall nonzero_byte h /\ Forall nonzero_byte s2).
  { rewrite E2 in NZ1. now apply Forall_app in NZ1. }
  destruct NZh as [NZh NZ2].
  assert (La : Z.of_nat (List.length s)
               = Z.of_nat (List.length a) + Z.of_nat (List.length s1)).
  { rewrite E1, length_app. lia. }
  assert (Lh : Z.of_nat (List.length s1)
               = Z.of_nat (List.length h) + Z.of_nat (List.length s2)).
  { rewrite E2, length_app. lia. }
  (* the ASCII scan *)
  destruct (stop_byte (fun c => c >= 0x80 \/ c = 0) s1 rest)
    as (stop1 & tl1 & T1 & St1).
  { intros c Hc. left. specialize (Stop1 c Hc). cbn beta in Stop1. lia. }
  { now right. }
  rewrite (scan_ascii_run mem a pre stop1 tl1); try lia.
  2:{ rewrite M, E1, <- app_assoc, <- T1. reflexivity. }
  2:{ rewrite Forall_forall in *. intros c Hc.
      specialize (A c Hc). specialize (NZa c Hc). unfold nonzero_byte in NZa.
      cbn beta in A. lia. }
  cbn [obind]. rewrite Z.add_0_l.
  rewrite (sub_bytes_at mem pre a (s1 ++ 0 :: rest)); try reflexivity.
  2:{ rewrite M, E1, <- app_assoc. reflexivity. }
  rewrite emit_run_acc. cbn [obind].
  replace (if Z.of_nat (List.length a) >? 0
           then Z.of_nat (List.length pre) + Z.of_nat (List.length a)
           else Z.of_nat (List.length pre))
    with (Z.of_nat (List.length (pre ++ a)))
    by (rewrite length_app; destruct (Z.gtb_spec (Z.of_nat (List.length a)) 0); lia).
  replace (if Z.of_nat (List.length a) >? 0
           then to_uint32 (Z.of_nat (List.length s) - Z.of_nat (List.length a))
           else Z.of_nat (List.length s))
    with (Z.of_nat (List.length s1))
    by (destruct (Z.gtb_spec (Z.of_nat (List.length a)) 0);
        [rewrite to_uint32_small by lia|]; lia).
  (* the double-byte scan *)
  destruct (stop_byte (fun c => c < 0x80) s2 rest) as (stop2 & tl2 & T2 & St2).
  { intros c Hc. specialize (Stop2 c Hc). cbn beta in Stop2. lia. }
  { lia. }
  rewrite (scan_hz_run mem h (pre ++ a) stop2 tl2); try lia.
  2:{ rewrite M, E1, E2, <- !app_assoc, <- T2. reflexivity. }
  2:{ rewrite Forall_forall in *. intros c Hc.
      specialize (H c Hc). cbn beta in H. lia. }
  cbn [obind]. rewrite Z.add_0_l.
  rewrite (sub_bytes_at mem (pre ++ a) h (s2 ++ 0 :: rest)); try reflexivity.
  2:{ rewrite M, E1, E2, <- !app_assoc. reflexivity. }
  rewrite emit_run_acc. cbn [obind].
  replace (if Z.of_nat (List.length h) >? 0
           then Z.of_nat (List.length (pre ++ a)) + Z.of_nat (List.length h)
           else Z.of_nat (List.length (pre ++ a)))
    with (Z.of_nat (List.length ((pre ++ a) ++ h)))
    by (rewrite (length_app (pre ++ a) h);
        destruct (Z.gtb_spec (Z.of_nat (List.length h)) 0); lia).
  replace (if Z.of_nat (List.length h) >? 0
           then to_uint32 (Z.of_nat (List.length s1) - Z.of_nat (List.length h))
           else Z.of_nat (List.length s1))
    with (Z.of_nat (List.length s2))
    by (destruct (Z.gtb_spec (Z.of_nat (List.length h)) 0);
        [rewrite to_uint32_small by lia|]; lia).
  (* at least one byte was consumed *)
  assert (Progress : (List.length s2 < List.length s)%nat).
  { destruct a as [|a0 a']; [|cbn [List.length] in La; lia].
    cbn [app] in E1. subst s1.
    destruct h as [|h0 h']; [|cbn [List.length] in Lh; lia].
    cbn [app] in E2. subst s2. rewrite Es in Stop1, Stop2.
    specialize (Stop1 b0 eq_refl). specialize (Stop2 b0 eq_refl).
    cbn beta in *. lia. }
  rewrite (IH s2 ((pre ++ a) ++ h)); try lia; try assumption.
  2:{ rewrite M, E1, E2, <- !app_assoc. reflexivity. }
  (* the runs handed over are the grouping *)
  f_equal. rewrite <- !app_assoc. f_equal.
  rewrite E1, E2.
  rewrite (group_runs_prefix ASCII a (h ++ s2)).
  - f_equal. symmetry. apply (group_runs_prefix DOUBLE h s2).
    + rewrite Forall_forall in *. intros c Hc. specialize (H c Hc).
      cbn beta in H. unfold byte_kind. now replace (c <? 128) with false by lia.
    + intros c Hc. specialize (Stop2 c Hc). cbn beta in Stop2.
      unfold byte_kind. replace (c <? 128) with true by lia. discriminate.
  - rewrite Forall_forall in *. intros c Hc. specialize (A c Hc).
    cbn beta in A. unfold byte_kind. now rewrite A.
  - intros c Hc. unfold byte_kind.
    assert (Hd : hd_error s1 = Some c) by (now rewrite E2).
    specialize (Stop1 c Hd). cbn beta in Stop1. rewrite Stop1. discriminate.
Qed.

(** C5: for a NUL-free byte string [s] left in a terminated buffer,
    the loop of [rtgui_hz_file_font_draw_text] runs to completion and
    hands over runs that are not empty, hold bytes of one kind each
    (below 0x80 for the ASCII font, 0x80 and above for the rasterizer),
    alternate in kind, are maximal, and concatenate to [s]. *)
Theorem text_runs_segmentation (s rest : list Z) :
  Forall nonzero_byte s ->
  Z.of_nat (List.length s) < 2 ^ 32 ->
  exists runs,
    text_runs (s ++ 0 :: rest) = Done runs
    /\ List.concat (map snd runs) = s
    /\ forallb run_ok runs = true
    /\ alternating runs = true
    /\ maximal_from None runs = true
    /\ runs = group_runs s.
Proof.
  intros NZ Len. exists (group_runs s).
  assert (Run : text_runs (s ++ 0 :: rest) = Done (group_runs s)).
  { unfold text_runs. rewrite (strlen_terminated s rest NZ). cbn [obind].
    rewrite to_uint32_small by lia.
    apply (draw_text_loop_groups (s ++ 0 :: rest) rest _ s [] []); auto.
    rewrite length_app. cbn [List.length]. lia. }
  split; [exact Run|].
  split; [apply group_runs_concat|].
  split; [apply group_runs_ok|].
  split; [apply group_runs_alternating|].
  split; [|reflexivity].
  apply alternating_maximal;
    auto using group_runs_ok, group_runs_alternating.
Qed.

Lemma text_runs_segmentation_witness :
  Forall nonzero_byte [0x41; 0xB0; 0xA1; 0x42]
  /\ text_runs [0x41; 0xB0; 0xA1; 0x42; 0]
     = Done [(ASCII, [0x41]); (DOUBLE, [0xB0; 0xA1]); (ASCII, [0x42])].
Proof.
  assert (NZ : Forall nonzero_byte [0x41; 0xB0; 0xA1; 0x42])
    by (repeat constructor).
  split; [exact NZ|].
  destruct (text_runs_segmentation [0x41; 0xB0; 0xA1; 0x42] [] NZ)
    as (runs & Run & _ & _ & _ & _ & ->); [reflexivity|].
  exact Run.
Defined.

(** ** The rasterizer *)

Lemma for_range_In (n i : Z) : In i (for_range n) <-> 0 <= i < n.
Proof.
  unfold for_range. rewrite in_map_iff. split.
  - intros (m & <- & Hm). apply in_seq in Hm. lia.
  - intros H. exists (Z.to_nat i). split; [lia|]. apply in_seq. lia.
Qed.

Lemma for_each_done (idx : list Z) (body : Z -> outcome (list dc_op))
    (f : Z -> list dc_op) :
  (forall i, In i idx -> body i = Done (f i)) ->
  for_each idx body = Done (flat_map f idx).
Proof.
  induction idx as [|i idx IH]; intros H; [reflexivity|].
  cbn [for_each flat_map]. rewrite (H i) by now left. cbn [obind].
  rewrite IH by (intros; apply H; now right). reflexivity.
Qed.

Lemma read_byte_nth (mem : list Z) (p : Z) :
  0 <= p < Z.of_nat (List.length mem) ->
  read_byte mem p = Done (nth (Z.to_nat p) mem 0).
Proof.
  intros H. unfold read_byte. rewrite (proj2 (Z.ltb_ge _ _)) by lia.
  destruct (nth_error mem (Z.to_nat p)) as [b|] eqn:E.
  - now rewrite (nth_error_nth _ _ _ E).
  - apply nth_error_None in E. lia.
Qed.

Lemma bit_test (b k : Z) :
  0 <= k < 8 ->
  negb (Z.land (Z.shiftr b (7 - k)) 0x01 =? 0) = Z.testbit b (7 - k).
Proof.
  intros Hk. change 1 with (Z.ones 1). rewrite Z.land_ones by lia.
  change (2 ^ 1) with 2.
  rewrite <- Z.bit0_mod, Z.shiftr_spec, Z.add_0_l by lia.
  destruct (Z.testbit b (7 - k)); reflexivity.
Qed.

Section Rasterizer.

Variable flag : Z.
Variable gc : rtgui_gc.
Variable font_ptr : list Z.
Variable rect : rtgui_rect.
Variables h word_bytes : Z.

Hypothesis bitmap_holds_rows : h * word_bytes <= Z.of_nat (List.length font_ptr).

Lemma draw_word_pixels :
  draw_word flag gc font_ptr rect h word_bytes
  = Done (glyph_pixels flag gc font_ptr rect h word_bytes).
Proof.
  unfold draw_word, glyph_pixels.
  apply for_each_done. intros i Hi. apply for_range_In in Hi.
  apply for_each_done. intros j Hj. apply for_range_In in Hj.
  apply for_each_done. intros k Hk.
  rewrite read_byte_nth by nia. reflexivity.
Qed.

Lemma in_pixels (o : dc_op) :
  In o (glyph_pixels flag gc font_ptr rect h word_bytes)
  <-> exists i j k,
        visited h word_bytes i j k
        /\ In o (glyph_pixel flag gc font_ptr rect word_bytes i j k).
Proof.
  unfold visited, glyph_pixels. split.
  - intros H. apply in_flat_map in H. destruct H as (i & Hi & H).
    apply in_flat_map in H. destruct H as (j & Hj & H).
    apply in_flat_map in H. destruct H as (k & Hk & H).
    apply for_range_In in Hi, Hj, Hk. exists i, j, k. auto.
  - intros (i & j & k & (Hi & Hj & Hk) & H).
    apply in_flat_map. exists i. split; [now apply for_range_In|].
    apply in_flat_map. exists j. split; [now apply for_range_In|].
    apply in_flat_map. exists k. split; [now apply for_range_In|]. exact H.
Qed.

Lemma pixel_cases (i j k : Z) :
  0 <= k < 8 ->
  glyph_pixel flag gc font_ptr rect word_bytes i j k =
  if glyph_bit font_ptr word_bytes i j k && (x1 rect + 8 * j + k <? x2 rect)
  then [dc_draw_point (x1 rect + 8 * j + k) (y1 rect + i)]
  else if draws_background flag gc
  then [dc_draw_color_point (x1 rect + 8 * j + k) (y1 rect + i) (background gc)]
  else [].
Proof.
  intros Hk. unfold glyph_pixel, draw_bit, glyph_bit, draws_background.
  now rewrite bit_test.
Qed.



End Rasterizer.

Lemma drawing_height_min (font : rtgui_hz_file_font) (rect : rtgui_rect) :
  drawing_height font rect = Z.min (font_size font) (y2 rect - y1 rect).
Proof.
  unfold drawing_height.
  destruct (Z.gtb_spec (font_size font + y1 rect) (y2 rect)); lia.
Qed.

Lemma row_bytes_ceil (font : rtgui_hz_file_font) :
  0 <= font_size font ->
  row_bytes font = (font_size font + 7) / 8
  /\ 8 * (row_bytes font - 1) < font_size font <= 8 * row_bytes font.
Proof.
  intros H. unfold row_bytes. rewrite Z.quot_div_nonneg by lia.
  split; [reflexivity|].
  pose proof (Z.div_mod (font_size font + 7) 8 ltac:(lia)).
  pose proof (Z.mod_pos_bound (font_size font + 7) 8 ltac:(lia)). lia.
Qed.

Lemma bitmap_rows_fit (font : rtgui_hz_file_font) (rect : rtgui_rect)
    (font_ptr : list Z) :
  0 <= font_size font ->
  Z.of_nat (List.length font_ptr) = font_size font * row_bytes font ->
  drawing_height font rect * row_bytes font <= Z.of_nat (List.length font_ptr).
Proof.
  intros HS HL. rewrite HL, drawing_height_min.
  destruct (row_bytes_ceil font HS) as [_ B]. nia.
Qed.




(** ** Bitmaps in the cache have the record size *)

Lemma all_entries_insert (p : hz_cache -> bool) (t : cache_tree) (e : hz_cache) :
  all_entries p t = true -> p e = true ->
  all_entries p (SPLAY_INSERT t e) = true.
Proof.
  induction t as [|l IHl n r IHr]; cbn; intros Ha He.
  - now rewrite He.
  - rewrite !andb_true_iff in Ha. destruct Ha as [[Hn Hl] Hr].
    cmp e n; cbn; rewrite ?andb_true_iff; auto.
Qed.

Lemma all_entries_join (p : hz_cache -> bool) (l r : cache_tree) :
  all_entries p l = true -> all_entries p r = true ->
  all_entries p (splay_join l r) = true.
Proof.
  induction l as [|a IHa n b IHb]; cbn; auto.
  rewrite !andb_true_iff. intros [[Hn Ha] Hb] Hr. auto.
Qed.

Lemma all_entries_remove (p : hz_cache -> bool) (t : cache_tree) (e : hz_cache) :
  all_entries p t = true -> all_entries p (SPLAY_REMOVE t e) = true.
Proof.
  induction t as [|l IHl n r IHr]; cbn; auto.
  rewrite !andb_true_iff. intros [[Hn Hl] Hr].
  cmp e n; cbn; rewrite ?andb_true_iff; auto using all_entries_join.
Qed.

Lemma all_entries_find (p : hz_cache -> bool) (t : cache_tree) (x e : hz_cache) :
  all_entries p t = true -> SPLAY_FIND t x = Some e -> p e = true.
Proof.
  induction t as [|l IHl n r IHr]; cbn; [discriminate|].
  rewrite !andb_true_iff. intros [[Hn Hl] Hr].
  cmp x n; intros F; auto.
  now injection F as <-.
Qed.

Lemma read_full_length (os : os_model) (tr : trace) (fd count : Z) :
  0 <= count -> fst (read os tr fd count) = count ->
  Z.of_nat (List.length (snd (read os tr fd count))) = count.
Proof.
  unfold read. destruct (os_read os tr fd count); cbn; lia.
Qed.

Lemma cache_insert_entries (p : hz_cache -> bool) (font : rtgui_hz_file_font)
    (tr : trace) (cache : hz_cache) (font' : rtgui_hz_file_font) (tr' : trace) :
  cache_insert font tr cache = Done (font', tr') ->
  all_entries p (cache_root font) = true -> p cache = true ->
  all_entries p (cache_root font') = true
  /\ font_size font' = font_size font
  /\ font_data_size font' = font_data_size font.
Proof.
  unfold cache_insert. intros Run Ha Hc.
  destruct (cache_size font >=? HZ_CACHE_MAX).
  - destruct (leftmost (cache_root font)) as [lft|]; [|discriminate].
    cbn in Run. injection Run as <- <-. cbn.
    auto using all_entries_insert, all_entries_remove.
  - cbn in Run. injection Run as <- <-. cbn.
    auto using all_entries_insert.
Qed.

(** A lookup keeps a well-formed descriptor well-formed, leaves the font
    sizes alone and returns bitmaps of the record size. *)
Lemma font_cache_get_wf (os : os_model) (font : rtgui_hz_file_font)
    (tr : trace) (code : Z) :
  font_wf font ->
  exists r font' tr',
    _font_cache_get os font tr code = Done (r, font', tr')
    /\ font_wf font'
    /\ font_size font' = font_size font
    /\ font_data_size font' = font_data_size font
    /\ (forall b, r = Some b -> Z.of_nat (List.length b) = font_data_size font).
Proof.
  intros (Inv & Ent & HS & HR).
  destruct (font_cache_get_spec os font tr code Inv)
    as (r & font' & tr' & Run & Inv' & Found & _).
  exists r, font', tr'. split; [exact Run|].
  assert (HR0 : 0 <= font_data_size font).
  { rewrite HR. destruct (row_bytes_ceil font HS) as [_ B]. nia. }
  assert (Keep : all_entries (record_sized font) (cache_root font') = true
                 /\ font_size font' = font_size font
                 /\ font_data_size font' = font_data_size font).
  { revert Run. unfold _font_cache_get.
    destruct (SPLAY_FIND (cache_root font) (mk_hz_cache code [])).
    { intros [= <- <- <-]. auto. }
    destruct (negb (os_malloc os tr (font_data_size font))).
    { intros [= <- <- <-]. auto. }
    set (opened := if fd font <? 0 then _ else _).
    assert (O : cache_root (fst opened) = cache_root font
                /\ font_size (fst opened) = font_size font
                /\ font_data_size (fst opened) = font_data_size font).
    { subst opened. destruct (fd font <? 0); cbn; auto. }
    destruct O as (OR & OS & OD).
    destruct (fd (fst opened) <? 0).
    { intros [= <- <- <-]. rewrite OR. auto. }
    destruct (os_lseek os (snd opened) (fd (fst opened)) (glyph_seek font code) <? 0).
    { intros [= <- <- <-]. rewrite OR. auto. }
    set (rd := read os _ _ _).
    destruct (Z.eqb_spec (fst rd) (font_data_size (fst opened))) as [Full|];
      cbn [negb].
    2:{ intros [= <- <- <-]. rewrite OR. auto. }
    set (cache := mk_hz_cache code (snd rd)).
    destruct (cache_insert (fst opened) _ cache) as [[f t]| |] eqn:Ins;
      cbn [obind]; try discriminate.
    intros [= <- <- <-]. cbn [fst snd].
    apply (cache_insert_entries (record_sized font)) in Ins.
    - destruct Ins as (E & S1 & D1). rewrite S1, D1. auto.
    - now rewrite OR.
    - unfold record_sized, cache. cbn [hz_bitmap]. apply Z.eqb_eq.
      rewrite <- OD. subst rd. apply read_full_length; [lia | exact Full]. }
  destruct Keep as (Ent' & S' & D').
  split; [|split; [exact S' | split; [exact D'|]]].
  - unfold font_wf, record_sized, row_bytes in *. rewrite S', D'. auto.
  - intros b Hb. destruct (Found b Hb) as (e & F & <-).
    pose proof (all_entries_find _ _ _ _ Ent' F) as P.
    unfold record_sized in P. lia.
Qed.

(** ** The glyph loop *)

Lemma to_int16_small (z : Z) : - 2 ^ 15 <= z < 2 ^ 15 -> to_int16 z = z.
Proof. intros H. unfold to_int16. rewrite Z.mod_small; lia. Qed.

Section GlyphLoop.

Variable os : os_model.
Variable flag : Z.
Variable gc : rtgui_gc.
Variable mem : list Z.
Variables h word_bytes : Z.

(** One pass: the two bytes are read, the glyph is looked up, its pixels
    are drawn when there is a bitmap and nothing is drawn when there is
    none; either way the cursor moves by [font_size] and the pass ends
    normally. *)
Lemma hz_draw_glyph_pass (str len : Z) (st : draw_state) :
  font_wf (ds_font st) ->
  h * word_bytes <= font_data_size (ds_font st) ->
  0 <= str -> str + 2 <= Z.of_nat (List.length mem) ->
  exists r font' tr' ops,
    _font_cache_get os (ds_font st) (ds_trace st) (glyph_code_at mem str)
      = Done (r, font', tr')
    /\ hz_draw_glyph os flag gc mem h word_bytes str len st
       = Done (str + 2, to_ubase (len - 2),
               mk_draw_state font' tr' (ds_ops st ++ ops)
                 (set_x1 (ds_rect st)
                    (to_int16 (x1 (ds_rect st) + font_size (ds_font st)))))
    /\ (r = None -> ops = [])
    /\ (forall b, r = Some b ->
                  ops = glyph_pixels flag gc b (ds_rect st) h word_bytes)
    /\ font_wf font'
    /\ font_size font' = font_size (ds_font st)
    /\ font_data_size font' = font_data_size (ds_font st).
Proof.
  intros Wf Fit Hs Hm.
  destruct (font_cache_get_wf os (ds_font st) (ds_trace st)
              (glyph_code_at mem str) Wf)
    as (r & font' & tr' & Run & Wf' & S' & D' & Len).
  unfold hz_draw_glyph.
  rewrite !read_byte_nth by lia. cbn [obind].
  fold (glyph_code_at mem str). rewrite Run. cbn [obind fst snd].
  destruct r as [b|].
  - exists (Some b), font', tr', (glyph_pixels flag gc b (ds_rect st) h word_bytes).
    split; [reflexivity|].
    rewrite draw_word_pixels by (rewrite (Len b eq_refl); exact Fit).
    cbn [obind]. rewrite S'.
    split; [reflexivity|]. split; [discriminate|].
    split; [now intros b' [= <-]|]. auto.
  - exists None, font', tr', []. split; [reflexivity|].
    cbn [obind]. rewrite S'.
    split; [reflexivity|]. split; [reflexivity|].
    split; [discriminate|]. auto.
Qed.

Lemma hz_draw_loop_even (n : nat) :
  forall (fuel : nat) (str : Z) (st : draw_state),
    font_wf (ds_font st) ->
    h * word_bytes <= font_data_size (ds_font st) ->
    0 <= str -> str + 2 * Z.of_nat n <= Z.of_nat (List.length mem) ->
    2 * Z.of_nat n < 2 ^ 32 ->
    (n <= fuel)%nat ->
    exists (k : nat) (st' : draw_state),
      (k <= n)%nat
      /\ hz_draw_loop os flag gc fuel mem h word_bytes str (2 * Z.of_nat n) st
         = Done st'
      /\ x1 (ds_rect st')
         = cursor_after (font_size (ds_font st)) k (x1 (ds_rect st))
      /\ x2 (ds_rect st') = x2 (ds_rect st)
      /\ (k = n \/ x2 (ds_rect st) <= x1 (ds_rect st'))
      /\ (forall j, (j < k)%nat ->
            cursor_after (font_size (ds_font st)) j (x1 (ds_rect st))
            < x2 (ds_rect st)).
Proof.
  induction n as [|n IH]; intros fuel str st Wf Fit Hs Hm Hl Hf.
  - exists O, st. destruct fuel; cbn; repeat split; auto; intros; lia.
  - assert (T : hz_loop_test (2 * Z.of_nat (S n)) st
                = (x1 (ds_rect st) <? x2 (ds_rect st))).
    { unfold hz_loop_test. now rewrite (proj2 (Z.gtb_gt _ _)) by lia. }
    destruct (Z.ltb_spec (x1 (ds_rect st)) (x2 (ds_rect st))) as [In|Out].
    + destruct fuel as [|fuel]; [lia|].
      cbn [hz_draw_loop]. rewrite T.
      destruct (hz_draw_glyph_pass str (2 * Z.of_nat (S n)) st Wf Fit Hs)
        as (r & font' & tr' & ops & _ & Pass & _ & _ & Wf' & S' & D');
        [lia|].
      rewrite Pass. cbn [obind fst snd].
      replace (to_ubase (2 * Z.of_nat (S n) - 2)) with (2 * Z.of_nat n)
        by (unfold to_ubase; rewrite Z.mod_small; lia).
      assert (Fit' : h * word_bytes <= font_data_size font')
        by (rewrite D'; exact Fit).
      destruct (IH fuel (str + 2)
                  (mk_draw_state font' tr' (ds_ops st ++ ops)
                     (set_x1 (ds_rect st)
                        (to_int16 (x1 (ds_rect st) + font_size (ds_font st)))))
                  Wf' Fit' ltac:(lia) ltac:(lia) ltac:(lia) ltac:(lia))
        as (k & st' & Hk & Run & X1 & X2 & Stop & Before).
      cbn [ds_font ds_rect set_x1 x1 x2] in *. rewrite S' in *.
      exists (S k), st'. split; [lia|]. split; [exact Run|].
      split; [exact X1|]. split; [exact X2|]. split.
      * destruct Stop; [left; lia | now right].
      * intros [|j] Hj; cbn [cursor_after]; [exact In|]. apply Before. lia.
    + exists O, st. split; [lia|].
      split.
      { destruct fuel; cbn [hz_draw_loop]; now rewrite T. }
      cbn [cursor_after]. repeat split; auto. intros; lia.
Qed.

End GlyphLoop.

Lemma cursor_after_exact (s x2 : Z) (k : nat) :
  forall x,
    0 <= s -> x2 + s <= 2 ^ 15 -> - 2 ^ 15 <= x ->
    (forall j, (j < k)%nat -> cursor_after s j x < x2) ->
    cursor_after s k x = x + Z.of_nat k * s.
Proof.
  induction k as [|k IH]; intros x Hs Hx2 Hx Before; cbn [cursor_after]; [lia|].
  pose proof (Before O ltac:(lia)) as B0. cbn [cursor_after] in B0.
  rewrite to_int16_small by lia.
  rewrite IH; try lia.
  intros j Hj. specialize (Before (S j) ltac:(lia)). cbn [cursor_after] in Before.
  now rewrite to_int16_small in Before by lia.
Qed.

Lemma rows_fit (font : rtgui_hz_file_font) (rect : rtgui_rect) :
  font_wf font ->
  drawing_height font rect * row_bytes font <= font_data_size font.
Proof.
  intros (_ & _ & HS & HR). rewrite HR, drawing_height_min.
  destruct (row_bytes_ceil font HS) as [_ B]. nia.
Qed.

Lemma font_wf_new (s : Z) : 0 <= s -> font_wf (new_font s).
Proof.
  intros Hs. split; [apply cache_inv_new|]. repeat split; auto.
Qed.

(** ** The pass for a glyph that has a bitmap *)

(** When the lookup returns a bitmap, the pass runs the pixel loops on
    that bitmap at the cursor's rectangle and appends what they draw to
    the calls made so far. *)
Lemma hz_draw_glyph_bitmap
    (os : os_model) (flag : Z) (gc : rtgui_gc) (mem : list Z)
    (str len : Z) (st : draw_state)
    (font_ptr : list Z) (font' : rtgui_hz_file_font) (tr' : trace) :
  font_wf (ds_font st) ->
  0 <= str -> str + 2 <= Z.of_nat (List.length mem) ->
  _font_cache_get os (ds_font st) (ds_trace st) (glyph_code_at mem str)
    = Done (Some font_ptr, font', tr') ->
  let h := drawing_height (ds_font st) (ds_rect st) in
  let word_bytes := row_bytes (ds_font st) in
  let ops := glyph_pixels flag gc font_ptr (ds_rect st) h word_bytes in
  draw_word flag gc font_ptr (ds_rect st) h word_bytes = Done ops
  /\ hz_draw_glyph os flag gc mem h word_bytes str len st
     = Done (str + 2, to_ubase (len - 2),
             mk_draw_state font' tr' (ds_ops st ++ ops)
               (set_x1 (ds_rect st)
                  (to_int16 (x1 (ds_rect st) + font_size (ds_font st))))).
Proof.
  intros Wf Hs Hm Get h word_bytes ops.
  pose proof (rows_fit (ds_font st) (ds_rect st) Wf) as Fit.
  destruct (font_cache_get_wf os (ds_font st) (ds_trace st)
              (glyph_code_at mem str) Wf)
    as (r & f & t & Run & _ & _ & _ & Len).
  rewrite Get in Run. injection Run as <- <- <-.
  split.
  - apply draw_word_pixels. rewrite (Len font_ptr eq_refl). exact Fit.
  - destruct (hz_draw_glyph_pass os flag gc mem h word_bytes str len st
                Wf Fit Hs Hm)
      as (r & f & t & o & Get' & Pass & _ & Bitmap & _).
    rewrite Get in Get'. injection Get' as <- <- <-.
    rewrite Pass, (Bitmap font_ptr eq_refl). reflexivity.
Qed.






(** C8, as the code has it: for a double-byte run of even byte count
    lying inside the buffer, every pass of the loop ends normally and
    moves the 16-bit cursor [x1] by [font_size] whether or not a bitmap
    was obtained (by exactly that much when the sum fits in 16 bits); a
    pass whose lookup returns none draws nothing and the loop goes on;
    and the loop stops after [k] glyphs, where [k] is the first count at
    which the run is exhausted or the cursor has reached [x2]. *)
Theorem hz_run_advances_and_stops
    (os : os_model) (flag : Z) (gc : rtgui_gc) (mem : list Z) (text : Z)
    (n fuel : nat) (st : draw_state) :
  font_wf (ds_font st) ->
  0 <= text ->
  text + 2 * Z.of_nat n <= Z.of_nat (List.length mem) ->
  2 * Z.of_nat n < 2 ^ 32 ->
  (n <= fuel)%nat ->
  let s := font_size (ds_font st) in
  let h := drawing_height (ds_font st) (ds_rect st) in
  let word_bytes := row_bytes (ds_font st) in
  (forall str len st0,
      font_wf (ds_font st0) ->
      h * word_bytes <= font_data_size (ds_font st0) ->
      0 <= str -> str + 2 <= Z.of_nat (List.length mem) ->
      exists r font' tr' ops,
        _font_cache_get os (ds_font st0) (ds_trace st0) (glyph_code_at mem str)
          = Done (r, font', tr')
        /\ hz_draw_glyph os flag gc mem h word_bytes str len st0
           = Done (str + 2, to_ubase (len - 2),
                   mk_draw_state font' tr' (ds_ops st0 ++ ops)
                     (set_x1 (ds_rect st0)
                        (to_int16 (x1 (ds_rect st0) + font_size (ds_font st0)))))
        /\ (r = None -> ops = [])
        /\ (- 2 ^ 15 <= x1 (ds_rect st0) + font_size (ds_font st0) < 2 ^ 15 ->
            to_int16 (x1 (ds_rect st0) + font_size (ds_font st0))
            = x1 (ds_rect st0) + font_size (ds_font st0)))
  /\ exists (k : nat) (st' : draw_state),
       (k <= n)%nat
       /\ _rtgui_hz_file_font_draw_text os flag gc fuel mem text
            (2 * Z.of_nat n) st = Done st'
       /\ x1 (ds_rect st') = cursor_after s k (x1 (ds_rect st))
       /\ (k = n \/ x2 (ds_rect st) <= x1 (ds_rect st'))
       /\ (forall j, (j < k)%nat ->
             cursor_after s j (x1 (ds_rect st)) < x2 (ds_rect st))
       /\ (x2 (ds_rect st) + s <= 2 ^ 15 -> - 2 ^ 15 <= x1 (ds_rect st) ->
           x1 (ds_rect st') = x1 (ds_rect st) + Z.of_nat k * s).
Proof.
  intros Wf Ht Hm Hl Hf s h word_bytes. split.
  - intros str len st0 Wf0 Fit0 Hs0 Hm0.
    destruct (hz_draw_glyph_pass os flag gc mem h word_bytes str len st0
                Wf0 Fit0 Hs0 Hm0)
      as (r & font' & tr' & ops & Get & Pass & Miss & _).
    exists r, font', tr', ops. repeat split; auto.
    intros B. now apply to_int16_small.
  - destruct (hz_draw_loop_even os flag gc mem h word_bytes n fuel text st
                Wf (rows_fit _ _ Wf) Ht Hm Hl Hf)
      as (k & st' & Hk & Run & X1 & X2 & Stop & Before).
    exists k, st'. split; [exact Hk|]. split.
    { unfold _rtgui_hz_file_font_draw_text.
      replace (to_ubase (2 * Z.of_nat n)) with (2 * Z.of_nat n)
        by (unfold to_ubase; rewrite Z.mod_small; lia).
      exact Run. }
    split; [exact X1|]. split; [exact Stop|]. split; [exact Before|].
    intros Hx2 Hx1. rewrite X1.
    destruct Wf as (_ & _ & HS & _).
    now apply (cursor_after_exact s (x2 (ds_rect st))).
Qed.

Lemma hz_run_advances_and_stops_witness :
  font_wf (new_font 16)
  /\ exists st',
       _rtgui_hz_file_font_draw_text no_file_os 1 (mk_gc 1 7) 2
         [0xB0; 0xA1; 0xB0; 0xA1; 0] 0 4
         (mk_draw_state (new_font 16) [] [] (mk_rect 0 0 100 16)) = Done st'
       /\ x1 (ds_rect st') = 32
       /\ ds_ops st' = [].
Proof.
  assert (Wf : font_wf (new_font 16)) by (apply font_wf_new; lia).
  split; [exact Wf|].
  destruct (hz_run_advances_and_stops no_file_os 1 (mk_gc 1 7)
              [0xB0; 0xA1; 0xB0; 0xA1; 0] 0 2 2
              (mk_draw_state (new_font 16) [] [] (mk_rect 0 0 100 16)) Wf)
    as (_ & k & st' & Hk & Run & _ & Stop & _ & Exact);
    [lia | cbn; lia | cbn; lia | lia |].
  exists st'. split; [exact Run|].
  assert (Run' := Run). vm_compute in Run'. injection Run' as <-.
  split; reflexivity.
Defined.

(** C8 as stated fails in two ways.  A run of one byte: after the first
    glyph the run is exhausted, yet the loop goes on, looks up a second
    glyph made of bytes that lie after the run and moves the cursor a
    second time.  A cursor near the top of the 16-bit range: adding
    [font_size] wraps it round instead of advancing it by [font_size]. *)
Lemma hz_run_counterexample :
  (exists st',
      _rtgui_hz_file_font_draw_text no_file_os 1 (mk_gc 1 7) 2
        [0xB0; 0x41; 0x42; 0x43; 0] 0 1
        (mk_draw_state (new_font 16) [] [] (mk_rect 0 0 32 16)) = Done st'
      /\ x1 (ds_rect st') = 2 * 16
      /\ ds_trace st'
         = [ev_free; ev_open "hz.fnt"; ev_malloc 32;
            ev_free; ev_open "hz.fnt"; ev_malloc 32])
  /\ (exists st',
         _rtgui_hz_file_font_draw_text no_file_os 1 (mk_gc 1 7) 2
           [0xB0; 0xA1; 0] 0 2
           (mk_draw_state (new_font 16) [] [] (mk_rect 32760 0 32767 16)) = Done st'
         /\ x1 (ds_rect st') = -32760
         /\ x1 (ds_rect st') <> 32760 + 16).
Proof.
  split; eexists; (split; [vm_compute; reflexivity|]);
    split; try reflexivity; discriminate.
Qed.

(** C6 fails on the code: a run of one dangling byte at the end of the
    buffer.  The first pass pairs the byte with the terminator and
    [len -= 2] wraps the unsigned length round to [2^32 - 1]; the loop
    test still holds, and the second pass reads the two bytes after the
    terminator, outside the buffer. *)
Theorem odd_run_reads_outside_buffer (fuel : nat) :
  let st := mk_draw_state (new_font 16) [] [] (mk_rect 0 0 100 16) in
  (exists st1,
      hz_draw_glyph no_file_os 1 (mk_gc 1 7) [0xB0; 0] 16 2 0 1 st
        = Done (2, 2 ^ 32 - 1, st1)
      /\ hz_loop_test (2 ^ 32 - 1) st1 = true
      /\ read_byte [0xB0; 0] 2 = Fault)
  /\ _rtgui_hz_file_font_draw_text no_file_os 1 (mk_gc 1 7) (S (S fuel))
       [0xB0; 0] 0 1 st = Fault
  /\ rtgui_hz_file_font_draw_text no_file_os 1 (mk_gc 1 7) (S (S fuel))
       (Some [0xB0; 0]) st = Fault.
Proof.
  split; [eexists; split; [reflexivity | split; reflexivity]|].
  split; reflexivity.
Qed.

(** ** Metrics *)

Lemma strlen_long_text (n : nat) : strlen (long_text n) = Done (Z.of_nat n).
Proof.
  unfold long_text. rewrite strlen_terminated.
  - now rewrite repeat_length.
  - apply Forall_forall. intros b Hb. apply repeat_spec in Hb. subst b.
    unfold nonzero_byte. lia.
Qed.

(** The rectangle computed for a terminated string of [n] non-zero
    bytes: the product is taken modulo [2^32] before it is capped. *)
Lemma get_metrics_value (font : rtgui_hz_file_font) (s rest : list Z)
    (rect : rtgui_rect) :
  Forall nonzero_byte s ->
  0 <= font_size font < 2 ^ 15 ->
  rtgui_hz_file_font_get_metrics font (Some (s ++ 0 :: rest)) rect
  = Done (mk_rect 0 0
            (Z.min 0x7FFF
               ((font_size font / 2 * Z.of_nat (List.length s)) mod 2 ^ 32))
            (font_size font)).
Proof.
  intros NZ HS. unfold rtgui_hz_file_font_get_metrics.
  rewrite (strlen_terminated s rest NZ). cbn [obind].
  rewrite Z.quot_div_nonneg by lia. unfold to_uint32.
  set (x := (font_size font / 2 * Z.of_nat (List.length s)) mod 2 ^ 32).
  assert (Hx : 0 <= x < 2 ^ 32) by (apply Z.mod_pos_bound; lia).
  rewrite (to_int16_small (font_size font)) by lia.
  destruct (Z.geb_spec x 0x7FFF).
  - rewrite Z.min_l by lia. reflexivity.
  - rewrite Z.min_r by lia. rewrite to_int16_small by lia. reflexivity.
Qed.

(** Where the product fits in 32 bits the width is the product capped at
    0x7FFF, as the spec says. *)
Lemma get_metrics_saturates (font : rtgui_hz_file_font) (s rest : list Z)
    (rect : rtgui_rect) :
  Forall nonzero_byte s ->
  0 <= font_size font < 2 ^ 15 ->
  font_size font / 2 * Z.of_nat (List.length s) < 2 ^ 32 ->
  rtgui_hz_file_font_get_metrics font (Some (s ++ 0 :: rest)) rect
  = Done (mk_rect 0 0
            (Z.min 0x7FFF (font_size font / 2 * Z.of_nat (List.length s)))
            (font_size font)).
Proof.
  intros NZ HS Fits. rewrite get_metrics_value by assumption.
  rewrite Z.mod_small; [reflexivity|].
  split; [|exact Fits]. apply Z.mul_nonneg_nonneg; [|lia].
  apply Z.div_pos; lia.
Qed.

(** C9 fails on the code for a very long string.  A 16-pixel font and 4
    transcoded bytes give width 32 and height 16; but for [2^29]
    transcoded bytes the product [8 * 2^29] is [2^32], which the 32-bit
    [x2] holds as 0, so the width is 0 and not 0x7FFF. *)
Theorem metrics_width_wraps (rect : rtgui_rect) :
  rtgui_hz_file_font_get_metrics (new_font 16) (Some (long_text 4)) rect
    = Done (mk_rect 0 0 32 16)
  /\ rtgui_hz_file_font_get_metrics (new_font 16)
       (Some (long_text (Z.to_nat (2 ^ 29)))) rect
     = Done (mk_rect 0 0 0 16).
Proof.
  split; [reflexivity|].
  unfold rtgui_hz_file_font_get_metrics.
  rewrite strlen_long_text. cbn [obind].
  rewrite Z2Nat.id by (apply Z.pow_nonneg; lia).
  reflexivity.
Qed.

(** * Further properties *)

(** ** The comparison of cache entries *)

(** X1: [_font_cache_compare] orders entries by [hz_id] alone: it is 0
    exactly for equal keys, negative exactly for a smaller key, swapping
    the arguments negates it, it is transitive, and entries that compare
    equal compare alike with any third one. *)
Theorem font_cache_compare_total_order (a b c : hz_cache) :
  (_font_cache_compare a b = 0 <-> hz_id a = hz_id b)
  /\ _font_cache_compare a b = - _font_cache_compare b a
  /\ (_font_cache_compare a b < 0 <-> hz_id a < hz_id b)
  /\ (_font_cache_compare a b < 0 -> _font_cache_compare b c < 0 ->
      _font_cache_compare a c < 0)
  /\ (_font_cache_compare a b = 0 ->
      _font_cache_compare a c = _font_cache_compare b c).
Proof.
  destruct (compare_cases a b) as [[? E1] | [[? E1] | [? E1]]];
    destruct (compare_cases b a) as [[? E2] | [[? E2] | [? E2]]]; try lia;
    destruct (compare_cases b c) as [[? E3] | [[? E3] | [? E3]]];
    destruct (compare_cases a c) as [[? E4] | [[? E4] | [? E4]]]; try lia;
    rewrite E1, E2, E3, E4; repeat split; intros; lia.
Qed.

(** ** Addressing of GB2312 pairs *)

Lemma glyph_code_bytes (b0 b1 : Z) :
  0 <= b0 < 256 -> 0 <= b1 < 256 ->
  Z.land (Z.lor b0 (Z.shiftl b1 8)) 0xff = b0
  /\ Z.shiftr (Z.lor b0 (Z.shiftl b1 8)) 8 = b1.
Proof.
  intros H0 H1. split.
  - rewrite Z.land_lor_distr_l.
    change 255 with (Z.ones 8). rewrite !Z.land_ones by lia.
    rewrite Z.shiftl_mul_pow2 by lia. rewrite Z.mod_mul by lia.
    rewrite Z.lor_0_r. apply Z.mod_small. lia.
  - rewrite Z.shiftr_lor, Z.shiftr_shiftl_l by lia.
    rewrite Z.sub_diag, Z.shiftl_0_r.
    rewrite Z.shiftr_div_pow2 by lia. rewrite Z.div_small by lia.
    apply Z.lor_0_l.
Qed.

Lemma glyph_code_value (b0 b1 : Z) :
  0 <= b0 < 256 -> 0 <= b1 < 256 ->
  to_uint16 (Z.lor b0 (Z.shiftl b1 8)) = b0 + 256 * b1.
Proof.
  intros H0 H1. destruct (glyph_code_bytes b0 b1 H0 H1) as [L S].
  set (x := Z.lor b0 (Z.shiftl b1 8)) in *.
  assert (X : x = b0 + 256 * b1).
  { rewrite (Z.div_mod x 256) by lia.
    change 255 with (Z.ones 8) in L. rewrite Z.land_ones in L by lia.
    rewrite Z.shiftr_div_pow2 in S by lia.
    change (2 ^ 8) with 256 in *. lia. }
  rewrite X. unfold to_uint16. apply Z.mod_small. lia.
Qed.

(** X2: for the two bytes of a GB2312 pair, both in 0xA1..0xFE, the code
    built at line 188 has index [94 * (first - 0xA1) + (second - 0xA1)],
    which lies in [0 .. 94*94); the offset is that index times
    [font_data_size] without 32-bit wrap-around, and two different pairs
    get records that do not overlap. *)
Theorem gb2312_records_do_not_overlap
    (font : rtgui_hz_file_font) (b0 b1 c0 c1 : Z) :
  gb2312_byte b0 -> gb2312_byte b1 -> gb2312_byte c0 -> gb2312_byte c1 ->
  0 < font_data_size font < 2 ^ 16 ->
  let code := to_uint16 (Z.lor b0 (Z.shiftl b1 8)) in
  let code' := to_uint16 (Z.lor c0 (Z.shiftl c1 8)) in
  glyph_index code = 94 * (b0 - 0xA1) + (b1 - 0xA1)
  /\ 0 <= glyph_index code < 94 * 94
  /\ glyph_seek font code = glyph_index code * font_data_size font
  /\ ((b0, b1) <> (c0, c1) ->
      glyph_seek font code + font_data_size font <= glyph_seek font code'
      \/ glyph_seek font code' + font_data_size font <= glyph_seek font code).
Proof.
  intros B0 B1 C0 C1 HR code code'. unfold gb2312_byte in *.
  assert (I : forall x y, 0xA1 <= x <= 0xFE -> 0xA1 <= y <= 0xFE ->
              glyph_index (to_uint16 (Z.lor x (Z.shiftl y 8)))
              = 94 * (x - 0xA1) + (y - 0xA1)).
  { intros x y Hx Hy. rewrite glyph_code_value by lia.
    unfold glyph_index.
    replace (Z.land (x + 256 * y) 255) with x.
    - replace (Z.shiftr (x + 256 * y) 8) with y; [lia|].
      rewrite Z.shiftr_div_pow2 by lia. change (2 ^ 8) with 256.
      apply (Z.div_unique _ _ _ x); lia.
    - change 255 with (Z.ones 8). rewrite Z.land_ones by lia.
      change (2 ^ 8) with 256.
      apply (Z.mod_unique _ _ y); lia. }
  assert (K : forall x y, 0xA1 <= x <= 0xFE -> 0xA1 <= y <= 0xFE ->
              glyph_seek font (to_uint16 (Z.lor x (Z.shiftl y 8)))
              = (94 * (x - 0xA1) + (y - 0xA1)) * font_data_size font).
  { intros x y Hx Hy. unfold glyph_seek. rewrite I by lia.
    rewrite (to_uint32_small (94 * (x - 161) + (y - 161))) by lia.
    apply to_uint32_small. nia. }
  subst code code'. rewrite !K, !I by lia.
  split; [reflexivity|]. split; [lia|]. split; [reflexivity|].
  intros Ne.
  assert (D : 94 * (b0 - 161) + (b1 - 161) <> 94 * (c0 - 161) + (c1 - 161)).
  { intros E. apply Ne. f_equal; lia. }
  nia.
Qed.

Lemma gb2312_records_do_not_overlap_witness :
  gb2312_byte 0xB0 /\ gb2312_byte 0xA1
  /\ glyph_seek (new_font 16) (to_uint16 (Z.lor 0xB0 (Z.shiftl 0xA1 8)))
     = 1410 * 32.
Proof.
  assert (B : gb2312_byte 0xB0) by (unfold gb2312_byte; lia).
  assert (A : gb2312_byte 0xA1) by (unfold gb2312_byte; lia).
  assert (R : 0 < font_data_size (new_font 16) < 2 ^ 16) by (cbn; lia).
  destruct (gb2312_records_do_not_overlap (new_font 16) 0xB0 0xA1 0xA1 0xA1
              B A A A R) as (_ & _ & S & _).
  split; [exact B|]. split; [exact A|]. exact S.
Defined.

(** ** Bounds of the metrics *)

(** X3: for every terminated string, whatever the font size and the
    length, [get_metrics] returns a rectangle with [x1 = y1 = 0] and a
    width between 0 and 0x7FFF (never negative); the empty string has
    width 0. *)
Theorem metrics_rect_bounds (font : rtgui_hz_file_font) (s rest : list Z)
    (rect : rtgui_rect) :
  Forall nonzero_byte s ->
  exists r,
    rtgui_hz_file_font_get_metrics font (Some (s ++ 0 :: rest)) rect = Done r
    /\ x1 r = 0 /\ y1 r = 0
    /\ 0 <= x2 r <= 0x7FFF
    /\ y2 r = to_int16 (font_size font)
    /\ (s = [] -> x2 r = 0).
Proof.
  intros NZ. unfold rtgui_hz_file_font_get_metrics.
  rewrite (strlen_terminated s rest NZ). cbn [obind].
  eexists. split; [reflexivity|]. cbn [x1 y1 x2 y2].
  split; [reflexivity|]. split; [reflexivity|].
  unfold to_uint32.
  set (x := (Z.quot (font_size font) 2 * Z.of_nat (List.length s)) mod 2 ^ 32).
  assert (Hx : 0 <= x < 2 ^ 32) by (apply Z.mod_pos_bound; lia).
  split; [|split; [reflexivity|]].
  - destruct (Z.geb_spec x 0x7FFF).
    + rewrite to_int16_small; lia.
    + rewrite to_int16_small; lia.
  - intros ->. subst x. cbn [List.length Z.of_nat].
    rewrite Z.mul_0_r. reflexivity.
Qed.

Lemma metrics_rect_bounds_witness :
  Forall nonzero_byte [0x41; 0xB0; 0xA1]
  /\ exists r,
       rtgui_hz_file_font_get_metrics (new_font 16)
         (Some [0x41; 0xB0; 0xA1; 0]) (mk_rect 5 5 5 5) = Done r
       /\ 0 <= x2 r <= 0x7FFF.
Proof.
  assert (NZ : Forall nonzero_byte [0x41; 0xB0; 0xA1])
    by (repeat constructor).
  split; [exact NZ|].
  destruct (metrics_rect_bounds (new_font 16) [0x41; 0xB0; 0xA1] []
              (mk_rect 5 5 5 5) NZ) as (r & Run & _ & _ & B & _).
  exists r. split; [exact Run | exact B].
Defined.

(** ** The paths through a lookup *)

Lemma font_opened_fields (os : os_model) (font : rtgui_hz_file_font) (tr : trace) :
  cache_root (font_opened os font tr) = cache_root font
  /\ cache_size (font_opened os font tr) = cache_size font
  /\ font_size (font_opened os font tr) = font_size font
  /\ font_data_size (font_opened os font tr) = font_data_size font
  /\ font_fn (font_opened os font tr) = font_fn font
  /\ fd (font_opened os font tr) = fd_used os font tr.
Proof.
  unfold font_opened, fd_used. destruct (fd font <? 0); cbn; auto 6.
Qed.

(** The five ways a lookup that misses can go, and the hit. *)
Lemma font_cache_get_paths (os : os_model) (font : rtgui_hz_file_font)
    (tr : trace) (code : Z) (r : option (list Z))
    (font' : rtgui_hz_file_font) (tr' : trace) :
  _font_cache_get os font tr code = Done (r, font', tr') ->
  (exists e,
      SPLAY_FIND (cache_root font) (mk_hz_cache code []) = Some e
      /\ r = Some (hz_bitmap e) /\ font' = font /\ tr' = tr)
  \/ (cache_miss font code /\ alloc_fails os font tr
      /\ r = None /\ font' = font /\ tr' = tr_alloc font tr)
  \/ (cache_miss font code /\ os_malloc os tr (font_data_size font) = true
      /\ r = None /\ font' = font_opened os font tr
      /\ (tr' = ev_free :: tr_open font tr
          \/ tr' = ev_free
                     :: ev_lseek (fd_used os font tr) (glyph_seek font code)
                     :: tr_open font tr
          \/ tr' = ev_free :: tr_read os font tr code))
  \/ (cache_miss font code /\ os_malloc os tr (font_data_size font) = true
      /\ 0 <= fd_used os font tr
      /\ (0 <= font_data_size font ->
          Z.of_nat (List.length (record_read os font tr code))
          = font_data_size font)
      /\ r = Some (record_read os font tr code)
      /\ cache_insert (font_opened os font tr) (tr_read os font tr code)
           (mk_hz_cache code (record_read os font tr code))
         = Done (font', tr')).
Proof.
  unfold _font_cache_get, cache_miss, alloc_fails.
  destruct (SPLAY_FIND (cache_root font) (mk_hz_cache code [])) as [e|] eqn:F.
  { intros [= <- <- <-]. left. eauto. }
  intros Run. right. revert Run.
  destruct (os_malloc os tr (font_data_size font)) eqn:Al; cbn [negb].
  2:{ intros [= <- <- <-]. left. auto. }
  intros Run. right. revert Run.
  pose proof (font_opened_fields os font tr) as (OR & OS & _ & OD & OF & OFd).
  unfold record_read, tr_read, font_opened, fd_used, tr_open, tr_alloc in *.
  destruct (fd font <? 0) eqn:Closed; unfold set_fd in *;
    cbn [fst snd fd font_data_size font_fn cache_root cache_size] in *.
  - destruct (os_open os _ (font_fn font) <? 0) eqn:Op.
    { intros [= <- <- <-]. left. auto 8. }
    destruct (os_lseek os _ _ _ <? 0) eqn:Sk.
    { intros [= <- <- <-]. left. auto 8. }
    match goal with |- context [negb (?x =? ?y)] =>
      destruct (Z.eqb_spec x y) as [Rd|Rd]; cbn [negb] end.
    2:{ intros [= <- <- <-]. left. auto 8. }
    intros Run. right.
    destruct (cache_insert _ _ _) as [[f t]| |] eqn:Ins; cbn [obind] in Run;
      try discriminate.
    injection Run as <- <- <-. cbn [fst snd hz_bitmap].
    repeat split; auto; try lia.
    intros HR. unfold read in *.
    destruct (os_read os _ _ _); cbn [fst snd] in *; lia.
  - rewrite Closed.
    destruct (os_lseek os _ _ _ <? 0) eqn:Sk.
    { intros [= <- <- <-]. left. auto 8. }
    match goal with |- context [negb (?x =? ?y)] =>
      destruct (Z.eqb_spec x y) as [Rd|Rd]; cbn [negb] end.
    2:{ intros [= <- <- <-]. left. auto 8. }
    intros Run. right.
    destruct (cache_insert _ _ _) as [[f t]| |] eqn:Ins; cbn [obind] in Run;
      try discriminate.
    injection Run as <- <- <-. cbn [fst snd hz_bitmap].
    repeat split; auto; try lia.
    intros HR. unfold read in *.
    destruct (os_read os _ _ _); cbn [fst snd] in *; lia.
Qed.

Lemma cache_insert_paths (font : rtgui_hz_file_font) (tr : trace)
    (cache : hz_cache) (font' : rtgui_hz_file_font) (tr' : trace) :
  cache_insert font tr cache = Done (font', tr') ->
  (HZ_CACHE_MAX <= cache_size font
   /\ exists lft,
        leftmost (cache_root font) = Some lft
        /\ cache_root font'
           = SPLAY_INSERT (SPLAY_REMOVE (cache_root font) lft) cache
        /\ tr' = ev_free :: tr)
  \/ (cache_size font < HZ_CACHE_MAX
      /\ cache_root font' = SPLAY_INSERT (cache_root font) cache
      /\ cache_size font' = to_uint16 (cache_size font + 1)
      /\ tr' = tr).
Proof.
  unfold cache_insert.
  destruct (Z.geb_spec (cache_size font) HZ_CACHE_MAX).
  - destruct (leftmost (cache_root font)) as [lft|]; [|discriminate].
    cbn. intros [= <- <-]. left. split; [lia|]. exists lft. auto.
  - cbn. intros [= <- <-]. right. auto.
Qed.

Lemma cache_insert_keeps (font : rtgui_hz_file_font) (tr : trace)
    (cache : hz_cache) (font' : rtgui_hz_file_font) (tr' : trace) :
  cache_insert font tr cache = Done (font', tr') ->
  fd font' = fd font /\ font_fn font' = font_fn font
  /\ font_size font' = font_size font
  /\ font_data_size font' = font_data_size font.
Proof.
  unfold cache_insert.
  destruct (cache_size font >=? HZ_CACHE_MAX).
  - destruct (leftmost (cache_root font)) as [lft|]; [|discriminate].
    cbn. intros [= <- <-]. auto.
  - cbn. intros [= <- <-]. auto.
Qed.

(** ** What a lookup asks of the operating system *)

Lemma count_cons (p : os_event -> bool) (e : os_event) (tr : trace) :
  List.length (filter p (e :: tr))
  = ((if p e then 1 else 0) + List.length (filter p tr))%nat.
Proof. cbn. now destruct (p e). Qed.

(** Rewrites every count over an extended trace to a sum. *)
Ltac count_events :=
  unfold io_calls, opens, mallocs, frees, tr_read, tr_open, tr_alloc in *;
  repeat match goal with
         | |- context [if ?c then _ :: _ else _] => destruct c
         end;
  rewrite ?count_cons; cbn [is_file_io is_open is_malloc is_free].

Lemma lookup_keeps_descriptor (os : os_model) (font : rtgui_hz_file_font)
    (tr : trace) (code : Z) :
  cache_inv font ->
  exists r font' tr',
    _font_cache_get os font tr code = Done (r, font', tr')
    /\ (opens tr' <= opens tr + 1)%nat
    /\ font_fn font' = font_fn font
    /\ (0 <= fd font -> fd font' = fd font /\ opens tr' = opens tr).
Proof.
  intros Inv.
  destruct (font_cache_get_spec os font tr code Inv)
    as (r & font' & tr' & Run & _).
  exists r, font', tr'. split; [exact Run|].
  pose proof (font_opened_fields os font tr) as (_ & _ & _ & _ & OF & OFd).
  assert (Open : 0 <= fd font -> fd_used os font tr = fd font
                                 /\ tr_open font tr = tr_alloc font tr).
  { intros H. unfold fd_used, tr_open.
    now rewrite (proj2 (Z.ltb_ge _ _)) by lia. }
  assert (Tail : forall t,
             t = ev_free :: tr_open font tr
             \/ t = ev_free
                      :: ev_lseek (fd_used os font tr) (glyph_seek font code)
                      :: tr_open font tr
             \/ t = ev_free :: tr_read os font tr code
             \/ t = tr_read os font tr code ->
             (opens t <= opens tr + 1)%nat
             /\ (0 <= fd font -> opens t = opens tr)).
  { intros t T. split.
    - destruct T as [-> | [-> | [-> | ->]]]; count_events; lia.
    - intros H. destruct (Open H) as [_ E2].
      destruct T as [-> | [-> | [-> | ->]]]; unfold tr_read; rewrite E2;
        count_events; lia. }
  apply font_cache_get_paths in Run.
  destruct Run as [(e & F & -> & -> & ->)
                  | [(M & A & -> & -> & ->)
                    | [(M & A & -> & -> & T) | (M & A & Fd & _ & -> & Ins)]]].
  - repeat split; auto; lia.
  - repeat split; auto; count_events; lia.
  - rewrite OF, OFd.
    destruct (Tail tr') as [T1 T2]; [tauto|].
    split; [exact T1|]. split; [reflexivity|].
    intros H. split; [apply (Open H) | now apply T2].
  - destruct (cache_insert_keeps _ _ _ _ _ Ins) as (K1 & K2 & _).
    rewrite K1, K2, OF, OFd.
    destruct (Tail tr') as [T1 T2].
    { apply cache_insert_paths in Ins.
      destruct Ins as [(_ & lft & _ & _ & ->) | (_ & _ & _ & ->)]; auto. }
    split; [exact T1|]. split; [reflexivity|].
    intros H. split; [apply (Open H) | now apply T2].
Qed.

(** X4: one lookup makes at most three file calls (open, lseek, read)
    and at most one [open]; it never changes the file name; once the
    descriptor is valid it is kept, the file is not opened again and at
    most two file calls are made; and a bitmap obtained on a miss comes
    with a valid descriptor. *)
Theorem lookup_io_discipline (os : os_model) (font : rtgui_hz_file_font)
    (tr : trace) (code : Z) :
  cache_inv font ->
  exists r font' tr',
    _font_cache_get os font tr code = Done (r, font', tr')
    /\ (io_calls tr' <= io_calls tr + 3)%nat
    /\ (opens tr' <= opens tr + 1)%nat
    /\ font_fn font' = font_fn font
    /\ (0 <= fd font ->
        fd font' = fd font /\ opens tr' = opens tr
        /\ (io_calls tr' <= io_calls tr + 2)%nat)
    /\ (forall b, r = Some b -> misses font code = true -> 0 <= fd font').
Proof.
  intros Inv.
  destruct (font_cache_get_spec os font tr code Inv)
    as (r & font' & tr' & Run & _).
  exists r, font', tr'. split; [exact Run|].
  pose proof (font_opened_fields os font tr) as (_ & _ & _ & _ & OF & OFd).
  assert (Open : 0 <= fd font -> fd_used os font tr = fd font
                                 /\ tr_open font tr = tr_alloc font tr).
  { intros H. unfold fd_used, tr_open.
    now rewrite (proj2 (Z.ltb_ge _ _)) by lia. }
  apply font_cache_get_paths in Run.
  destruct Run as [(e & F & -> & -> & ->)
                  | [(M & A & -> & -> & ->)
                    | [(M & A & -> & -> & T) | (M & A & Fd & _ & -> & Ins)]]].
  - unfold misses. rewrite F. repeat split; auto; try lia; discriminate.
  - repeat split; auto; try discriminate; count_events; lia.
  - rewrite OF, OFd.
    split; [|split; [|split; [reflexivity|split; [|discriminate]]]].
    + destruct T as [-> | [-> | ->]]; count_events; lia.
    + destruct T as [-> | [-> | ->]]; count_events; lia.
    + intros H. destruct (Open H) as [E1 E2]. split; [exact E1|].
      destruct T as [-> | [-> | ->]]; unfold tr_read; rewrite E2;
        count_events; lia.
  - destruct (cache_insert_keeps _ _ _ _ _ Ins) as (K1 & K2 & _).
    rewrite K1, K2, OF, OFd.
    assert (T : tr' = tr_read os font tr code
                \/ tr' = ev_free :: tr_read os font tr code).
    { apply cache_insert_paths in Ins.
      destruct Ins as [(_ & lft & _ & _ & ->) | (_ & _ & _ & ->)]; auto. }
    split; [|split; [|split; [reflexivity|split; [|intros; lia]]]].
    + destruct T as [-> | ->]; count_events; lia.
    + destruct T as [-> | ->]; count_events; lia.
    + intros H. destruct (Open H) as [E1 E2]. split; [exact E1|].
      destruct T as [-> | ->]; unfold tr_read; rewrite E2;
        count_events; lia.
Qed.


Lemma lookup_io_discipline_witness :
  cache_inv (new_font 8)
  /\ exists r font' tr',
       _font_cache_get (file_os zero_file) (new_font 8) [] 0xA1A1
         = Done (r, font', tr')
       /\ (io_calls tr' <= io_calls [] + 3)%nat.
Proof.
  split; [apply cache_inv_new|].
  destruct (lookup_io_discipline (file_os zero_file) (new_font 8) [] 0xA1A1
              (cache_inv_new 8)) as (r & font' & tr' & Run & B & _).
  exists r, font', tr'. split; [exact Run | exact B].
Defined.

(** ** Allocations and the cache *)

(** X5: a lookup calls the allocator exactly once on a miss and never on
    a hit, and every block it obtained is accounted for: the number of
    entries in the tree plus the number of [rtgui_free] calls grows by
    one exactly when the allocation succeeded, so a failed load frees its
    block and an eviction frees the evicted entry. *)
Theorem lookup_frees_what_it_does_not_keep (os : os_model)
    (font : rtgui_hz_file_font) (tr : trace) (code : Z) :
  cache_inv font ->
  exists r font' tr',
    _font_cache_get os font tr code = Done (r, font', tr')
    /\ mallocs tr' = (mallocs tr + (if misses font code then 1 else 0))%nat
    /\ (tree_size (cache_root font') + frees tr'
        = tree_size (cache_root font) + frees tr
          + (if misses font code && os_malloc os tr (font_data_size font)
             then 1 else 0))%nat.
Proof.
  intros Inv.
  destruct (font_cache_get_spec os font tr code Inv)
    as (r & font' & tr' & Run & Inv' & _).
  exists r, font', tr'. split; [exact Run|].
  pose proof (font_opened_fields os font tr) as (OR & OS & _).
  apply font_cache_get_paths in Run. unfold cache_miss, alloc_fails in Run.
  destruct Run as [(e & F & -> & -> & ->)
                  | [(M & A & -> & -> & ->)
                    | [(M & A & -> & -> & T) | (M & A & Fd & _ & -> & Ins)]]];
    unfold misses; rewrite ?F, ?M, ?A; cbn [andb].
  - split; lia.
  - split; count_events; lia.
  - rewrite OR. destruct T as [-> | [-> | ->]]; split; count_events; lia.
  - destruct Inv as (Ord & Sz & Le). destruct Inv' as (Ord' & Sz' & Le').
    assert (Miss : SPLAY_FIND (cache_root (font_opened os font tr))
                     (mk_hz_cache code (record_read os font tr code)) = None).
    { rewrite OR, <- M. now apply find_same_key. }
    apply cache_insert_paths in Ins. rewrite OR, OS in Ins.
    destruct Ins as [(Full & lft & L & Root & ->) | (Room & Root & _ & ->)].
    + destruct (leftmost_min _ _ Ord L) as [Fl _].
      pose proof (size_remove _ _ _ Fl) as SR.
      assert (Miss' : SPLAY_FIND (SPLAY_REMOVE (cache_root font) lft)
                        (mk_hz_cache code (record_read os font tr code)) = None).
      { rewrite find_remove by assumption. rewrite <- OR, Miss.
        now destruct (_ =? _). }
      rewrite Root, (size_insert _ _ Miss').
      split; count_events; lia.
    + rewrite OR in Miss. rewrite Root, (size_insert _ _ Miss).
      split; count_events; lia.
Qed.

Lemma lookup_frees_what_it_does_not_keep_witness :
  cache_inv full_font
  /\ exists r font' tr',
       _font_cache_get (file_os zero_file) full_font [] 0xE1A1
         = Done (r, font', tr')
       /\ tree_size (cache_root font') = 64%nat
       /\ frees tr' = 1%nat.
Proof.
  split; [exact full_font_inv|].
  destruct (lookup_frees_what_it_does_not_keep (file_os zero_file) full_font []
              0xE1A1 full_font_inv) as (r & font' & tr' & Run & _ & _).
  exists r, font', tr'. split; [exact Run|].
  assert (Run' := Run). vm_compute in Run'. injection Run' as <- <- <-.
  split; reflexivity.
Defined.

(** ** What the cache holds is what the file holds *)

Lemma find_key (t : cache_tree) (x e : hz_cache) :
  SPLAY_FIND t x = Some e -> hz_id e = hz_id x.
Proof.
  induction t as [|l IHl n r IHr]; cbn; [discriminate|].
  cmp x n; auto. intros [= <-]. lia.
Qed.

Lemma holds_record_eq (font : rtgui_hz_file_font) (file : list Z) (e : hz_cache) :
  holds_record font file e = true
  <-> hz_bitmap e = file_record font file (hz_id e).
Proof.
  unfold holds_record. destruct (list_eq_dec _ _ _); split; congruence.
Qed.

Lemma file_os_reads_file (file : list Z) : reads_file (file_os file) file.
Proof.
  intros tr fd off count. cbn.
  destruct (Z.ltb_spec off (Z.of_nat (List.length file))); [reflexivity|].
  rewrite skipn_all2 by lia. reflexivity.
Qed.

(** X6: on a file system where a read after an [lseek] delivers the
    bytes of the file from that offset, and with a cache whose entries
    hold their records, every bitmap a lookup returns, from the cache or
    from the file, is the [font_data_size] bytes of the file at the
    glyph's offset, and the cache still holds only such entries. *)
Theorem lookup_returns_file_record (os : os_model) (file : list Z)
    (font : rtgui_hz_file_font) (tr : trace) (code : Z) :
  reads_file os file ->
  cache_inv font ->
  all_entries (holds_record font file) (cache_root font) = true ->
  exists r font' tr',
    _font_cache_get os font tr code = Done (r, font', tr')
    /\ (forall b, r = Some b -> b = file_record font file code)
    /\ all_entries (holds_record font file) (cache_root font') = true
    /\ font_data_size font' = font_data_size font
    /\ cache_inv font'.
Proof.
  intros Rd Inv Ent.
  destruct (font_cache_get_spec os font tr code Inv)
    as (r & font' & tr' & Run & Inv' & _).
  exists r, font', tr'. split; [exact Run|].
  pose proof (font_opened_fields os font tr) as (OR & _ & _ & OD & _).
  apply font_cache_get_paths in Run.
  destruct Run as [(e & F & -> & -> & ->)
                  | [(M & A & -> & -> & ->)
                    | [(M & A & -> & -> & T) | (M & A & Fd & _ & -> & Ins)]]].
  - split; [|auto]. intros b [= <-].
    pose proof (all_entries_find _ _ _ _ Ent F) as H.
    apply holds_record_eq in H. rewrite H, (find_key _ _ _ F). reflexivity.
  - split; [discriminate | auto].
  - rewrite OR, OD. split; [discriminate | auto].
  - assert (Rec : record_read os font tr code = file_record font file code).
    { unfold record_read, read, file_record. now rewrite Rd. }
    split; [now intros b [= <-]|].
    apply (cache_insert_entries (holds_record font file)) in Ins.
    + destruct Ins as (E & _ & D). rewrite D, OD. auto.
    + now rewrite OR.
    + apply holds_record_eq. exact Rec.
Qed.

Lemma lookup_returns_file_record_witness :
  reads_file (file_os zero_file) zero_file
  /\ cache_inv (new_font 8)
  /\ all_entries (holds_record (new_font 8) zero_file)
       (cache_root (new_font 8)) = true
  /\ exists r font' tr',
       _font_cache_get (file_os zero_file) (new_font 8) [] 0xA1A1
         = Done (r, font', tr')
       /\ (forall b, r = Some b -> b = file_record (new_font 8) zero_file 0xA1A1).
Proof.
  split; [apply file_os_reads_file|]. split; [apply cache_inv_new|].
  split; [reflexivity|].
  destruct (lookup_returns_file_record (file_os zero_file) zero_file
              (new_font 8) [] 0xA1A1 (file_os_reads_file zero_file)
              (cache_inv_new 8) eq_refl) as (r & font' & tr' & Run & B & _).
  exists r, font', tr'. split; [exact Run | exact B].
Defined.

(** ** Eviction happens at capacity only, and ignores recency *)

Lemma lookup_below_capacity_keeps (os : os_model) (font : rtgui_hz_file_font)
    (tr : trace) (code : Z) :
  cache_inv font ->
  cache_size font < HZ_CACHE_MAX ->
  exists r font' tr',
    _font_cache_get os font tr code = Done (r, font', tr')
    /\ (forall x e, SPLAY_FIND (cache_root font) x = Some e ->
                    SPLAY_FIND (cache_root font') x = Some e)
    /\ cache_size font <= cache_size font' <= cache_size font + 1.
Proof.
  intros Inv Room.
  destruct (font_cache_get_spec os font tr code Inv)
    as (r & font' & tr' & Run & Inv' & _).
  exists r, font', tr'. split; [exact Run|].
  pose proof (font_opened_fields os font tr) as (OR & OS & _).
  apply font_cache_get_paths in Run.
  destruct Run as [(e & F & -> & -> & ->)
                  | [(M & A & -> & -> & ->)
                    | [(M & A & -> & -> & T) | (M & A & Fd & _ & -> & Ins)]]].
  - split; [auto | lia].
  - split; [auto | lia].
  - rewrite OR, OS. split; [auto | lia].
  - apply cache_insert_paths in Ins. rewrite OR, OS in Ins.
    destruct Ins as [(Full & _) | (_ & Root & Size & _)]; [lia|].
    destruct Inv as (_ & Sz & Le). unfold HZ_CACHE_MAX in *.
    rewrite to_uint16_small in Size by lia.
    rewrite Root, Size. split; [|lia].
    intros x e F. rewrite find_insert. cbn [hz_id].
    destruct (Z.eqb_spec (hz_id x) code) as [E|N]; [|exact F].
    unfold cache_miss in M.
    rewrite (find_same_key (cache_root font) x (mk_hz_cache code [])) in F
      by exact E.
    congruence.
Qed.

(** X7: while [cache_size] is below 64 a lookup evicts nothing: every
    other code is found exactly as before, an entry already cached for
    the code is kept, [rtgui_free] is called only for a block whose load
    failed, and [cache_size] grows by at most one. *)
Theorem no_eviction_below_capacity (os : os_model) (font : rtgui_hz_file_font)
    (tr : trace) (code : Z) :
  cache_inv font ->
  cache_size font < HZ_CACHE_MAX ->
  exists r font' tr',
    _font_cache_get os font tr code = Done (r, font', tr')
    /\ (forall x, hz_id x <> code ->
          SPLAY_FIND (cache_root font') x = SPLAY_FIND (cache_root font) x)
    /\ (forall e, SPLAY_FIND (cache_root font) (mk_hz_cache code []) = Some e ->
          SPLAY_FIND (cache_root font') (mk_hz_cache code []) = Some e)
    /\ frees tr' = (frees tr + match r with
                                | Some _ => 0
                                | None =>
                                    if os_malloc os tr (font_data_size font)
                                    then 1 else 0
                                end)%nat
    /\ cache_size font <= cache_size font' <= cache_size font + 1.
Proof.
  intros Inv Room.
  destruct (font_cache_get_spec os font tr code Inv)
    as (r & font' & tr' & Run & Inv' & _).
  exists r, font', tr'. split; [exact Run|].
  pose proof (font_opened_fields os font tr) as (OR & OS & _).
  apply font_cache_get_paths in Run. unfold alloc_fails in Run.
  destruct Run as [(e & F & -> & -> & ->)
                  | [(M & A & -> & -> & ->)
                    | [(M & A & -> & -> & T) | (M & A & Fd & _ & -> & Ins)]]];
    rewrite ?A.
  - repeat split; auto; lia.
  - repeat split; auto; try lia; count_events; lia.
  - rewrite OR, OS. repeat split; auto; try lia.
    destruct T as [-> | [-> | ->]]; count_events; lia.
  - apply cache_insert_paths in Ins. rewrite OR, OS in Ins.
    destruct Ins as [(Full & _) | (_ & Root & Size & ->)]; [lia|].
    destruct Inv as (_ & Sz & Le). unfold HZ_CACHE_MAX in *.
    rewrite to_uint16_small in Size by lia.
    rewrite Root, Size. repeat split; try lia.
    + intros x Hx. rewrite find_insert. cbn [hz_id].
      now rewrite (proj2 (Z.eqb_neq _ _) Hx).
    + intros e F. unfold cache_miss in M. congruence.
    + count_events; lia.
Qed.


Lemma no_eviction_below_capacity_witness :
  cache_inv (new_font 8)
  /\ cache_size (new_font 8) < HZ_CACHE_MAX
  /\ exists r font' tr',
       _font_cache_get (file_os zero_file) (new_font 8) [] 0xA1A1
         = Done (r, font', tr')
       /\ cache_size (new_font 8) <= cache_size font' <= cache_size (new_font 8) + 1.
Proof.
  assert (Room : cache_size (new_font 8) < HZ_CACHE_MAX) by reflexivity.
  split; [apply cache_inv_new|]. split; [exact Room|].
  destruct (no_eviction_below_capacity (file_os zero_file) (new_font 8) []
              0xA1A1 (cache_inv_new 8) Room)
    as (r & font' & tr' & Run & _ & _ & _ & B).
  exists r, font', tr'. split; [exact Run | exact B].
Defined.

(** X8: eviction ignores recency.  At capacity, a glyph whose code is
    below every cached key is loaded, and the next lookup that loads a
    different glyph evicts it again: the glyph loaded last is the first
    to go. *)
Theorem newest_entry_is_evicted_first (os os' : os_model)
    (font font1 font2 : rtgui_hz_file_font) (tr tr1 tr2 : trace)
    (c1 c2 : Z) (b1 b2 : list Z) :
  cache_inv font ->
  cache_size font = HZ_CACHE_MAX ->
  (forall x e, SPLAY_FIND (cache_root font) x = Some e -> c1 < hz_id e) ->
  _font_cache_get os font tr c1 = Done (Some b1, font1, tr1) ->
  c2 <> c1 ->
  cache_miss font1 c2 ->
  _font_cache_get os' font1 tr1 c2 = Done (Some b2, font2, tr2) ->
  cache_miss font2 c1.
Proof.
  intros Inv Full Small Run1 Ne Miss2 Run2.
  assert (Miss1 : cache_miss font c1).
  { unfold cache_miss.
    destruct (SPLAY_FIND (cache_root font) (mk_hz_cache c1 [])) as [e|] eqn:F;
      [|reflexivity].
    pose proof (Small _ _ F). pose proof (find_key _ _ _ F). cbn in *. lia. }
  destruct (font_cache_get_spec os font tr c1 Inv)
    as (r & f & t & Run & Inv1 & _ & Ev1).
  rewrite Run1 in Run. injection Run as <- <- <-.
  destruct (Ev1 Full Miss1 b1 eq_refl) as (lft & L & Fl & Min & Look1 & _ & Full1).
  destruct (font_cache_get_spec os' font1 tr1 c2 Inv1)
    as (r & f & t & Run & _ & _ & Ev2).
  rewrite Run2 in Run. injection Run as <- <- <-.
  destruct (Ev2 Full1 Miss2 b2 eq_refl) as (lft2 & L2 & Fl2 & Min2 & Look2 & _).
  (* the leftmost entry of [font1] is the one just loaded *)
  assert (In1 : SPLAY_FIND (cache_root font1) (mk_hz_cache c1 [])
                = Some (mk_hz_cache c1 b1)).
  { rewrite Look1. cbn [hz_id]. now rewrite Z.eqb_refl. }
  pose proof (Min2 _ _ In1) as Le. cbn [hz_id] in Le.
  assert (K : hz_id lft2 = c1).
  { destruct (Z.eq_dec (hz_id lft2) c1) as [E|N]; [exact E|].
    rewrite Look1 in Fl2. rewrite (proj2 (Z.eqb_neq _ _) N) in Fl2.
    destruct (hz_id lft2 =? hz_id lft); [discriminate|].
    pose proof (Small _ _ Fl2). lia. }
  unfold cache_miss. rewrite Look2. cbn [hz_id].
  rewrite (proj2 (Z.eqb_neq _ _) (not_eq_sym Ne)).
  now rewrite K, Z.eqb_refl.
Qed.

Lemma newest_entry_is_evicted_first_witness :
  cache_inv full_font
  /\ cache_size full_font = HZ_CACHE_MAX
  /\ exists b1 font1 tr1 b2 font2 tr2,
       _font_cache_get (file_os zero_file) full_font [] 0xA0A2
         = Done (Some b1, font1, tr1)
       /\ _font_cache_get (file_os zero_file) font1 tr1 0xE1A1
          = Done (Some b2, font2, tr2)
       /\ cache_miss font2 0xA0A2.
Proof.
  split; [exact full_font_inv|]. split; [reflexivity|].
  do 6 eexists.
  split; [vm_compute; reflexivity|].
  split; [vm_compute; reflexivity|].
  eapply (newest_entry_is_evicted_first (file_os zero_file) (file_os zero_file)
            full_font _ _ [] _ _ 0xA0A2 0xE1A1).
  - exact full_font_inv.
  - reflexivity.
  - intros x e F.
    assert (A : all_keys (fun k => 0xA0A2 <? k) (cache_root full_font) = true)
      by (vm_compute; reflexivity).
    destruct (all_keys_find _ _ _ _ A F) as [H _]. lia.
  - vm_compute. reflexivity.
  - lia.
  - vm_compute. reflexivity.
  - vm_compute. reflexivity.
Defined.

(** ** Loading the font, then looking glyphs up *)

Lemma get_all_keeps_descriptor (os : os_model) (codes : list Z) :
  forall font tr,
    cache_inv font ->
    exists font2 tr2,
      get_all os font tr codes = Done (font2, tr2)
      /\ cache_inv font2
      /\ font_fn font2 = font_fn font
      /\ (opens tr2 <= opens tr + List.length codes)%nat
      /\ (0 <= fd font -> fd font2 = fd font /\ opens tr2 = opens tr).
Proof.
  induction codes as [|c rest IH]; intros font tr Inv; cbn [get_all].
  - exists font, tr. split; [reflexivity|]. split; [exact Inv|].
    split; [reflexivity|]. split; [cbn; lia | auto].
  - destruct (font_cache_get_spec os font tr c Inv)
      as (r0 & f0 & t0 & Run0 & Inv1 & _).
    destruct (lookup_keeps_descriptor os font tr c Inv)
      as (r & font1 & tr1 & Run & O1 & Fn & Open).
    rewrite Run0 in Run. injection Run as <- <- <-.
    rewrite Run0. cbn [obind fst snd].
    destruct (IH f0 t0 Inv1) as (font2 & tr2 & Runs & Inv2 & Fn2 & O2 & Open2).
    exists font2, tr2. split; [exact Runs|]. split; [exact Inv2|].
    split; [congruence|]. split; [cbn [List.length]; lia|].
    intros H. destruct (Open H) as (E1 & E2).
    destruct Open2 as [E3 E4]; [lia|]. split; congruence.
Qed.

(** X9: [rtgui_hz_file_font_load] opens the file once and leaves the
    cache as it was; it prints nothing when the open succeeds and two
    lines when it fails; and after a successful load no sequence of
    lookups opens the file again or changes the descriptor. *)
Theorem load_then_lookups (os os' : os_model) (font : rtgui_hz_file_font)
    (tr : trace) (console : list string) (codes : list Z) :
  cache_inv font ->
  let res := rtgui_hz_file_font_load os font tr console in
  let font1 := fst (fst res) in
  let tr1 := snd (fst res) in
  cache_root font1 = cache_root font
  /\ cache_size font1 = cache_size font
  /\ opens tr1 = S (opens tr)
  /\ (0 <= fd font1 -> snd res = console)
  /\ (fd font1 < 0 ->
      List.length (snd res) = (List.length console + 2)%nat)
  /\ exists font2 tr2,
       get_all os' font1 tr1 codes = Done (font2, tr2)
       /\ cache_inv font2
       /\ (0 <= fd font1 -> fd font2 = fd font1 /\ opens tr2 = opens tr1).
Proof.
  intros Inv res font1 tr1.
  assert (Shape : font1 = set_fd font (os_open os tr (font_fn font))
                  /\ tr1 = ev_open (font_fn font) :: tr
                  /\ (0 <= fd font1 -> snd res = console)
                  /\ (fd font1 < 0 ->
                      List.length (snd res) = (List.length console + 2)%nat)).
  { subst font1 tr1 res. unfold rtgui_hz_file_font_load.
    destruct (Z.ltb_spec (fd (set_fd font (os_open os tr (font_fn font)))) 0);
      cbn [fst snd]; repeat split; auto; try lia.
    intros _. rewrite length_app. reflexivity. }
  destruct Shape as (F1 & T1 & Quiet & Loud).
  assert (Inv1 : cache_inv font1) by (rewrite F1; exact Inv).
  split; [now rewrite F1|]. split; [now rewrite F1|].
  split; [rewrite T1; count_events; reflexivity|].
  split; [exact Quiet|]. split; [exact Loud|].
  destruct (get_all_keeps_descriptor os' codes font1 tr1 Inv1)
    as (font2 & tr2 & Run & Inv2 & _ & _ & Open).
  exists font2, tr2. auto.
Qed.

Lemma load_then_lookups_witness :
  cache_inv (new_font 8)
  /\ exists font2 tr2,
       get_all (file_os zero_file)
         (fst (fst (rtgui_hz_file_font_load (file_os zero_file) (new_font 8) [] [])))
         (snd (fst (rtgui_hz_file_font_load (file_os zero_file) (new_font 8) [] [])))
         [0xA1A1; 0xA2A1; 0xA1A1]
       = Done (font2, tr2)
       /\ fd font2 = 3 /\ opens tr2 = 1%nat.
Proof.
  split; [apply cache_inv_new|].
  destruct (load_then_lookups (file_os zero_file) (file_os zero_file)
              (new_font 8) [] [] [0xA1A1; 0xA2A1; 0xA1A1] (cache_inv_new 8))
    as (_ & _ & _ & _ & _ & font2 & tr2 & Run & _ & Open).
  exists font2, tr2. split; [exact Run|].
  destruct Open as [E1 E2]; [cbn; lia|]. split; [exact E1 | exact E2].
Defined.

(** ** Where and how much the rasterizer paints *)

Lemma for_range_length (n : Z) : List.length (for_range n) = Z.to_nat n.
Proof. unfold for_range. now rewrite length_map, length_seq. Qed.

Lemma flat_map_length_le {A B} (f : A -> list B) (c : nat) (l : list A) :
  (forall x, In x l -> (List.length (f x) <= c)%nat) ->
  (List.length (flat_map f l) <= c * List.length l)%nat.
Proof.
  induction l as [|a l IH]; intros H; cbn [flat_map List.length]; [lia|].
  rewrite length_app. pose proof (H a (or_introl eq_refl)).
  assert (List.length (flat_map f l) <= c * List.length l)%nat
    by (apply IH; intros; apply H; now right).
  lia.
Qed.

Lemma flat_map_length_eq {A B} (f : A -> list B) (c : nat) (l : list A) :
  (forall x, In x l -> List.length (f x) = c) ->
  List.length (flat_map f l) = (c * List.length l)%nat.
Proof.
  induction l as [|a l IH]; intros H; cbn [flat_map List.length]; [lia|].
  rewrite length_app, (H a (or_introl eq_refl)).
  rewrite IH by (intros; apply H; now right). lia.
Qed.

Lemma glyph_pixel_one (flag : Z) (gc : rtgui_gc) (font_ptr : list Z)
    (rect : rtgui_rect) (word_bytes i j k : Z) :
  0 <= k < 8 ->
  (List.length (glyph_pixel flag gc font_ptr rect word_bytes i j k) <= 1)%nat
  /\ (draws_background flag gc = true ->
      List.length (glyph_pixel flag gc font_ptr rect word_bytes i j k) = 1%nat)
  /\ (draws_background flag gc = false ->
      forallb is_foreground
        (glyph_pixel flag gc font_ptr rect word_bytes i j k) = true).
Proof.
  intros Hk. rewrite pixel_cases by assumption.
  destruct (_ && _); destruct (draws_background flag gc); cbn;
    repeat split; auto; discriminate.
Qed.

(** X10: every call the rasterizer makes for one glyph is a point, in
    the foreground or in the background colour of the context, with
    [x1 <= x < x1 + 8 * ceil(S/8)] and [y1 <= y < y1 + S], and never at or
    below [y2]: the rectangle clips rows for both kinds of pixel. *)
Theorem glyph_pixels_stay_in_cell
    (flag : Z) (gc : rtgui_gc) (font : rtgui_hz_file_font)
    (font_ptr : list Z) (rect : rtgui_rect) :
  0 <= font_size font ->
  Z.of_nat (List.length font_ptr) = font_size font * row_bytes font ->
  exists ops,
    draw_word flag gc font_ptr rect (drawing_height font rect) (row_bytes font)
      = Done ops
    /\ forall o, In o ops ->
         exists x y,
           (o = dc_draw_point x y
            \/ o = dc_draw_color_point x y (background gc))
           /\ x1 rect <= x < x1 rect + 8 * row_bytes font
           /\ x < x1 rect + font_size font + 7
           /\ y1 rect <= y < y1 rect + font_size font
           /\ y < y2 rect.
Proof.
  intros HS HL.
  pose proof (bitmap_rows_fit font rect font_ptr HS HL) as Fit.
  eexists. split; [now apply draw_word_pixels|].
  intros o Ho. apply in_pixels in Ho.
  destruct Ho as (i & j & k & (Hi & Hj & Hk) & Ho).
  rewrite drawing_height_min in Hi.
  destruct (row_bytes_ceil font HS) as [_ B].
  rewrite pixel_cases in Ho by assumption.
  exists (x1 rect + 8 * j + k), (y1 rect + i).
  split; [|lia].
  destruct (_ && _); [destruct Ho as [<-|[]]; auto|].
  destruct (draws_background flag gc); [destruct Ho as [<-|[]]; auto | destruct Ho].
Qed.

Lemma glyph_pixels_stay_in_cell_witness :
  0 <= font_size (new_font 8)
  /\ Z.of_nat (List.length corner_glyph)
     = font_size (new_font 8) * row_bytes (new_font 8)
  /\ exists ops,
       draw_word 1 (mk_gc 1 7) corner_glyph (mk_rect 10 20 14 24) 4 1 = Done ops
       /\ forall o, In o ops ->
            exists x y,
              (o = dc_draw_point x y \/ o = dc_draw_color_point x y 7)
              /\ 10 <= x < 18 /\ 20 <= y < 24.
Proof.
  assert (HS : 0 <= font_size (new_font 8)) by (cbn; lia).
  assert (HL : Z.of_nat (List.length corner_glyph)
               = font_size (new_font 8) * row_bytes (new_font 8)) by reflexivity.
  split; [exact HS|]. split; [exact HL|].
  destruct (glyph_pixels_stay_in_cell 1 (mk_gc 1 7) (new_font 8) corner_glyph
              (mk_rect 10 20 14 24) HS HL) as (ops & Run & In).
  exists ops. split; [exact Run|].
  intros o Ho. destruct (In o Ho) as (x & y & K & X & _ & Y & Y2).
  exists x, y. cbn in *. repeat split; auto; lia.
Defined.

(** X11: for one glyph whose bitmap the lookup returns, the pass of the
    rasterizer adds to the calls made so far at most
    [8 * ceil(S/8) * max(0, h)] calls; with the background style it adds
    exactly that many, one per visited bit, and without it every call it
    adds is a foreground point. *)
Theorem background_fill_paints_each_position_once
    (os : os_model) (flag : Z) (gc : rtgui_gc) (mem : list Z)
    (str len : Z) (st : draw_state)
    (font_ptr : list Z) (font' : rtgui_hz_file_font) (tr' : trace) :
  font_wf (ds_font st) ->
  0 <= str -> str + 2 <= Z.of_nat (List.length mem) ->
  _font_cache_get os (ds_font st) (ds_trace st) (glyph_code_at mem str)
    = Done (Some font_ptr, font', tr') ->
  let h := drawing_height (ds_font st) (ds_rect st) in
  let word_bytes := row_bytes (ds_font st) in
  exists ops st',
    hz_draw_glyph os flag gc mem h word_bytes str len st
      = Done (str + 2, to_ubase (len - 2), st')
    /\ ds_ops st' = ds_ops st ++ ops
    /\ draw_word flag gc font_ptr (ds_rect st) h word_bytes = Done ops
    /\ Z.of_nat (List.length ops) <= 8 * word_bytes * Z.max 0 h
    /\ Z.of_nat (List.length (ds_ops st'))
       <= Z.of_nat (List.length (ds_ops st)) + 8 * word_bytes * Z.max 0 h
    /\ (draws_background flag gc = true ->
        Z.of_nat (List.length ops) = 8 * word_bytes * Z.max 0 h
        /\ Z.of_nat (List.length (ds_ops st'))
           = Z.of_nat (List.length (ds_ops st)) + 8 * word_bytes * Z.max 0 h)
    /\ (draws_background flag gc = false ->
        forallb is_foreground ops = true).
Proof.
  intros Wf Hs Hm Get h word_bytes.
  assert (HS : 0 <= font_size (ds_font st)) by apply Wf.
  destruct (hz_draw_glyph_bitmap os flag gc mem str len st font_ptr font' tr'
              Wf Hs Hm Get) as [Draw Pass].
  destruct (row_bytes_ceil (ds_font st) HS) as [_ B].
  assert (N : Z.of_nat (8 * Z.to_nat word_bytes * Z.to_nat h)
              = 8 * word_bytes * Z.max 0 h).
  { rewrite !Nat2Z.inj_mul. rewrite (Z2Nat.id word_bytes) by (subst word_bytes; lia).
    destruct (Z.le_gt_cases 0 h).
    - rewrite Z2Nat.id, Z.max_r by lia. reflexivity.
    - rewrite Z.max_l by lia. replace (Z.to_nat h) with 0%nat by lia.
      cbn. lia. }
  set (ops := glyph_pixels flag gc font_ptr (ds_rect st) h word_bytes) in *.
  assert (Le : Z.of_nat (List.length ops) <= 8 * word_bytes * Z.max 0 h).
  { subst ops. unfold glyph_pixels. rewrite <- N. apply inj_le.
    replace (8 * Z.to_nat word_bytes * Z.to_nat h)%nat
      with ((8 * Z.to_nat word_bytes) * List.length (for_range h))%nat
      by (now rewrite for_range_length).
    apply flat_map_length_le. intros i _.
    replace (8 * Z.to_nat word_bytes)%nat
      with (8 * List.length (for_range word_bytes))%nat
      by (now rewrite for_range_length).
    apply flat_map_length_le. intros j _.
    change 8%nat with (1 * List.length (for_range 8))%nat.
    apply flat_map_length_le. intros k Hk. apply for_range_In in Hk.
    now apply glyph_pixel_one. }
  assert (Eq : draws_background flag gc = true ->
               Z.of_nat (List.length ops) = 8 * word_bytes * Z.max 0 h).
  { intros Bg. subst ops. unfold glyph_pixels. rewrite <- N. f_equal.
    rewrite (flat_map_length_eq _ (8 * Z.to_nat word_bytes)%nat).
    { rewrite for_range_length. lia. }
    intros i _.
    rewrite (flat_map_length_eq _ 8%nat).
    { rewrite for_range_length. lia. }
    intros j _.
    rewrite (flat_map_length_eq _ 1%nat); [reflexivity|].
    intros k Hk. apply for_range_In in Hk.
    now apply glyph_pixel_one. }
  exists ops. eexists. split; [exact Pass|].
  cbn [ds_ops]. split; [reflexivity|]. split; [exact Draw|].
  split; [exact Le|].
  rewrite length_app, Nat2Z.inj_add.
  split; [apply Z.add_le_mono_l; exact Le|]. split.
  - intros Bg. split; [exact (Eq Bg)|]. apply Z.add_cancel_l. exact (Eq Bg).
  - intros NoBg. apply forallb_forall. intros o Ho.
    subst ops. unfold glyph_pixels in Ho.
    apply in_flat_map in Ho. destruct Ho as (i & _ & Ho).
    apply in_flat_map in Ho. destruct Ho as (j & _ & Ho).
    apply in_flat_map in Ho. destruct Ho as (k & Hk & Ho).
    apply for_range_In in Hk.
    destruct (glyph_pixel_one flag gc font_ptr (ds_rect st) word_bytes i j k Hk)
      as (_ & _ & Fg).
    specialize (Fg NoBg). rewrite forallb_forall in Fg. now apply Fg.
Qed.

Lemma background_fill_paints_each_position_once_witness :
  font_wf (new_font 8)
  /\ draws_background 1 (mk_gc 1 7) = true
  /\ (exists font' tr',
        _font_cache_get (file_os corner_file) (new_font 8) []
          (glyph_code_at [0xA1; 0xA2; 0] 0)
        = Done (Some corner_glyph, font', tr'))
  /\ exists st',
       hz_draw_glyph (file_os corner_file) 1 (mk_gc 1 7) [0xA1; 0xA2; 0] 5 1
         0 2 (mk_draw_state (new_font 8) [] [] (mk_rect 0 0 5 5))
       = Done (2, 0, st')
       /\ Z.of_nat (List.length (ds_ops st')) = 40.
Proof.
  assert (Wf : font_wf (new_font 8)) by (apply font_wf_new; lia).
  assert (Hs : 0 <= 0) by lia.
  assert (Hm : 0 + 2 <= Z.of_nat (List.length [0xA1; 0xA2; 0])) by (cbn; lia).
  assert (Bg : draws_background 1 (mk_gc 1 7) = true) by reflexivity.
  assert (Get : exists font' tr',
             _font_cache_get (file_os corner_file) (new_font 8) []
               (glyph_code_at [0xA1; 0xA2; 0] 0)
             = Done (Some corner_glyph, font', tr'))
    by (do 2 eexists; vm_compute; reflexivity).
  split; [exact Wf|]. split; [exact Bg|]. split; [exact Get|].
  destruct Get as (font' & tr' & Get).
  destruct (background_fill_paints_each_position_once (file_os corner_file) 1
              (mk_gc 1 7) [0xA1; 0xA2; 0] 0 2
              (mk_draw_state (new_font 8) [] [] (mk_rect 0 0 5 5))
              corner_glyph font' tr' Wf Hs Hm Get)
    as (ops & st' & Pass & _ & _ & _ & _ & Eq & _).
  exists st'. split; [exact Pass|]. exact (proj2 (Eq Bg)).
Defined.

(** ** The draw call hands the runs of the grouping over in order *)

Section LoopDispatch.

Variable St : Type.
Variable on_ascii : Z -> Z -> St -> outcome St.
Variable on_hz : Z -> Z -> St -> outcome St.
Variable mem : list Z.
Variable rest : list Z.

Lemma dispatch_emit (k : run_kind) (run : list Z) (p : Z)
    (rs : list (run_kind * list Z)) (st : St) :
  dispatch_runs St on_ascii on_hz p (emit_run k run ++ rs) st
  = (st' <- (if Z.of_nat (List.length run) >? 0
             then match k with
                  | ASCII => on_ascii p (Z.of_nat (List.length run)) st
                  | DOUBLE => on_hz p (Z.of_nat (List.length run)) st
                  end
             else Done st) ;;
     dispatch_runs St on_ascii on_hz (p + Z.of_nat (List.length run)) rs st').
Proof.
  destruct run as [|b run].
  - cbn. now rewrite Z.add_0_r.
  - cbn [emit_run app dispatch_runs].
    now rewrite (proj2 (Z.gtb_gt _ _)) by (cbn [List.length]; lia).
Qed.

Lemma draw_text_loop_dispatches :
  forall (fuel : nat) (s pre : list Z) (st : St),
    mem = pre ++ s ++ 0 :: rest ->
    Forall nonzero_byte s ->
    (List.length s < fuel)%nat ->
    Z.of_nat (List.length s) < 2 ^ 32 ->
    draw_text_loop St on_ascii on_hz mem fuel
      (Z.of_nat (List.length pre)) (Z.of_nat (List.length s)) st
    = dispatch_runs St on_ascii on_hz (Z.of_nat (List.length pre))
        (group_runs s) st.
Proof.
  induction fuel as [|fuel IH]; intros s pre st M NZ Fu Len; [lia|].
  cbn [draw_text_loop].
  destruct s as [|b0 s0]; [reflexivity|].
  rewrite (proj2 (Z.gtb_gt _ _)) by (cbn [List.length]; lia).
  remember (b0 :: s0) as s eqn:Es.
  destruct (split_prefix (fun b => b <? 0x80) s) as (a & s1 & E1 & A & Stop1).
  destruct (split_prefix (fun b => b >=? 0x80) s1) as (h & s2 & E2 & H & Stop2).
  assert (NZa : Forall nonzero_byte a /\ Forall nonzero_byte s1).
  { rewrite E1 in NZ. now apply Forall_app in NZ. }
  destruct NZa as [NZa NZ1].
  assert (NZh : Forall nonzero_byte h /\ Forall nonzero_byte s2).
  { rewrite E2 in NZ1. now apply Forall_app in NZ1. }
  destruct NZh as [NZh NZ2].
  assert (La : Z.of_nat (List.length s)
               = Z.of_nat (List.length a) + Z.of_nat (List.length s1)).
  { rewrite E1, length_app. lia. }
  assert (Lh : Z.of_nat (List.length s1)
               = Z.of_nat (List.length h) + Z.of_nat (List.length s2)).
  { rewrite E2, length_app. lia. }
  assert (Progress : (List.length s2 < List.length s)%nat).
  { destruct a as [|a0 a']; [|cbn [List.length] in La; lia].
    cbn [app] in E1. subst s1.
    destruct h as [|h0 h']; [|cbn [List.length] in Lh; lia].
    cbn [app] in E2. subst s2. rewrite Es in Stop1, Stop2.
    specialize (Stop1 b0 eq_refl). specialize (Stop2 b0 eq_refl).
    cbn beta in *. lia. }
  (* the grouping starts with what the two scans find *)
  assert (G : group_runs s
              = emit_run ASCII a ++ emit_run DOUBLE h ++ group_runs s2).
  { rewrite E1, E2. rewrite (group_runs_prefix ASCII a (h ++ s2)).
    - f_equal. apply (group_runs_prefix DOUBLE h s2).
      + rewrite Forall_forall in *. intros c Hc. specialize (H c Hc).
        cbn beta in H. unfold byte_kind.
        now replace (c <? 128) with false by lia.
      + intros c Hc. specialize (Stop2 c Hc). cbn beta in Stop2.
        unfold byte_kind. replace (c <? 128) with true by lia. discriminate.
    - rewrite Forall_forall in *. intros c Hc. specialize (A c Hc).
      cbn beta in A. unfold byte_kind. now rewrite A.
    - intros c Hc. unfold byte_kind.
      assert (Hd : hd_error s1 = Some c) by (now rewrite E2).
      specialize (Stop1 c Hd). cbn beta in Stop1. rewrite Stop1. discriminate. }
  rewrite G, dispatch_emit.
  (* the ASCII scan *)
  destruct (stop_byte (fun c => c >= 0x80 \/ c = 0) s1 rest)
    as (stop1 & tl1 & T1 & St1).
  { intros c Hc. left. specialize (Stop1 c Hc). cbn beta in Stop1. lia. }
  { now right. }
  rewrite (scan_ascii_run mem a pre stop1 tl1); try lia.
  2:{ rewrite M, E1, <- app_assoc, <- T1. reflexivity. }
  2:{ rewrite Forall_forall in *. intros c Hc.
      specialize (A c Hc). specialize (NZa c Hc). unfold nonzero_byte in NZa.
      cbn beta in A. lia. }
  cbn [obind]. rewrite Z.add_0_l.
  destruct (if Z.of_nat (List.length a) >? 0
            then on_ascii (Z.of_nat (List.length pre))
                   (Z.of_nat (List.length a)) st
            else Done st) as [st1| |]; cbn [obind]; try reflexivity.
  replace (if Z.of_nat (List.length a) >? 0
           then Z.of_nat (List.length pre) + Z.of_nat (List.length a)
           else Z.of_nat (List.length pre))
    with (Z.of_nat (List.length (pre ++ a)))
    by (rewrite length_app; destruct (Z.gtb_spec (Z.of_nat (List.length a)) 0); lia).
  replace (if Z.of_nat (List.length a) >? 0
           then to_uint32 (Z.of_nat (List.length s) - Z.of_nat (List.length a))
           else Z.of_nat (List.length s))
    with (Z.of_nat (List.length s1))
    by (destruct (Z.gtb_spec (Z.of_nat (List.length a)) 0);
        [rewrite to_uint32_small by lia|]; lia).
  replace (Z.of_nat (List.length pre) + Z.of_nat (List.length a))
    with (Z.of_nat (List.length (pre ++ a))) by (rewrite length_app; lia).
  rewrite dispatch_emit.
  (* the double-byte scan *)
  destruct (stop_byte (fun c => c < 0x80) s2 rest) as (stop2 & tl2 & T2 & St2).
  { intros c Hc. specialize (Stop2 c Hc). cbn beta in Stop2. lia. }
  { lia. }
  rewrite (scan_hz_run mem h (pre ++ a) stop2 tl2); try lia.
  2:{ rewrite M, E1, E2, <- !app_assoc, <- T2. reflexivity. }
  2:{ rewrite Forall_forall in *. intros c Hc.
      specialize (H c Hc). cbn beta in H. lia. }
  cbn [obind]. rewrite Z.add_0_l.
  destruct (if Z.of_nat (List.length h) >? 0
            then on_hz (Z.of_nat (List.length (pre ++ a)))
                   (Z.of_nat (List.length h)) st1
            else Done st1) as [st2| |]; cbn [obind]; try reflexivity.
  replace (if Z.of_nat (List.length h) >? 0
           then Z.of_nat (List.length (pre ++ a)) + Z.of_nat (List.length h)
           else Z.of_nat (List.length (pre ++ a)))
    with (Z.of_nat (List.length ((pre ++ a) ++ h)))
    by (rewrite (length_app (pre ++ a) h);
        destruct (Z.gtb_spec (Z.of_nat (List.length h)) 0); lia).
  replace (if Z.of_nat (List.length h) >? 0
           then to_uint32 (Z.of_nat (List.length s1) - Z.of_nat (List.length h))
           else Z.of_nat (List.length s1))
    with (Z.of_nat (List.length s2))
    by (destruct (Z.gtb_spec (Z.of_nat (List.length h)) 0);
        [rewrite to_uint32_small by lia|]; lia).
  replace (Z.of_nat (List.length (pre ++ a)) + Z.of_nat (List.length h))
    with (Z.of_nat (List.length ((pre ++ a) ++ h)))
    by (rewrite (length_app (pre ++ a) h); lia).
  apply IH; try lia; try assumption.
  rewrite M, E1, E2, <- !app_assoc. reflexivity.
Qed.

End LoopDispatch.

(** X12: for a NUL-free transcoded string, the draw call is the runs of
    the grouping handed over in order, each with its offset and length:
    ASCII runs to the ASCII font (with the cursor moved afterwards),
    double-byte runs to the rasterizer; it stops at the first run that
    does not return. *)
Theorem draw_text_dispatches_runs (os : os_model) (flag : Z) (gc : rtgui_gc)
    (fuel : nat) (s rest : list Z) (st : draw_state) :
  Forall nonzero_byte s ->
  Z.of_nat (List.length s) < 2 ^ 32 ->
  rtgui_hz_file_font_draw_text os flag gc fuel (Some (s ++ 0 :: rest)) st
  = dispatch_runs draw_state
      (draw_ascii_run (s ++ 0 :: rest))
      (fun p n st0 =>
         _rtgui_hz_file_font_draw_text os flag gc fuel (s ++ 0 :: rest) p n st0)
      0 (group_runs s) st.
Proof.
  intros NZ Len. unfold rtgui_hz_file_font_draw_text.
  rewrite (strlen_terminated s rest NZ). cbn [obind].
  rewrite to_uint32_small by lia.
  apply (draw_text_loop_dispatches draw_state _ _ (s ++ 0 :: rest) rest _ s []);
    auto.
  rewrite length_app. cbn [List.length]. lia.
Qed.

Lemma draw_text_dispatches_runs_witness :
  Forall nonzero_byte [0x41; 0xB0; 0xA1]
  /\ rtgui_hz_file_font_draw_text no_file_os 1 (mk_gc 1 7) 4
       (Some [0x41; 0xB0; 0xA1; 0])
       (mk_draw_state (new_font 16) [] [] (mk_rect 0 0 100 16))
     = dispatch_runs draw_state
         (draw_ascii_run [0x41; 0xB0; 0xA1; 0])
         (fun p n st0 =>
            _rtgui_hz_file_font_draw_text no_file_os 1 (mk_gc 1 7) 4
              [0x41; 0xB0; 0xA1; 0] p n st0)
         0 [(ASCII, [0x41]); (DOUBLE, [0xB0; 0xA1])]
         (mk_draw_state (new_font 16) [] [] (mk_rect 0 0 100 16)).
Proof.
  assert (NZ : Forall nonzero_byte [0x41; 0xB0; 0xA1]) by (repeat constructor).
  split; [exact NZ|].
  apply (draw_text_dispatches_runs no_file_os 1 (mk_gc 1 7) 4
           [0x41; 0xB0; 0xA1] [] _ NZ).
  reflexivity.
Defined.

Lemma group_runs_single (k : run_kind) (s : list Z) :
  s <> [] -> Forall (fun b => byte_kind b = k) s -> group_runs s = [(k, s)].
Proof.
  intros Ne A. rewrite <- (app_nil_r s) at 1.
  rewrite (group_runs_prefix k s []); [|exact A|discriminate].
  destruct s; [congruence | reflexivity].
Qed.

(** A text that is one run goes to one engine, once. *)
Lemma draw_text_single_run (os : os_model) (flag : Z) (gc : rtgui_gc)
    (fuel : nat) (k : run_kind) (s rest : list Z) (st : draw_state) :
  s <> [] ->
  Forall nonzero_byte s ->
  Forall (fun b => byte_kind b = k) s ->
  Z.of_nat (List.length s) < 2 ^ 32 ->
  rtgui_hz_file_font_draw_text os flag gc fuel (Some (s ++ 0 :: rest)) st
  = match k with
    | ASCII => draw_ascii_run (s ++ 0 :: rest) 0 (Z.of_nat (List.length s)) st
    | DOUBLE =>
        _rtgui_hz_file_font_draw_text os flag gc fuel (s ++ 0 :: rest) 0
          (Z.of_nat (List.length s)) st
    end.
Proof.
  intros Ne NZ A Len. unfold rtgui_hz_file_font_draw_text.
  rewrite (strlen_terminated s rest NZ). cbn [obind].
  rewrite to_uint32_small by lia.
  rewrite (draw_text_loop_dispatches draw_state _ _ (s ++ 0 :: rest) rest _ s []);
    auto.
  2:{ rewrite length_app. cbn [List.length]. lia. }
  rewrite (group_runs_single k s Ne A).
  cbn [dispatch_runs List.length Z.of_nat].
  destruct k.
  - unfold draw_ascii_run. reflexivity.
  - destruct (_rtgui_hz_file_font_draw_text _ _ _ _ _ _ _ _); reflexivity.
Qed.

(** X13: a text of ASCII bytes only is drawn with one call of the ASCII
    font on the whole text; the font file is not touched, the cache and
    the trace of system calls stay as they were, and the cursor moves by
    [font_size / 2] per byte (in 16 bits). *)
Theorem ascii_text_needs_no_font_file (os : os_model) (flag : Z) (gc : rtgui_gc)
    (fuel : nat) (s rest : list Z) (st : draw_state) :
  s <> [] ->
  Forall (fun b => 0 < b < 0x80) s ->
  Z.of_nat (List.length s) < 2 ^ 32 ->
  rtgui_hz_file_font_draw_text os flag gc fuel (Some (s ++ 0 :: rest)) st
  = Done (mk_draw_state (ds_font st) (ds_trace st)
            (ds_ops st ++ [dc_font_draw s (ds_rect st)])
            (set_x1 (ds_rect st)
               (to_int16 (x1 (ds_rect st)
                          + Z.quot (font_size (ds_font st)) 2
                            * Z.of_nat (List.length s))))).
Proof.
  intros Ne A Len.
  assert (NZ : Forall nonzero_byte s).
  { eapply Forall_impl; [|exact A]. unfold nonzero_byte. intros; lia. }
  assert (K : Forall (fun b => byte_kind b = ASCII) s).
  { eapply Forall_impl; [|exact A]. cbn beta. intros b Hb.
    unfold byte_kind. now replace (b <? 128) with true by lia. }
  rewrite (draw_text_single_run os flag gc fuel ASCII s rest st Ne NZ K Len).
  unfold draw_ascii_run.
  rewrite (sub_bytes_at (s ++ 0 :: rest) [] s (0 :: rest)); auto.
Qed.

Lemma ascii_text_needs_no_font_file_witness :
  [0x48; 0x69] <> []
  /\ Forall (fun b => 0 < b < 0x80) [0x48; 0x69]
  /\ rtgui_hz_file_font_draw_text no_file_os 1 (mk_gc 1 7) 0
       (Some [0x48; 0x69; 0])
       (mk_draw_state (new_font 16) [] [] (mk_rect 0 0 100 16))
     = Done (mk_draw_state (new_font 16) []
               [dc_font_draw [0x48; 0x69] (mk_rect 0 0 100 16)]
               (mk_rect 16 0 100 16)).
Proof.
  assert (Ne : [0x48; 0x69] <> []) by discriminate.
  assert (A : Forall (fun b => 0 < b < 0x80) [0x48; 0x69])
    by (repeat constructor; lia).
  split; [exact Ne|]. split; [exact A|].
  assert (L : Z.of_nat (List.length [0x48; 0x69]) < 2 ^ 32) by reflexivity.
  exact (ascii_text_needs_no_font_file no_file_os 1 (mk_gc 1 7) 0
           [0x48; 0x69] []
           (mk_draw_state (new_font 16) [] [] (mk_rect 0 0 100 16)) Ne A L).
Defined.

(** ** A font file that cannot be opened *)

Lemma get_without_file (os : os_model) (font : rtgui_hz_file_font)
    (tr : trace) (code : Z) :
  (forall t fn, os_open os t fn < 0) ->
  cache_root font = SPLAY_NIL -> fd font < 0 ->
  exists font' tr',
    _font_cache_get os font tr code = Done (None, font', tr')
    /\ cache_root font' = SPLAY_NIL
    /\ cache_size font' = cache_size font
    /\ font_size font' = font_size font
    /\ fd font' < 0
    /\ (io_calls tr' + opens tr = io_calls tr + opens tr')%nat.
Proof.
  intros NoFile Empty Closed. unfold _font_cache_get. rewrite Empty. cbn [SPLAY_FIND].
  destruct (os_malloc os tr (font_data_size font)); cbn [negb].
  - rewrite (proj2 (Z.ltb_lt _ _) Closed). cbn [fst snd].
    pose proof (NoFile (ev_malloc (font_data_size font) :: tr) (font_fn font)) as O.
    unfold set_fd. cbn [fd]. rewrite (proj2 (Z.ltb_lt _ _) O).
    do 2 eexists. split; [reflexivity|].
    cbn [cache_root cache_size font_size fd].
    repeat split; auto; count_events; lia.
  - do 2 eexists. split; [reflexivity|].
    repeat split; auto; count_events; lia.
Qed.

Lemma hz_draw_loop_without_file (os : os_model) (flag : Z) (gc : rtgui_gc)
    (mem : list Z) (h word_bytes : Z) (n : nat) :
  (forall t fn, os_open os t fn < 0) ->
  forall (fuel : nat) (str : Z) (st : draw_state),
    cache_root (ds_font st) = SPLAY_NIL -> fd (ds_font st) < 0 ->
    0 <= str -> str + 2 * Z.of_nat n <= Z.of_nat (List.length mem) ->
    2 * Z.of_nat n < 2 ^ 32 ->
    (n <= fuel)%nat ->
    exists st',
      hz_draw_loop os flag gc fuel mem h word_bytes str (2 * Z.of_nat n) st
        = Done st'
      /\ ds_ops st' = ds_ops st
      /\ cache_root (ds_font st') = SPLAY_NIL
      /\ cache_size (ds_font st') = cache_size (ds_font st)
      /\ fd (ds_font st') < 0
      /\ (io_calls (ds_trace st') + opens (ds_trace st)
          = io_calls (ds_trace st) + opens (ds_trace st'))%nat.
Proof.
  intros NoFile.
  induction n as [|n IH]; intros fuel str st Empty Closed Hs Hm Hl Hf.
  - exists st. destruct fuel; cbn; repeat split; auto.
  - assert (T : hz_loop_test (2 * Z.of_nat (S n)) st
                = (x1 (ds_rect st) <? x2 (ds_rect st))).
    { unfold hz_loop_test. now rewrite (proj2 (Z.gtb_gt _ _)) by lia. }
    destruct (Z.ltb_spec (x1 (ds_rect st)) (x2 (ds_rect st))) as [In|Out].
    + destruct fuel as [|fuel]; [lia|].
      cbn [hz_draw_loop]. rewrite T.
      unfold hz_draw_glyph. rewrite !read_byte_nth by lia. cbn [obind].
      destruct (get_without_file os (ds_font st) (ds_trace st)
                  (to_uint16
                     (Z.lor (nth (Z.to_nat str) mem 0)
                        (Z.shiftl (nth (Z.to_nat (str + 1)) mem 0) 8)))
                  NoFile Empty Closed)
        as (font' & tr' & Run & E' & S' & _ & C' & IO).
      rewrite Run. cbn [obind fst snd].
      replace (to_ubase (2 * Z.of_nat (S n) - 2)) with (2 * Z.of_nat n)
        by (unfold to_ubase; rewrite Z.mod_small; lia).
      rewrite app_nil_r.
      destruct (IH fuel (str + 2)
                  (mk_draw_state font' tr' (ds_ops st)
                     (set_x1 (ds_rect st)
                        (to_int16 (x1 (ds_rect st) + font_size font'))))
                  E' C' ltac:(lia) ltac:(lia) ltac:(lia) ltac:(lia))
        as (st' & Loop & Ops & E2 & S2 & C2 & IO2).
      cbn [ds_font ds_trace ds_ops] in *.
      exists st'. split; [exact Loop|]. repeat split; auto; lia.
    + exists st. split.
      { destruct fuel; cbn [hz_draw_loop]; now rewrite T. }
      repeat split; auto.
Qed.

(** X14: when the font file cannot be opened and the cache is empty, a
    double-byte run of even length inside the buffer is drawn without a
    single pixel and without a fault: the cache stays empty, the
    descriptor stays invalid, and the only file calls made are the
    attempts to open. *)
Theorem unopenable_file_draws_nothing (os : os_model) (flag : Z) (gc : rtgui_gc)
    (mem : list Z) (text : Z) (n fuel : nat) (st : draw_state) :
  (forall t fn, os_open os t fn < 0) ->
  cache_root (ds_font st) = SPLAY_NIL ->
  fd (ds_font st) < 0 ->
  0 <= text ->
  text + 2 * Z.of_nat n <= Z.of_nat (List.length mem) ->
  2 * Z.of_nat n < 2 ^ 32 ->
  (n <= fuel)%nat ->
  exists st',
    _rtgui_hz_file_font_draw_text os flag gc fuel mem text (2 * Z.of_nat n) st
      = Done st'
    /\ ds_ops st' = ds_ops st
    /\ cache_root (ds_font st') = SPLAY_NIL
    /\ cache_size (ds_font st') = cache_size (ds_font st)
    /\ fd (ds_font st') < 0
    /\ (io_calls (ds_trace st') + opens (ds_trace st)
        = io_calls (ds_trace st) + opens (ds_trace st'))%nat.
Proof.
  intros NoFile Empty Closed Ht Hm Hl Hf.
  unfold _rtgui_hz_file_font_draw_text.
  replace (to_ubase (2 * Z.of_nat n)) with (2 * Z.of_nat n)
    by (unfold to_ubase; rewrite Z.mod_small; lia).
  now apply hz_draw_loop_without_file.
Qed.

Lemma unopenable_file_draws_nothing_witness :
  (forall t fn, os_open no_file_os t fn < 0)
  /\ exists st',
       _rtgui_hz_file_font_draw_text no_file_os 1 (mk_gc 1 7) 2
         [0xB0; 0xA1; 0xB0; 0xA1; 0] 0 4
         (mk_draw_state (new_font 16) [] [] (mk_rect 0 0 100 16)) = Done st'
       /\ ds_ops st' = [].
Proof.
  assert (NoFile : forall t fn, os_open no_file_os t fn < 0)
    by (intros; cbn; lia).
  split; [exact NoFile|].
  destruct (unopenable_file_draws_nothing no_file_os 1 (mk_gc 1 7)
              [0xB0; 0xA1; 0xB0; 0xA1; 0] 0 2 2
              (mk_draw_state (new_font 16) [] [] (mk_rect 0 0 100 16))
              NoFile eq_refl)
    as (st' & Run & Ops & _); [cbn; lia | lia | cbn; lia | cbn; lia | lia |].
  exists st'. split; [exact Run | exact Ops].
Defined.

(** ** Runs of odd length *)

Lemma hz_draw_glyph_next (os : os_model) (flag : Z) (gc : rtgui_gc)
    (mem : list Z) (h word_bytes str len : Z) (st : draw_state)
    (str' len' : Z) (st' : draw_state) :
  hz_draw_glyph os flag gc mem h word_bytes str len st = Done (str', len', st') ->
  str' = str + 2 /\ len' = to_ubase (len - 2)
  /\ x2 (ds_rect st') = x2 (ds_rect st).
Proof.
  unfold hz_draw_glyph.
  destruct (read_byte mem str); cbn [obind]; try discriminate.
  destruct (read_byte mem (str + 1)); cbn [obind]; try discriminate.
  destruct (_font_cache_get _ _ _ _) as [[[r f] t]| |]; cbn [obind fst snd];
    try discriminate.
  destruct r as [b|]; [destruct (draw_word _ _ _ _ _ _)|]; cbn [obind];
    try discriminate; intros [= <- <- <-]; auto.
Qed.

(** X15: a double-byte run of odd length never ends by running out of
    bytes: whenever the rasterizer returns from such a run, the cursor
    has reached the right edge of the rectangle. *)
Theorem odd_run_stops_only_at_right_edge (os : os_model) (flag : Z)
    (gc : rtgui_gc) (fuel : nat) (mem : list Z) (text len : Z)
    (st st' : draw_state) :
  0 < len < 2 ^ 32 ->
  Z.odd len = true ->
  _rtgui_hz_file_font_draw_text os flag gc fuel mem text len st = Done st' ->
  x2 (ds_rect st') <= x1 (ds_rect st').
Proof.
  intros Hl Ho. unfold _rtgui_hz_file_font_draw_text.
  replace (to_ubase len) with len by (unfold to_ubase; rewrite Z.mod_small; lia).
  generalize (drawing_height (ds_font st) (ds_rect st)) as h.
  generalize (row_bytes (ds_font st)) as wb. intros wb h.
  revert text len st Hl Ho.
  induction fuel as [|fuel IH]; intros str len st Hl Ho; cbn [hz_draw_loop];
    unfold hz_loop_test; rewrite (proj2 (Z.gtb_gt _ _)) by lia; cbn [andb];
    destruct (Z.ltb_spec (x1 (ds_rect st)) (x2 (ds_rect st))) as [In|Out];
    try discriminate; try (intros [= <-]; lia).
  destruct (hz_draw_glyph os flag gc mem h wb str len st)
    as [[[str1 len1] st1]| |] eqn:Pass; cbn [obind fst snd]; try discriminate.
  destruct (hz_draw_glyph_next _ _ _ _ _ _ _ _ _ _ _ _ Pass) as (_ & L1 & _).
  apply IH.
  - subst len1. unfold to_ubase.
    pose proof (Z.mod_pos_bound (len - 2) (2 ^ 32) ltac:(lia)).
    destruct (Z.eq_dec len 1) as [->|N]; [cbn; lia|].
    rewrite Z.mod_small; [|lia].
    assert (len <> 2) by (intros ->; discriminate Ho). lia.
  - subst len1. unfold to_ubase.
    destruct (Z.eq_dec len 1) as [->|N]; [reflexivity|].
    assert (len <> 2) by (intros ->; discriminate Ho).
    rewrite Z.mod_small by lia.
    rewrite Z.odd_sub, Ho. reflexivity.
Qed.

Lemma odd_run_stops_only_at_right_edge_witness :
  0 < 1 < 2 ^ 32
  /\ Z.odd 1 = true
  /\ exists st',
       _rtgui_hz_file_font_draw_text no_file_os 1 (mk_gc 1 7) 2
         [0xB0; 0x41; 0x42; 0x43; 0] 0 1
         (mk_draw_state (new_font 16) [] [] (mk_rect 0 0 32 16)) = Done st'
       /\ x2 (ds_rect st') <= x1 (ds_rect st').
Proof.
  assert (L : 0 < 1 < 2 ^ 32) by lia.
  split; [exact L|]. split; [reflexivity|].
  eexists. split; [vm_compute; reflexivity|].
  apply (odd_run_stops_only_at_right_edge no_file_os 1 (mk_gc 1 7) 2
           [0xB0; 0x41; 0x42; 0x43; 0] 0 1
           (mk_draw_state (new_font 16) [] [] (mk_rect 0 0 32 16)) _ L eq_refl).
  vm_compute. reflexivity.
Defined.

(** ** Up to the capacity every glyph stays cached *)

(** X16: a sequence of lookups that cannot take [cache_size] above 64
    loses nothing: every entry cached before is found, unchanged, after
    the sequence, and [cache_size] grows by at most the number of
    lookups. *)
Theorem working_set_within_capacity_is_kept (os : os_model) (codes : list Z) :
  forall (font : rtgui_hz_file_font) (tr : trace),
    cache_inv font ->
    cache_size font + Z.of_nat (List.length codes) <= HZ_CACHE_MAX ->
    exists font2 tr2,
      get_all os font tr codes = Done (font2, tr2)
      /\ cache_inv font2
      /\ cache_size font <= cache_size font2
         <= cache_size font + Z.of_nat (List.length codes)
      /\ forall x e,
           SPLAY_FIND (cache_root font) x = Some e ->
           SPLAY_FIND (cache_root font2) x = Some e.
Proof.
  induction codes as [|c rest IH]; intros font tr Inv Room; cbn [get_all].
  - exists font, tr. split; [reflexivity|]. split; [exact Inv|].
    split; [cbn; lia | auto].
  - cbn [List.length] in Room.
    destruct (font_cache_get_spec os font tr c Inv)
      as (r0 & f0 & t0 & Run0 & Inv1 & _).
    destruct (lookup_below_capacity_keeps os font tr c Inv ltac:(lia))
      as (r & font1 & tr1 & Run & Keep1 & Size).
    rewrite Run0 in Run. injection Run as <- <- <-.
    rewrite Run0. cbn [obind fst snd].
    destruct (IH f0 t0 Inv1 ltac:(lia)) as (font2 & tr2 & Runs & Inv2 & Size2 & Keep).
    exists font2, tr2. split; [exact Runs|]. split; [exact Inv2|].
    split; [cbn [List.length]; lia|].
    intros x e F. apply Keep. now apply Keep1.
Qed.

Lemma working_set_within_capacity_is_kept_witness :
  cache_inv (new_font 8)
  /\ cache_size (new_font 8) + Z.of_nat (List.length codes64) <= HZ_CACHE_MAX
  /\ exists font2 tr2,
       get_all (file_os zero_file) (new_font 8) [] codes64 = Done (font2, tr2)
       /\ cache_size font2 <= 64.
Proof.
  assert (Room : cache_size (new_font 8) + Z.of_nat (List.length codes64)
                 <= HZ_CACHE_MAX) by (vm_compute; discriminate).
  split; [apply cache_inv_new|]. split; [exact Room|].
  destruct (working_set_within_capacity_is_kept (file_os zero_file) codes64
              (new_font 8) [] (cache_inv_new 8) Room)
    as (font2 & tr2 & Run & _ & Size & _).
  exists font2, tr2. split; [exact Run|].
  assert (L : Z.of_nat (List.length codes64) = 64) by reflexivity.
  rewrite L in Size. cbn [cache_size new_font] in Size. lia.
Defined.

(** ** The cursor advance of a draw call and the measured width *)

(** X17: for a text of ASCII bytes only, where neither the 16-bit cursor
    nor the width overflows or reaches the cap, the cursor advance of
    the draw call equals the width [get_metrics] reports, and the
    reported height is the font size. *)
Theorem ascii_advance_is_measured_width (os : os_model) (flag : Z)
    (gc : rtgui_gc) (fuel : nat) (s rest : list Z) (st : draw_state)
    (rect : rtgui_rect) :
  s <> [] ->
  Forall (fun b => 0 < b < 0x80) s ->
  Z.of_nat (List.length s) < 2 ^ 32 ->
  0 <= font_size (ds_font st) < 2 ^ 15 ->
  - 2 ^ 15 <= x1 (ds_rect st) ->
  x1 (ds_rect st) + font_size (ds_font st) / 2 * Z.of_nat (List.length s)
    < 2 ^ 15 ->
  font_size (ds_font st) / 2 * Z.of_nat (List.length s) < 0x7FFF ->
  exists st' r,
    rtgui_hz_file_font_draw_text os flag gc fuel (Some (s ++ 0 :: rest)) st
      = Done st'
    /\ rtgui_hz_file_font_get_metrics (ds_font st) (Some (s ++ 0 :: rest)) rect
       = Done r
    /\ x1 (ds_rect st') = x1 (ds_rect st) + x2 r
    /\ y2 r = font_size (ds_font st).
Proof.
  intros Ne A Len HS Hx Fit NoCap.
  assert (NZ : Forall nonzero_byte s).
  { eapply Forall_impl; [|exact A]. unfold nonzero_byte. intros; lia. }
  assert (W : 0 <= font_size (ds_font st) / 2 * Z.of_nat (List.length s)).
  { apply Z.mul_nonneg_nonneg; [apply Z.div_pos|]; lia. }
  do 2 eexists. split; [|split].
  - assert (K : Forall (fun b => byte_kind b = ASCII) s).
    { eapply Forall_impl; [|exact A]. cbn beta. intros b Hb.
      unfold byte_kind. now replace (b <? 128) with true by lia. }
    rewrite (draw_text_single_run os flag gc fuel ASCII s rest st Ne NZ K Len).
    unfold draw_ascii_run.
    rewrite (sub_bytes_at (s ++ 0 :: rest) [] s (0 :: rest)); auto.
  - apply get_metrics_saturates; auto. lia.
  - cbn [ds_rect set_x1 x1 x2 y2].
    rewrite Z.quot_div_nonneg by lia.
    rewrite to_int16_small by lia. rewrite Z.min_r by lia. auto.
Qed.

Lemma ascii_advance_is_measured_width_witness :
  [0x48; 0x69] <> []
  /\ Forall (fun b => 0 < b < 0x80) [0x48; 0x69]
  /\ exists st' r,
       rtgui_hz_file_font_draw_text no_file_os 1 (mk_gc 1 7) 0
         (Some [0x48; 0x69; 0])
         (mk_draw_state (new_font 16) [] [] (mk_rect 4 0 100 16)) = Done st'
       /\ rtgui_hz_file_font_get_metrics (new_font 16) (Some [0x48; 0x69; 0])
            (mk_rect 0 0 0 0) = Done r
       /\ x1 (ds_rect st') = 4 + x2 r.
Proof.
  assert (Ne : [0x48; 0x69] <> []) by discriminate.
  assert (A : Forall (fun b => 0 < b < 0x80) [0x48; 0x69])
    by (repeat constructor; lia).
  split; [exact Ne|]. split; [exact A|].
  assert (L32 : Z.of_nat (List.length [0x48; 0x69]) < 2 ^ 32) by reflexivity.
  assert (HS : 0 <= font_size (new_font 16) < 2 ^ 15)
    by (split; [discriminate | reflexivity]).
  assert (Hx : - 2 ^ 15 <= 4) by discriminate.
  assert (Fit : 4 + font_size (new_font 16) / 2
                    * Z.of_nat (List.length [0x48; 0x69]) < 2 ^ 15)
    by reflexivity.
  assert (NoCap : font_size (new_font 16) / 2
                  * Z.of_nat (List.length [0x48; 0x69]) < 0x7FFF)
    by reflexivity.
  destruct (ascii_advance_is_measured_width no_file_os 1 (mk_gc 1 7) 0
              [0x48; 0x69] []
              (mk_draw_state (new_font 16) [] [] (mk_rect 4 0 100 16))
              (mk_rect 0 0 0 0) Ne A L32 HS Hx Fit NoCap)
    as (st' & r & Run & Met & Adv & _).
  exists st', r. split; [exact Run|]. split; [exact Met | exact Adv].
Defined.

(** X18: for a text that is one double-byte run of [n] glyphs, not
    clipped by the rectangle, the draw call advances the cursor by
    [n * S] while [get_metrics] reports [min(0x7FFF, (S/2) * 2n)]: below
    the cap the advance exceeds the reported width by [n * (S mod 2)],
    so the two agree exactly when the font size is even. *)
Theorem double_byte_advance_and_measured_width (os : os_model) (flag : Z)
    (gc : rtgui_gc) (fuel n : nat) (s rest : list Z) (st : draw_state)
    (rect : rtgui_rect) :
  font_wf (ds_font st) ->
  Forall (fun b => 0x80 <= b < 256) s ->
  List.length s = (2 * S n)%nat ->
  Z.of_nat (List.length s) < 2 ^ 32 ->
  (S n <= fuel)%nat ->
  font_size (ds_font st) < 2 ^ 15 ->
  - 2 ^ 15 <= x1 (ds_rect st) ->
  x2 (ds_rect st) + font_size (ds_font st) <= 2 ^ 15 ->
  x1 (ds_rect st) + Z.of_nat n * font_size (ds_font st) < x2 (ds_rect st) ->
  exists st' r,
    rtgui_hz_file_font_draw_text os flag gc fuel (Some (s ++ 0 :: rest)) st
      = Done st'
    /\ rtgui_hz_file_font_get_metrics (ds_font st) (Some (s ++ 0 :: rest)) rect
       = Done r
    /\ x1 (ds_rect st')
       = x1 (ds_rect st) + Z.of_nat (S n) * font_size (ds_font st)
    /\ x2 r = Z.min 0x7FFF (font_size (ds_font st) / 2 * (2 * Z.of_nat (S n)))
    /\ (Z.of_nat (S n) * font_size (ds_font st) < 0x7FFF ->
        x1 (ds_rect st')
        = x1 (ds_rect st) + x2 r
          + Z.of_nat (S n) * (font_size (ds_font st) mod 2)).
Proof.
  intros Wf A Len Len32 Fu HS Hx1 Hx2 Wide.
  assert (S0 : 0 <= font_size (ds_font st)) by apply Wf.
  assert (NZ : Forall nonzero_byte s).
  { eapply Forall_impl; [|exact A]. unfold nonzero_byte. intros; lia. }
  assert (LenZ : Z.of_nat (List.length s) = 2 * Z.of_nat (S n)) by lia.
  assert (G : group_runs s = [(DOUBLE, s)]).
  { rewrite <- (app_nil_r s) at 1.
    rewrite (group_runs_prefix DOUBLE s []).
    - destruct s; [discriminate Len | reflexivity].
    - eapply Forall_impl; [|exact A]. cbn beta. intros b Hb.
      unfold byte_kind. now replace (b <? 128) with false by lia.
    - discriminate. }
  assert (Hm : 0 + 2 * Z.of_nat (S n) <= Z.of_nat (List.length (s ++ 0 :: rest))).
  { rewrite length_app. cbn [List.length]. lia. }
  destruct (hz_draw_loop_even os flag gc (s ++ 0 :: rest)
              (drawing_height (ds_font st) (ds_rect st))
              (row_bytes (ds_font st)) (S n) fuel 0 st Wf (rows_fit _ _ Wf)
              ltac:(lia) Hm ltac:(lia) Fu)
    as (k & st' & Hk & Run & X1 & X2 & Stop & Before).
  assert (Exact : x1 (ds_rect st')
                  = x1 (ds_rect st) + Z.of_nat k * font_size (ds_font st)).
  { rewrite X1. now apply (cursor_after_exact _ (x2 (ds_rect st))). }
  assert (K : k = S n).
  { destruct Stop as [E|Edge]; [exact E|]. nia. }
  subst k.
  exists st'. eexists. split; [|split; [|split; [exact Exact|split]]].
  - unfold rtgui_hz_file_font_draw_text.
    rewrite (strlen_terminated s rest NZ). cbn [obind].
    rewrite to_uint32_small by lia.
    rewrite (draw_text_loop_dispatches draw_state _ _ (s ++ 0 :: rest) rest _ s []);
      auto; try lia.
    rewrite G. cbn [dispatch_runs]. rewrite LenZ.
    unfold _rtgui_hz_file_font_draw_text.
    replace (to_ubase (2 * Z.of_nat (S n))) with (2 * Z.of_nat (S n))
      by (unfold to_ubase; rewrite Z.mod_small; lia).
    change (Z.of_nat (List.length (@nil Z))) with 0.
    rewrite Run. reflexivity.
  - apply get_metrics_value; auto; lia.
  - cbn [x2]. rewrite LenZ. rewrite Z.mod_small; [reflexivity|].
    split; [apply Z.mul_nonneg_nonneg; [apply Z.div_pos|]; lia|].
    pose proof (Z.div_mod (font_size (ds_font st)) 2 ltac:(lia)).
    pose proof (Z.mod_pos_bound (font_size (ds_font st)) 2 ltac:(lia)). nia.
  - intros NoCap. cbn [x2]. rewrite LenZ. rewrite Exact.
    pose proof (Z.div_mod (font_size (ds_font st)) 2 ltac:(lia)) as DM.
    pose proof (Z.mod_pos_bound (font_size (ds_font st)) 2 ltac:(lia)) as MB.
    assert (Q : 0 <= font_size (ds_font st) / 2) by (apply Z.div_pos; lia).
    set (q := font_size (ds_font st) / 2) in *.
    set (m := font_size (ds_font st) mod 2) in *.
    assert (P : 0 <= q * (2 * Z.of_nat (S n)) < 0x7FFF).
    { split; [apply Z.mul_nonneg_nonneg; lia|].
      assert (0 <= Z.of_nat (S n) * m) by (apply Z.mul_nonneg_nonneg; lia).
      nia. }
    rewrite Z.mod_small by lia. rewrite Z.min_r by lia. nia.
Qed.

Lemma double_byte_advance_and_measured_width_witness :
  font_wf (new_font 15)
  /\ exists st' r,
       rtgui_hz_file_font_draw_text no_file_os 1 (mk_gc 1 7) 2
         (Some [0xB0; 0xA1; 0xB0; 0xA2; 0])
         (mk_draw_state (new_font 15) [] [] (mk_rect 0 0 100 15)) = Done st'
       /\ rtgui_hz_file_font_get_metrics (new_font 15)
            (Some [0xB0; 0xA1; 0xB0; 0xA2; 0]) (mk_rect 0 0 0 0) = Done r
       /\ x1 (ds_rect st') = 30
       /\ x2 r = 28.
Proof.
  assert (Wf : font_wf (new_font 15)) by (apply font_wf_new; lia).
  split; [exact Wf|].
  assert (A : Forall (fun b => 0x80 <= b < 256) [0xB0; 0xA1; 0xB0; 0xA2])
    by (repeat constructor; lia).
  assert (L32 : Z.of_nat (List.length [0xB0; 0xA1; 0xB0; 0xA2]) < 2 ^ 32)
    by reflexivity.
  assert (HS : font_size (new_font 15) < 2 ^ 15) by reflexivity.
  assert (Hx1 : - 2 ^ 15 <= 0) by discriminate.
  assert (Hx2 : 100 + font_size (new_font 15) <= 2 ^ 15) by discriminate.
  assert (Wide : 0 + Z.of_nat 1 * font_size (new_font 15) < 100) by reflexivity.
  destruct (double_byte_advance_and_measured_width no_file_os 1 (mk_gc 1 7) 2 1
              [0xB0; 0xA1; 0xB0; 0xA2] []
              (mk_draw_state (new_font 15) [] [] (mk_rect 0 0 100 15))
              (mk_rect 0 0 0 0) Wf A eq_refl L32 (le_n 2) HS Hx1 Hx2 Wide)
    as (st' & r & Run & Met & Adv & W & _).
  exists st', r. split; [exact Run|]. split; [exact Met|].
  split; [exact Adv | exact W].
Defined.
